(** * Lifecycle automation core: hygiene scorer, send-time optimizer, flow engine

    A shallow embedding of [lib/hygiene.ts], [lib/optimizer.ts] and
    [lib/flows.ts].  Conventions used throughout:

    - a [Date] is its time value, milliseconds since the epoch, as a [Z];
    - a JavaScript [number] that holds a ratio is an exact rational [Q]
      (counts and orders are integers), extended with the two infinities
      the code uses ([-Infinity] as the initial best score, [Infinity] as
      the age of a missing timestamp);
    - a table of the relational store keyed by its primary key is a [gmap],
      an append-only table is a list of rows;
    - an [await]ed call is a state transformer on [Store]; a thrown error is
      the [Threw] case of [Completion]. *)

From Stdlib Require Import ZArith QArith Qround Lia Lqa Ascii String.
From stdpp Require Import gmap strings list sorting pretty.

Open Scope string_scope.
Open Scope list_scope.
Open Scope nat_scope.
Set Warnings "-register-all".

(** ** JavaScript numbers *)

Inductive number :=
  | NegInfinity
  | Finite (q : Q)
  | Infinity.

(** [a > b] on numbers (no NaN arises in the code modelled here). *)
Definition num_gtb (a b : number) : bool :=
  match a, b with
  | NegInfinity, _ => false
  | Finite _, NegInfinity => true
  | Finite x, Finite y => negb (Qle_bool x y)
  | Finite _, Infinity => false
  | Infinity, Infinity => false
  | Infinity, _ => true
  end.

Definition num_ltb (a b : number) : bool := num_gtb b a.
Definition num_geb (a b : number) : bool := negb (num_gtb b a).

Definition Qgtb (a b : Q) : bool := negb (Qle_bool a b).
Definition Qltb (a b : Q) : bool := Qgtb b a.
Definition Qgeb (a b : Q) : bool := Qle_bool b a.

(** [Math.max] and [Math.abs] on finite numbers. *)
Definition Math_max (a b : Q) : Q := if Qle_bool a b then b else a.
Definition Math_abs (a : Q) : Q := if Qle_bool 0 a then a else Qopp a.

(** ** Dates *)

Definition msPerHour : Z := 60 * 60 * 1000.
Definition msPerDay : Z := 24 * 60 * 60 * 1000.

(** ** Enumerations of the schema *)

Inductive ContactStatus := ACTIVE | BOUNCED | COMPLAINED | SUPPRESSED.
Inductive HygieneRiskLevel := LOW | MEDIUM | HIGH.
Inductive FlowRunStatus := PENDING | WAITING | COMPLETED | CANCELLED | FAILED.
Inductive FlowStatus := DRAFT | FLOW_ACTIVE | PAUSED.
Inductive FlowStepType := TRIGGER | DELAY | SEGMENT_FILTER | SEND_TEMPLATE.
Inductive MessageStatus := SCHEDULED | SENT.

#[global] Instance ContactStatus_eq_dec : EqDecision ContactStatus.
Proof. solve_decision. Defined.
#[global] Instance HygieneRiskLevel_eq_dec : EqDecision HygieneRiskLevel.
Proof. solve_decision. Defined.
#[global] Instance FlowRunStatus_eq_dec : EqDecision FlowRunStatus.
Proof. solve_decision. Defined.
#[global] Instance FlowStepType_eq_dec : EqDecision FlowStepType.
Proof. solve_decision. Defined.

(** ** Rows of the store *)

Record Contact := {
  c_email : string;
  c_status : ContactStatus;
  c_tags : list string;
  c_timezone : option string;
  c_lastEventAt : option Z;
  c_lastMessageSentAt : option Z;
  c_propensity : option Q;
  c_hygieneRiskLevel : option HygieneRiskLevel;
  c_hygieneScore : option Q
}.

Record Suppression := {
  s_contactId : string;
  s_reason : string;
  s_source : string;
  s_notes : string
}.

Record HygieneEvaluation := {
  e_contactId : string;
  e_riskLevel : HygieneRiskLevel;
  e_score : Q;
  e_suppressed : bool;
  e_reasons : list string
}.

Record Message := {
  m_contactId : string;
  m_templateId : string;
  m_resendMessageId : option string;
  m_status : MessageStatus;
  m_scheduledSendAt : option Z;
  m_sentAt : option Z;
  m_flowRunId : option string;
  (** [outcome.clickedAt] of the joined outcome row, if any *)
  m_clickedAt : option Z
}.

Record OptimizerDecision := {
  d_contactId : string;
  d_recommendedHour : nat;
  d_score : number;
  d_baselineScore : Q;
  d_segment : string;
  d_usedSegmentHistogram : bool;
  d_generatedAt : Z;
  d_throttled : bool;
  d_recommendedAt : Z
}.

(** [Prisma.JsonValue]: the untyped step configuration. *)
Inductive JsonValue :=
  | JNull
  | JBool (b : bool)
  | JNumber (q : Q)
  | JString (s : string)
  | JArray (items : list JsonValue)
  | JObject (fields : list (string * JsonValue)).

Record FlowStep := {
  st_order : Z;
  st_type : FlowStepType;
  st_config : JsonValue
}.

Record Template := {
  t_subject : string;
  t_html : string
}.

Record Flow := {
  f_status : FlowStatus;
  f_triggerEventName : string;
  f_delayMinutes : option Q;
  f_useOptimizer : bool;
  f_segmentId : option string;
  f_templateId : string;
  f_steps : list FlowStep
}.

Record FlowRun := {
  r_flowId : string;
  r_contactId : string;
  r_status : FlowRunStatus;
  r_nextStepOrder : Z;
  r_scheduledAt : Z;
  r_completedAt : option Z;
  r_cancelledReason : option string
}.

(** Click and send counts per hour of the week. *)
Record Histogram := {
  sends : list N;
  clicks : list N
}.

Record Histograms := {
  global : Histogram;
  segments : gmap string Histogram
}.

(** ** The store

    The tables the three modules read and write, together with the
    process-wide [histogramCache] of the optimizer ([data], [fetchedAt]). *)
Record Store := {
  contacts : gmap string Contact;
  suppressions : list Suppression;
  hygieneEvaluations : list HygieneEvaluation;
  messages : list Message;
  optimizerDecisions : list OptimizerDecision;
  histogramCache : option (Histograms * Z);
  flows : gmap string Flow;
  templates : gmap string Template;
  flowRuns : gmap string FlowRun;
  segmentMemberships : list (string * string)
}.

Definition with_contacts (f : gmap string Contact → gmap string Contact) (s : Store) : Store :=
  {| contacts := f (contacts s); suppressions := suppressions s;
     hygieneEvaluations := hygieneEvaluations s; messages := messages s;
     optimizerDecisions := optimizerDecisions s; histogramCache := histogramCache s;
     flows := flows s; templates := templates s; flowRuns := flowRuns s;
     segmentMemberships := segmentMemberships s |}.

Definition with_suppressions (f : list Suppression → list Suppression) (s : Store) : Store :=
  {| contacts := contacts s; suppressions := f (suppressions s);
     hygieneEvaluations := hygieneEvaluations s; messages := messages s;
     optimizerDecisions := optimizerDecisions s; histogramCache := histogramCache s;
     flows := flows s; templates := templates s; flowRuns := flowRuns s;
     segmentMemberships := segmentMemberships s |}.

Definition with_hygieneEvaluations (f : list HygieneEvaluation → list HygieneEvaluation)
    (s : Store) : Store :=
  {| contacts := contacts s; suppressions := suppressions s;
     hygieneEvaluations := f (hygieneEvaluations s); messages := messages s;
     optimizerDecisions := optimizerDecisions s; histogramCache := histogramCache s;
     flows := flows s; templates := templates s; flowRuns := flowRuns s;
     segmentMemberships := segmentMemberships s |}.

Definition with_messages (f : list Message → list Message) (s : Store) : Store :=
  {| contacts := contacts s; suppressions := suppressions s;
     hygieneEvaluations := hygieneEvaluations s; messages := f (messages s);
     optimizerDecisions := optimizerDecisions s; histogramCache := histogramCache s;
     flows := flows s; templates := templates s; flowRuns := flowRuns s;
     segmentMemberships := segmentMemberships s |}.

Definition with_optimizerDecisions (f : list OptimizerDecision → list OptimizerDecision)
    (s : Store) : Store :=
  {| contacts := contacts s; suppressions := suppressions s;
     hygieneEvaluations := hygieneEvaluations s; messages := messages s;
     optimizerDecisions := f (optimizerDecisions s); histogramCache := histogramCache s;
     flows := flows s; templates := templates s; flowRuns := flowRuns s;
     segmentMemberships := segmentMemberships s |}.

Definition with_histogramCache (c : option (Histograms * Z)) (s : Store) : Store :=
  {| contacts := contacts s; suppressions := suppressions s;
     hygieneEvaluations := hygieneEvaluations s; messages := messages s;
     optimizerDecisions := optimizerDecisions s; histogramCache := c;
     flows := flows s; templates := templates s; flowRuns := flowRuns s;
     segmentMemberships := segmentMemberships s |}.

Definition with_flowRuns (f : gmap string FlowRun → gmap string FlowRun) (s : Store) : Store :=
  {| contacts := contacts s; suppressions := suppressions s;
     hygieneEvaluations := hygieneEvaluations s; messages := messages s;
     optimizerDecisions := optimizerDecisions s; histogramCache := histogramCache s;
     flows := flows s; templates := templates s; flowRuns := f (flowRuns s);
     segmentMemberships := segmentMemberships s |}.

Definition emptyStore : Store :=
  {| contacts := ∅; suppressions := []; hygieneEvaluations := []; messages := [];
     optimizerDecisions := []; histogramCache := None; flows := ∅; templates := ∅;
     flowRuns := ∅; segmentMemberships := [] |}.

(** ** Thrown errors *)

Inductive Error :=
  | PlainError (message : string)
  | RangeError (message : string)
  | ResendError (message : string).

Definition error_message (e : Error) : string :=
  match e with
  | PlainError m | RangeError m | ResendError m => m
  end.

Inductive Completion (A : Type) :=
  | Returned (a : A)
  | Threw (e : Error).
Arguments Returned {A} a.
Arguments Threw {A} e.

(** * Hygiene risk scorer ([lib/hygiene.ts]) *)

Module Hygiene.

Record HygieneComputationInput := {
  i_id : string;
  i_status : ContactStatus;
  i_tags : list string;
  i_lastEventAt : option Z;
  i_lastMessageSentAt : option Z;
  i_propensity : option Q;
  i_suppressions : list Suppression
}.

Record HygieneComputationResult := {
  contactId : string;
  riskLevel : HygieneRiskLevel;
  score : Q;
  reasons : list string;
  shouldSuppress : bool
}.

Definition HYGIENE_SUPPRESSION_REASON : string := "hygiene-risk".
Definition STALE_EVENT_THRESHOLD_DAYS : Q := 60.
Definition STALE_SEND_THRESHOLD_DAYS : Q := 90.
Definition LOW_PROPENSITY_THRESHOLD : Q := 0.15.

(** [at ? (now - at) / msPerDay : Infinity] *)
Definition daysSince (now : Z) (at_ : option Z) : number :=
  match at_ with
  | Some t => Finite (inject_Z (now - t) / inject_Z msPerDay)
  | None => Infinity
  end.

(** The mutable locals of [computeHygieneScore]. *)
Record Verdict := {
  v_riskLevel : HygieneRiskLevel;
  v_score : Q;
  v_reasons : list string;
  v_shouldSuppress : bool
}.

(** Lines 55-70: the status ladder. *)
Definition statusVerdict (st : ContactStatus) : Verdict :=
  match st with
  | BOUNCED => Build_Verdict HIGH 95 ["Hard bounce detected"] true
  | COMPLAINED => Build_Verdict HIGH 98 ["Complaint reported"] true
  | SUPPRESSED => Build_Verdict HIGH 90 ["Contact already suppressed"] true
  | ACTIVE => Build_Verdict LOW 20 [] false
  end.

(** Lines 76-99: recency and propensity checks, skipped once HIGH. *)
Definition staleSend (daysSinceSend : number) (v : Verdict) : Verdict :=
  if num_gtb daysSinceSend (Finite STALE_SEND_THRESHOLD_DAYS) then
    Build_Verdict MEDIUM (Math_max (v_score v) 65)
      (v_reasons v ++ ["No sends in last 90 days"]) (v_shouldSuppress v)
  else v.

Definition staleEvent (daysSinceEvent : number) (v : Verdict) : Verdict :=
  if num_gtb daysSinceEvent (Finite STALE_EVENT_THRESHOLD_DAYS) then
    Build_Verdict
      (if bool_decide (v_riskLevel v = LOW) then MEDIUM else v_riskLevel v)
      (Math_max (v_score v) 55)
      (v_reasons v ++ ["No engagement events in last 60 days"])
      (v_shouldSuppress v)
  else v.

Definition lowPropensity (propensityValue : Q) (v : Verdict) : Verdict :=
  if Qgtb propensityValue 0 && Qltb propensityValue LOW_PROPENSITY_THRESHOLD then
    Build_Verdict
      (if bool_decide (v_riskLevel v = LOW) then MEDIUM else v_riskLevel v)
      (Math_max (v_score v) 50)
      (v_reasons v ++ ["Low propensity segment"])
      (v_shouldSuppress v)
  else v.

Definition healthy (propensityValue : Q) (daysSinceEvent : number) (v : Verdict) : Verdict :=
  if bool_decide (v_riskLevel v = LOW)
     && Qgeb propensityValue LOW_PROPENSITY_THRESHOLD
     && num_ltb daysSinceEvent (Finite STALE_EVENT_THRESHOLD_DAYS) then
    Build_Verdict (v_riskLevel v) 25 (v_reasons v ++ ["Healthy engagement"])
      (v_shouldSuppress v)
  else v.

(** Lines 101-105: the synthetic safeguard. *)
Definition safeguard (tags : list string) (v : Verdict) : Verdict :=
  if bool_decide (v_riskLevel v = HIGH) && bool_decide ("synthetic" ∈ tags) then
    Build_Verdict (v_riskLevel v) (v_score v)
      (v_reasons v ++ ["Synthetic contact safeguard"]) false
  else v.

(** The three statuses that exclude a contact from sending. *)
Definition excluded (st : ContactStatus) : Prop :=
  st = BOUNCED ∨ st = COMPLAINED ∨ st = SUPPRESSED.

(** The state the checks keep while the status ladder left the verdict
    below HIGH: LOW with score 20, or MEDIUM with score 50, 55 or 65. *)
Definition belowHigh (v : Verdict) : Prop :=
  v_shouldSuppress v = false ∧
  ((v_riskLevel v = LOW ∧ v_score v = 20%Q) ∨
   (v_riskLevel v = MEDIUM ∧ (v_score v = 50 ∨ v_score v = 55 ∨ v_score v = 65)%Q)).

Definition computeHygieneScore (input : HygieneComputationInput) (now : Z)
  : HygieneComputationResult :=
  let propensityValue := default 0%Q (i_propensity input) in
  let v0 := statusVerdict (i_status input) in
  let daysSinceEvent := daysSince now (i_lastEventAt input) in
  let daysSinceSend := daysSince now (i_lastMessageSentAt input) in
  let v1 :=
    if bool_decide (v_riskLevel v0 ≠ HIGH) then
      healthy propensityValue daysSinceEvent
        (lowPropensity propensityValue
          (staleEvent daysSinceEvent
            (staleSend daysSinceSend v0)))
    else v0 in
  let v2 := safeguard (i_tags input) v1 in
  {| contactId := i_id input;
     riskLevel := v_riskLevel v2;
     score := v_score v2;
     reasons := v_reasons v2;
     shouldSuppress := v_shouldSuppress v2 |}.

(** *** The sweep *)

Record HygieneSweepOptions := {
  suppressHighRisk : option bool;
  limit : option nat;
  now : option Z
}.

Record HygieneSweepSummary := {
  evaluated : nat;
  highRisk : nat;
  mediumRisk : nat;
  lowRisk : nat;
  suppressionsCreated : nat;
  contactsSuppressed : nat
}.

(** [Prisma.ContactUpdateInput], restricted to the keys the sweep sets. *)
Record ContactUpdateInput := {
  u_hygieneRiskLevel : option HygieneRiskLevel;
  u_hygieneScore : option Q;
  u_status : option ContactStatus
}.

(** A contact as selected by [findMany]: its id, its columns and the
    joined [suppressions] relation. *)
Record SweepContact := {
  sc_id : string;
  sc_row : Contact;
  sc_suppressions : list Suppression
}.

(** The locals the [for] loop accumulates into. *)
Record SweepAcc := {
  a_evaluationRows : list HygieneEvaluation;
  a_suppressionRows : list Suppression;
  a_contactUpdates : list (string * ContactUpdateInput);
  a_highRisk : nat;
  a_mediumRisk : nat;
  a_lowRisk : nat;
  a_suppressionsCreated : nat;
  a_contactsSuppressed : nat
}.

Definition emptyAcc : SweepAcc :=
  {| a_evaluationRows := []; a_suppressionRows := []; a_contactUpdates := [];
     a_highRisk := 0; a_mediumRisk := 0; a_lowRisk := 0;
     a_suppressionsCreated := 0; a_contactsSuppressed := 0 |}.

(** [options.suppressHighRisk !== false] *)
Definition suppressEnabled (options : HygieneSweepOptions) : bool :=
  negb (bool_decide (suppressHighRisk options = Some false)).

Definition hasHygieneSuppression (l : list Suppression) : bool :=
  existsb (λ entry, String.eqb (s_reason entry) HYGIENE_SUPPRESSION_REASON) l.

Definition scoreContact (contact : SweepContact) (now : Z) : HygieneComputationResult :=
  computeHygieneScore
    {| i_id := sc_id contact;
       i_status := c_status (sc_row contact);
       i_tags := c_tags (sc_row contact);
       i_lastEventAt := c_lastEventAt (sc_row contact);
       i_lastMessageSentAt := c_lastMessageSentAt (sc_row contact);
       i_propensity := c_propensity (sc_row contact);
       i_suppressions := sc_suppressions contact |} now.

Definition needsRiskUpdate (contact : SweepContact) (result : HygieneComputationResult) : bool :=
  negb (bool_decide (c_hygieneRiskLevel (sc_row contact) = Some (riskLevel result)))
  || Qgtb (Math_abs (default 0%Q (c_hygieneScore (sc_row contact)) - score result)) 0.001.

Definition shouldApplySuppression (options : HygieneSweepOptions) (contact : SweepContact)
    (result : HygieneComputationResult) : bool :=
  bool_decide (riskLevel result = HIGH)
  && suppressEnabled options
  && negb (bool_decide ("synthetic" ∈ c_tags (sc_row contact))).

Definition hygieneSuppressionRow (contactId : string) : Suppression :=
  {| s_contactId := contactId;
     s_reason := HYGIENE_SUPPRESSION_REASON;
     s_source := "system";
     s_notes := "Auto-suppressed due to hygiene risk" |}.

(** One iteration of the [for (const contact of contacts)] loop. *)
Definition sweepContact (options : HygieneSweepOptions) (now : Z)
    (acc : SweepAcc) (contact : SweepContact) : SweepAcc :=
  let result := scoreContact contact now in
  let risk := riskLevel result in
  let evaluation :=
    {| e_contactId := sc_id contact;
       e_riskLevel := risk;
       e_score := score result;
       e_suppressed := shouldSuppress result && suppressEnabled options;
       e_reasons := reasons result |} in
  let riskUpdate := needsRiskUpdate contact result in
  let apply := shouldApplySuppression options contact result in
  let alreadySuppressed := bool_decide (c_status (sc_row contact) = SUPPRESSED) in
  let hasSuppression := hasHygieneSuppression (sc_suppressions contact) in
  let transition := apply && negb alreadySuppressed in
  let create := apply && negb hasSuppression in
  let updateData :=
    {| u_hygieneRiskLevel := if riskUpdate then Some risk else None;
       u_hygieneScore := if riskUpdate then Some (score result) else None;
       u_status := if transition then Some SUPPRESSED else None |} in
  {| a_evaluationRows := a_evaluationRows acc ++ [evaluation];
     a_suppressionRows :=
       if create then a_suppressionRows acc ++ [hygieneSuppressionRow (sc_id contact)]
       else a_suppressionRows acc;
     a_contactUpdates :=
       if riskUpdate || transition
       then a_contactUpdates acc ++ [(sc_id contact, updateData)]
       else a_contactUpdates acc;
     a_highRisk := if bool_decide (risk = HIGH) then S (a_highRisk acc) else a_highRisk acc;
     a_mediumRisk :=
       if bool_decide (risk = HIGH) then a_mediumRisk acc
       else if bool_decide (risk = MEDIUM) then S (a_mediumRisk acc) else a_mediumRisk acc;
     a_lowRisk :=
       if bool_decide (risk = HIGH) then a_lowRisk acc
       else if bool_decide (risk = MEDIUM) then a_lowRisk acc else S (a_lowRisk acc);
     a_suppressionsCreated :=
       if create then S (a_suppressionsCreated acc) else a_suppressionsCreated acc;
     a_contactsSuppressed :=
       if transition then S (a_contactsSuppressed acc) else a_contactsSuppressed acc |}.

(** [prisma.contact.findMany({ take: options.limit, select: ... })] *)
Definition findContacts (take_ : option nat) (st : Store) : list SweepContact :=
  let rows :=
    (λ '(cid, row),
      {| sc_id := cid; sc_row := row;
         sc_suppressions :=
           filter (λ entry, s_contactId entry = cid) (suppressions st) |})
    <$> map_to_list (contacts st) in
  match take_ with
  | Some n => take n rows
  | None => rows
  end.

(** [tx.contact.update({ where: { id }, data })] *)
Definition applyContactUpdate (data : ContactUpdateInput) (c : Contact) : Contact :=
  {| c_email := c_email c;
     c_status := default (c_status c) (u_status data);
     c_tags := c_tags c;
     c_timezone := c_timezone c;
     c_lastEventAt := c_lastEventAt c;
     c_lastMessageSentAt := c_lastMessageSentAt c;
     c_propensity := c_propensity c;
     c_hygieneRiskLevel :=
       match u_hygieneRiskLevel data with
       | Some r => Some r
       | None => c_hygieneRiskLevel c
       end;
     c_hygieneScore :=
       match u_hygieneScore data with
       | Some x => Some x
       | None => c_hygieneScore c
       end |}.

Definition applyContactUpdates (updates : list (string * ContactUpdateInput))
    (m : gmap string Contact) : gmap string Contact :=
  foldl (λ acc '(cid, data), alter (applyContactUpdate data) cid acc) m updates.

(** The closing [prisma.$transaction]. *)
Definition commitSweep (acc : SweepAcc) (st : Store) : Store :=
  with_suppressions (λ l, l ++ a_suppressionRows acc)
    (with_contacts (applyContactUpdates (a_contactUpdates acc))
      (with_hygieneEvaluations (λ l, l ++ a_evaluationRows acc) st)).

(** [clock] is the value [new Date()] takes when [options.now] is absent. *)
Definition runHygieneSweep (clock : Z) (options : HygieneSweepOptions) (st : Store)
  : HygieneSweepSummary * Store :=
  let now := default clock (now options) in
  let contacts := findContacts (limit options) st in
  if bool_decide (length contacts = 0%nat) then
    ({| evaluated := 0; highRisk := 0; mediumRisk := 0; lowRisk := 0;
        suppressionsCreated := 0; contactsSuppressed := 0 |}, st)
  else
    let acc := foldl (sweepContact options now) emptyAcc contacts in
    ({| evaluated := length contacts;
        highRisk := a_highRisk acc;
        mediumRisk := a_mediumRisk acc;
        lowRisk := a_lowRisk acc;
        suppressionsCreated := a_suppressionsCreated acc;
        contactsSuppressed := a_contactsSuppressed acc |},
     commitSweep acc st).

(** Repeated invocations, nothing else touching the store in between. *)
Definition runHygieneSweeps (invocations : list (Z * HygieneSweepOptions)) (st : Store) : Store :=
  foldl (λ s '(clock, options), (runHygieneSweep clock options s).2) st invocations.

(** Number of ["hygiene-risk"] suppression rows of a contact. *)
Definition hygieneRows (cid : string) (st : Store) : nat :=
  length (filter (λ entry, s_contactId entry = cid ∧ s_reason entry = HYGIENE_SUPPRESSION_REASON)
            (suppressions st)).

(** *** What one loop iteration decides, contact by contact

    These restate the loop body's three decisions as functions of the
    selected contact; [sweepContact_fold] below relates them to the loop. *)

Definition creates (options : HygieneSweepOptions) (now : Z) (c : SweepContact) : bool :=
  shouldApplySuppression options c (scoreContact c now)
  && negb (hasHygieneSuppression (sc_suppressions c)).

Definition transitions (options : HygieneSweepOptions) (now : Z) (c : SweepContact) : bool :=
  shouldApplySuppression options c (scoreContact c now)
  && negb (bool_decide (c_status (sc_row c) = SUPPRESSED)).

Definition updateOf (options : HygieneSweepOptions) (now : Z) (c : SweepContact)
  : option (string * ContactUpdateInput) :=
  let result := scoreContact c now in
  let riskUpdate := needsRiskUpdate c result in
  if riskUpdate || transitions options now c then
    Some (sc_id c,
          {| u_hygieneRiskLevel := if riskUpdate then Some (riskLevel result) else None;
             u_hygieneScore := if riskUpdate then Some (score result) else None;
             u_status := if transitions options now c then Some SUPPRESSED else None |})
  else None.

(** The status column of the contact table. *)
Definition statusOf (cid : string) (st : Store) : option ContactStatus :=
  c_status <$> contacts st !! cid.

(** Selected contacts that were not SUPPRESSED before the sweep and are
    SUPPRESSED after it. *)
Definition newlySuppressed (before after : Store) (selected : list SweepContact)
  : list SweepContact :=
  filter (λ c, c_status (sc_row c) ≠ SUPPRESSED ∧ statusOf (sc_id c) after = Some SUPPRESSED)
    selected.

End Hygiene.


(** * Send-time optimizer ([lib/optimizer.ts]) *)

(** ** The UTC accessors of [Date] used by the optimizer *)

Module Date.

(** The epoch, 1970-01-01, was a Thursday (day 4). *)
Definition getUTCDay (d : Z) : Z := (d / msPerDay + 4) mod 7.
Definition getUTCHours (d : Z) : Z := (d mod msPerDay) / msPerHour.

(** [d.setUTCDate(d.getUTCDate() + k)]: day overflow carries into the
    month, so the instant moves by [k] whole days. *)
Definition addUTCDate (d k : Z) : Z := d + k * msPerDay.

(** [d.setUTCHours(h, 0, 0, 0)] *)
Definition setUTCHours (d h : Z) : Z := d - d mod msPerDay + h * msPerHour.

End Date.

(** What [Intl.DateTimeFormat] knows about a zone name: [None] when the
    name is rejected ([RangeError]), else the zone's offset from UTC, in
    milliseconds, at a given instant. *)
Definition TimeZones := string → option (Z → Z).

Module Optimizer.

Definition HOURS_PER_WEEK : nat := 7 * 24.
Definition SEGMENT_TAG_PREFIX : string := "segment=".
Definition SMOOTHING_ALPHA : Q := 5.
Definition ONE_DAY_MS : Z := 24 * 60 * 60 * 1000.
Definition HISTOGRAM_CACHE_TTL_MS : Z := 60 * 1000.

Definition createHistogram : Histogram :=
  {| sends := replicate HOURS_PER_WEEK 0%N;
     clicks := replicate HOURS_PER_WEEK 0%N |}.

Definition hourOfWeek (date : Z) : nat :=
  Z.to_nat (Date.getUTCDay date * 24 + Date.getUTCHours date).

(** [s.split(sep)] for a one-character separator. *)
Fixpoint split (sep : Ascii.ascii) (s : string) : list string :=
  match s with
  | EmptyString => [EmptyString]
  | String c rest =>
      if Ascii.eqb c sep then EmptyString :: split sep rest
      else
        match split sep rest with
        | [] => [String c EmptyString]
        | piece :: pieces => String c piece :: pieces
        end
  end.

Definition getSegmentTag (tags : list string) : option string :=
  match List.find (String.prefix SEGMENT_TAG_PREFIX) tags with
  | Some tag => split "="%char tag !! 1%nat
  | None => None
  end.

(** [histogram.sends[hour] += 1], and the same for [clicks] on a click. *)
Definition record (hour : nat) (clicked : bool) (h : Histogram) : Histogram :=
  {| sends := alter N.succ hour (sends h);
     clicks := if clicked then alter N.succ hour (clicks h) else clicks h |}.

(** The body of [messages.forEach]; [tagsOf] is the joined
    [message.contact.tags]. *)
Definition addMessage (tagsOf : string → list string) (acc : Histograms) (message : Message)
  : Histograms :=
  match m_sentAt message with
  | None => acc
  | Some sentAt =>
      let hour := hourOfWeek sentAt in
      let clicked := bool_decide (is_Some (m_clickedAt message)) in
      let global' := record hour clicked (global acc) in
      match getSegmentTag (tagsOf (m_contactId message)) with
      | Some segment =>
          if bool_decide (segment = "") then
            {| global := global'; segments := segments acc |}
          else
            let histogram := default createHistogram (segments acc !! segment) in
            {| global := global';
               segments := <[segment := record hour clicked histogram]> (segments acc) |}
      | None => {| global := global'; segments := segments acc |}
      end
  end.

Definition buildHistograms (st : Store) : Histograms :=
  let tagsOf cid := default [] (c_tags <$> contacts st !! cid) in
  foldl (addMessage tagsOf) {| global := createHistogram; segments := ∅ |}
    (filter (λ message, is_Some (m_sentAt message)) (messages st)).

(** [clock] is [Date.now()]. *)
Definition getHistograms (clock : Z) (st : Store) : Histograms * Store :=
  let rebuild :=
    let data := buildHistograms st in
    (data, with_histogramCache (Some (data, clock)) st) in
  match histogramCache st with
  | Some (data, fetchedAt) =>
      if bool_decide (clock - fetchedAt < HISTOGRAM_CACHE_TTL_MS)%Z then (data, st)
      else rebuild
  | None => rebuild
  end.

Definition total (counts : list N) : N := foldl N.add 0%N counts.

Definition ofCount (n : N) : Q := inject_Z (Z.of_N n).

Definition computePrior (histogram : Histogram) : Q :=
  let totalSends := total (sends histogram) in
  let totalClicks := total (clicks histogram) in
  if bool_decide (totalSends = 0%N) then 0.05
  else ofCount totalClicks / ofCount totalSends.

Definition scoreHistogram (hour : nat) (histogram : Histogram) (prior : Q) : Q :=
  let sends_ := default 0%N (sends histogram !! hour) in
  let clicks_ := default 0%N (clicks histogram !! hour) in
  (ofCount clicks_ + SMOOTHING_ALPHA * prior) / (ofCount sends_ + SMOOTHING_ALPHA).

Record BestHour := {
  hour : nat;
  score : number;
  baseline : Q
}.

(** The body of the scan: [if (score > bestScore) { bestHour = hour; bestScore = score }]. *)
Definition pickStep (histogram : Histogram) (prior : Q) (best : nat * number) (hour : nat)
  : nat * number :=
  let score := scoreHistogram hour histogram prior in
  if num_gtb (Finite score) best.2 then (hour, Finite score) else best.

Definition scanHours (histogram : Histogram) (prior : Q) (hours : list nat) : nat * number :=
  foldl (pickStep histogram prior) (0%nat, NegInfinity) hours.

(** The smoothed score of an hour as the scan of [pickBestHour] computes it. *)
Definition scoreAt (histogram : Histogram) (hour : nat) : Q :=
  scoreHistogram hour histogram (computePrior histogram).

(** What the scan has established once the hours below [n] are done. *)
Definition scanned (histogram : Histogram) (n : nat) (best : nat * number) : Prop :=
  match n with
  | O => best = (0, NegInfinity)
  | S _ =>
      best.1 < n ∧ best.2 = Finite (scoreAt histogram best.1) ∧
      (∀ j, j < best.1 → (scoreAt histogram j < scoreAt histogram best.1)%Q) ∧
      (∀ j, best.1 ≤ j < n → (scoreAt histogram j <= scoreAt histogram best.1)%Q)
  end.

Definition pickBestHour (histogram fallback : Histogram) : BestHour :=
  let prior := computePrior histogram in
  let fallbackPrior := computePrior fallback in
  let best := scanHours histogram prior (seq 0 HOURS_PER_WEEK) in
  {| hour := best.1;
     score := best.2;
     baseline := scoreHistogram best.1 fallback fallbackPrior |}.

Record OptimizerRecommendation := {
  recommendedHour : option nat;
  recommendedAt : option Z;
  rec_score : number;
  baselineScore : Q;
  reason : string;
  throttled : bool
}.

Section WithZones.

Variable zones : TimeZones.

(** The [if (timezone)] block: [base] becomes the wall-clock reading of
    [reference] in the zone (year to second, milliseconds zeroed), stored
    in the UTC fields. *)
Definition zonedBase (reference : Z) (timezone : option string) : Completion Z :=
  match timezone with
  | Some tz =>
      if bool_decide (tz = "") then Returned reference
      else
        match zones tz with
        | Some offset => Returned ((reference + offset reference) / 1000 * 1000)%Z
        | None => Threw (RangeError ("Invalid time zone specified: " +:+ tz))
        end
  | None => Returned reference
  end.

Definition nextFrom (base : Z) (hourOfWeekValue : nat) : Z :=
  let utcHour := Z.rem (Z.of_nat hourOfWeekValue) 24 in
  let dayOffset := (Z.of_nat hourOfWeekValue / 24)%Z in
  let result :=
    Date.addUTCDate base (Z.rem (dayOffset - Date.getUTCDay base + 7) 7) in
  let result := Date.setUTCHours result utcHour in
  if bool_decide (result ≤ base)%Z then Date.addUTCDate result 7 else result.

Definition getNextDateForHour (reference : Z) (hourOfWeekValue : nat)
    (timezone : option string) : Completion Z :=
  match zonedBase reference timezone with
  | Returned base => Returned (nextFrom base hourOfWeekValue)
  | Threw e => Threw e
  end.

(** The zone is unset, or a zone that is never behind UTC. *)
Definition notWestOfUTC (timezone : option string) : Prop :=
  match timezone with
  | Some tz => tz = "" ∨ ∃ offset, zones tz = Some offset ∧ ∀ t, (0 ≤ offset t)%Z
  | None => True
  end.

Definition inactiveRecommendation : OptimizerRecommendation :=
  {| recommendedHour := None;
     recommendedAt := None;
     rec_score := Finite 0;
     baselineScore := 0;
     reason := "Contact not active";
     throttled := false |}.

(** Lines 239-266: the rationale, the audit row and the returned value. *)
Definition conclude (contactId : string) (segment : option string) (usedSegment : bool)
    (best : BestHour) (referenceDate at_ : Z) (throttled_ : bool) (st : Store)
  : Completion OptimizerRecommendation * Store :=
  let rationale :=
    match segment with
    | Some sg =>
        if bool_decide (sg = "") then "Global recommendation"
        else "Segment-based recommendation (" +:+ sg +:+ ")"
    | None => "Global recommendation"
    end in
  let rationale :=
    if throttled_ then rationale +:+ " • throttled 24h cooldown" else rationale in
  let decision :=
    {| d_contactId := contactId;
       d_recommendedHour := hour best;
       d_score := score best;
       d_baselineScore := baseline best;
       d_segment := default "global" segment;
       d_usedSegmentHistogram := usedSegment;
       d_generatedAt := referenceDate;
       d_throttled := throttled_;
       d_recommendedAt := at_ |} in
  (Returned
     {| recommendedHour := Some (hour best);
        recommendedAt := Some at_;
        rec_score := score best;
        baselineScore := baseline best;
        reason := rationale;
        throttled := throttled_ |},
   with_optimizerDecisions (λ l, l ++ [decision]) st).

Definition recommendSendTime (clock : Z) (contactId : string) (referenceDate : Z)
    (st : Store) : Completion OptimizerRecommendation * Store :=
  match contacts st !! contactId with
  | None => (Threw (PlainError "Contact not found"), st)
  | Some contact =>
      if bool_decide (c_status contact ≠ ACTIVE) then (Returned inactiveRecommendation, st)
      else
        let '(histograms, st) := getHistograms clock st in
        let segment := getSegmentTag (c_tags contact) in
        let segmentHistogram :=
          match segment with
          | Some sg => if bool_decide (sg = "") then None else segments histograms !! sg
          | None => None
          end in
        let usedSegment :=
          match segmentHistogram with
          | Some h => existsb (λ value, N.ltb 0 value) (sends h)
          | None => false
          end in
        let histogramToUse :=
          match segmentHistogram with
          | Some h => if usedSegment then h else global histograms
          | None => global histograms
          end in
        let best := pickBestHour histogramToUse (global histograms) in
        match getNextDateForHour referenceDate (hour best) (c_timezone contact) with
        | Threw e => (Threw e, st)
        | Returned at_ =>
            match c_lastMessageSentAt contact with
            | Some lastSent =>
                let earliest := (lastSent + ONE_DAY_MS)%Z in
                let throttled_ := bool_decide (earliest > referenceDate)%Z in
                if bool_decide (at_ < earliest)%Z then
                  match getNextDateForHour earliest (hour best) (c_timezone contact) with
                  | Threw e => (Threw e, st)
                  | Returned at_ =>
                      conclude contactId segment usedSegment best referenceDate at_ throttled_ st
                  end
                else conclude contactId segment usedSegment best referenceDate at_ throttled_ st
            | None => conclude contactId segment usedSegment best referenceDate at_ false st
            end
        end
  end.

End WithZones.

(** [resetOptimizerCache] *)
Definition resetOptimizerCache (st : Store) : Store := with_histogramCache None st.

End Optimizer.

(** * Flow execution engine ([lib/flows.ts]) *)

Module Flows.

Definition SCHEDULE_THRESHOLD_MS : Z := 5 * 60 * 1000.

(** The argument and the outcome of the mail transport [sendEmail]. *)
Record EmailRequest := {
  to : string;
  subject : string;
  html : string;
  email_tags : option (list (string * string))
}.

Definition Transport := EmailRequest → Completion string.

(** A run as [findMany] loads it: the row with its flow, the flow's
    template and the contact, all read at query time. *)
Record LoadedRun := {
  run_id : string;
  run_row : FlowRun;
  run_flow : Flow;
  run_template : Template;
  run_contact : Contact
}.

Record ProcessFlowRunsSummary := {
  evaluated : nat;
  completed : nat;
  rescheduled : nat;
  cancelled : nat;
  failed : nat
}.

Record RunResult := {
  res_completed : bool;
  res_rescheduled : bool;
  res_cancelled : bool
}.

(** [buildTagRecord] of [lib/broadcasts.ts]. *)
Definition buildTagRecord (tags : list string) : option (list (string * string)) :=
  if bool_decide (length tags = 0%nat) then None
  else Some (imap (λ index tag, ("tag_" +:+ pretty (S index), tag)) (take 8 tags)).

(** [new Date(x)] keeps the integral part of a fractional time value. *)
Definition dateOfNumber (x : Q) : Z :=
  if Qle_bool 0 x then Qfloor x else Qceiling x.

Definition jsonField (key : string) (fields : list (string * JsonValue)) : option JsonValue :=
  snd <$> List.find (λ field, String.eqb field.1 key) fields.

Definition extractDelayMinutes (step : FlowStep) (fallback : option Q) : Q :=
  match st_config step with
  | JObject fields =>
      match jsonField "minutes" fields with
      | Some (JNumber value) => value
      | _ => default 0%Q fallback
      end
  | _ => default 0%Q fallback
  end.

Definition extractSegmentId (step : FlowStep) (fallback : option string) : option string :=
  match st_config step with
  | JObject fields =>
      match jsonField "segmentId" fields with
      | Some (JString value) => if bool_decide (value = "") then fallback else Some value
      | _ => fallback
      end
  | _ => fallback
  end.

Definition getNextOrder (current : Z) (steps : list FlowStep) : Z :=
  let candidates :=
    merge_sort Z.le (filter (λ order, current < order)%Z (st_order <$> steps)) in
  match candidates with
  | [] => (current + 1)%Z
  | first :: _ => first
  end.

(** [steps.find((candidate) => candidate.order === pointer)] *)
Definition findStep (steps : list FlowStep) (pointer : Z) : option FlowStep :=
  List.find (λ candidate, bool_decide (st_order candidate = pointer)) steps.

(** [prisma.flowRun.update({ where: { id }, data })] for the four shapes
    of [data] the engine writes. *)
Definition markCompleted (now pointer : Z) (r : FlowRun) : FlowRun :=
  {| r_flowId := r_flowId r; r_contactId := r_contactId r;
     r_status := COMPLETED; r_nextStepOrder := pointer;
     r_scheduledAt := r_scheduledAt r; r_completedAt := Some now;
     r_cancelledReason := r_cancelledReason r |}.

Definition markWaiting (scheduledAt pointer : Z) (r : FlowRun) : FlowRun :=
  {| r_flowId := r_flowId r; r_contactId := r_contactId r;
     r_status := WAITING; r_nextStepOrder := pointer;
     r_scheduledAt := scheduledAt; r_completedAt := r_completedAt r;
     r_cancelledReason := r_cancelledReason r |}.

Definition markCancelled (now : Z) (why : string) (pointer : option Z) (r : FlowRun) : FlowRun :=
  {| r_flowId := r_flowId r; r_contactId := r_contactId r;
     r_status := CANCELLED; r_nextStepOrder := default (r_nextStepOrder r) pointer;
     r_scheduledAt := r_scheduledAt r; r_completedAt := Some now;
     r_cancelledReason := Some why |}.

Definition markFailed (why : string) (r : FlowRun) : FlowRun :=
  {| r_flowId := r_flowId r; r_contactId := r_contactId r;
     r_status := FAILED; r_nextStepOrder := r_nextStepOrder r;
     r_scheduledAt := r_scheduledAt r; r_completedAt := r_completedAt r;
     r_cancelledReason := Some why |}.

Definition updateFlowRun (rid : string) (data : FlowRun → FlowRun) (st : Store) : Store :=
  with_flowRuns (alter data rid) st.

Definition statusName (s : ContactStatus) : string :=
  match s with
  | ACTIVE => "ACTIVE"
  | BOUNCED => "BOUNCED"
  | COMPLAINED => "COMPLAINED"
  | SUPPRESSED => "SUPPRESSED"
  end.

Definition touchLastSent (sentAt : Z) (c : Contact) : Contact :=
  {| c_email := c_email c; c_status := c_status c; c_tags := c_tags c;
     c_timezone := c_timezone c; c_lastEventAt := c_lastEventAt c;
     c_lastMessageSentAt := Some sentAt; c_propensity := c_propensity c;
     c_hygieneRiskLevel := c_hygieneRiskLevel c; c_hygieneScore := c_hygieneScore c |}.

Section WithCollaborators.

Variable zones : TimeZones.
Variable sendEmail : Transport.
(** The reading of the wall clock ([Date.now()], [new Date()]) during the tick. *)
Variable clock : Z.

Definition executeSendStep (run : LoadedRun) (now : Z) (st : Store) : Completion unit * Store :=
  let contact := run_contact run in
  let contactId := r_contactId (run_row run) in
  let flow := run_flow run in
  if bool_decide (c_email contact = "") then
    (Returned tt, updateFlowRun (run_id run) (markCancelled now "Contact missing email" None) st)
  else if bool_decide (c_status contact ≠ ACTIVE) then
    (Returned tt,
     updateFlowRun (run_id run)
       (markCancelled now ("Contact status is " +:+ statusName (c_status contact)) None) st)
  else
    let '(recommendedAt, st) :=
      if f_useOptimizer flow then
        match Optimizer.recommendSendTime zones clock contactId now st with
        | (Returned recommendation, st') => (Optimizer.recommendedAt recommendation, st')
        | (Threw _, st') => (None, st')
        end
      else (None, st) in
    let nextOrder := getNextOrder (r_nextStepOrder (run_row run)) (f_steps flow) in
    let shouldSchedule :=
      match recommendedAt with
      | Some at_ => bool_decide (at_ - now > SCHEDULE_THRESHOLD_MS)%Z
      | None => false
      end in
    match recommendedAt, shouldSchedule with
    | Some at_, true =>
        let message :=
          {| m_contactId := contactId; m_templateId := f_templateId flow;
             m_resendMessageId := None; m_status := SCHEDULED;
             m_scheduledSendAt := Some at_; m_sentAt := None;
             m_flowRunId := Some (run_id run); m_clickedAt := None |} in
        (Returned tt,
         updateFlowRun (run_id run) (markCompleted now nextOrder)
           (with_messages (λ l, l ++ [message]) st))
    | _, _ =>
        match sendEmail {| to := c_email contact;
                           subject := t_subject (run_template run);
                           html := t_html (run_template run);
                           email_tags := buildTagRecord (c_tags contact) |} with
        | Returned resendId =>
            let sentAt := clock in
            let message :=
              {| m_contactId := contactId; m_templateId := f_templateId flow;
                 m_resendMessageId := Some resendId; m_status := SENT;
                 m_scheduledSendAt := None; m_sentAt := Some sentAt;
                 m_flowRunId := Some (run_id run); m_clickedAt := None |} in
            (Returned tt,
             updateFlowRun (run_id run) (markCompleted now nextOrder)
               (with_contacts (alter (touchLastSent sentAt) contactId)
                 (with_messages (λ l, l ++ [message]) st)))
        | Threw error =>
            (Threw error, updateFlowRun (run_id run) (markFailed (error_message error)) st)
        end
    end.

(** The [while (true)] loop of [processSingleRun]; one unit of [fuel] is
    one iteration, and [None] means the fuel ran out before the loop left. *)
Fixpoint walk (fuel : nat) (run : LoadedRun) (now pointer : Z) (st : Store)
  : option (Completion RunResult * Store) :=
  match fuel with
  | O => None
  | S fuel =>
      let steps := f_steps (run_flow run) in
      match findStep steps pointer with
      | None =>
          Some (Returned {| res_completed := true; res_rescheduled := false;
                            res_cancelled := false |},
                updateFlowRun (run_id run) (markCompleted now pointer) st)
      | Some step =>
          match st_type step with
          | DELAY =>
              let minutes := extractDelayMinutes step (f_delayMinutes (run_flow run)) in
              if Qle_bool minutes 0 then walk fuel run now (getNextOrder pointer steps) st
              else
                let scheduledAt := dateOfNumber (inject_Z now + minutes * 60 * 1000) in
                Some (Returned {| res_completed := false; res_rescheduled := true;
                                  res_cancelled := false |},
                      updateFlowRun (run_id run)
                        (markWaiting scheduledAt (getNextOrder pointer steps)) st)
          | SEGMENT_FILTER =>
              let member segmentId :=
                bool_decide ((segmentId, r_contactId (run_row run)) ∈ segmentMemberships st) in
              match extractSegmentId step (f_segmentId (run_flow run)) with
              | Some segmentId =>
                  if bool_decide (segmentId = "") || member segmentId then
                    walk fuel run now (getNextOrder pointer steps) st
                  else
                    Some (Returned {| res_completed := false; res_rescheduled := false;
                                      res_cancelled := true |},
                          updateFlowRun (run_id run)
                            (markCancelled now "Contact no longer in segment" (Some pointer)) st)
              | None => walk fuel run now (getNextOrder pointer steps) st
              end
          | SEND_TEMPLATE =>
              match executeSendStep run now st with
              | (Returned _, st') =>
                  Some (Returned {| res_completed := true; res_rescheduled := false;
                                    res_cancelled := false |}, st')
              | (Threw error, st') => Some (Threw error, st')
              end
          | TRIGGER => walk fuel run now (getNextOrder pointer steps) st
          end
      end
  end.

(** The pointer visits each step order at most once, so one iteration per
    step and one more to leave is enough fuel ([walk_terminates] below). *)
Definition processSingleRun (run : LoadedRun) (now : Z) (st : Store)
  : option (Completion RunResult * Store) :=
  walk (S (length (f_steps (run_flow run)))) run now (r_nextStepOrder (run_row run)) st.

Definition count (b : bool) (n : nat) : nat := if b then S n else n.

(** The body of the [for (const run of runs)] loop with its [try]/[catch]. *)
Definition processRun (now : Z) (run : LoadedRun) (acc : ProcessFlowRunsSummary * Store)
  : option (ProcessFlowRunsSummary * Store) :=
  let '(summary, st) := acc in
  match processSingleRun run now st with
  | None => None
  | Some (Returned result, st') =>
      Some ({| evaluated := evaluated summary;
               completed := count (res_completed result) (completed summary);
               rescheduled := count (res_rescheduled result) (rescheduled summary);
               cancelled := count (res_cancelled result) (cancelled summary);
               failed := failed summary |}, st')
  | Some (Threw error, st') =>
      Some ({| evaluated := evaluated summary;
               completed := completed summary;
               rescheduled := rescheduled summary;
               cancelled := cancelled summary;
               failed := S (failed summary) |},
            updateFlowRun (run_id run) (markFailed (error_message error)) st')
  end.

(** The [findMany] of the tick: due runs, oldest [scheduledAt] first, at
    most [limit], each with its flow (steps by ascending order), template
    and contact. *)
Definition isDue (now : Z) (r : FlowRun) : bool :=
  (bool_decide (r_status r = PENDING) || bool_decide (r_status r = WAITING))
  && bool_decide (r_scheduledAt r ≤ now)%Z.

Definition byOrder (a b : FlowStep) : Prop := (st_order a ≤ st_order b)%Z.
Definition byScheduledAt (a b : string * FlowRun) : Prop :=
  (r_scheduledAt a.2 ≤ r_scheduledAt b.2)%Z.

#[local] Instance byOrder_dec a b : Decision (byOrder a b).
Proof. unfold byOrder. apply _. Defined.
#[local] Instance byScheduledAt_dec a b : Decision (byScheduledAt a b).
Proof. unfold byScheduledAt. apply _. Defined.

Definition loadRun (st : Store) (entry : string * FlowRun) : option LoadedRun :=
  flow ← flows st !! r_flowId entry.2;
  template ← templates st !! f_templateId flow;
  contact ← contacts st !! r_contactId entry.2;
  Some {| run_id := entry.1;
          run_row := entry.2;
          run_flow :=
            {| f_status := f_status flow; f_triggerEventName := f_triggerEventName flow;
               f_delayMinutes := f_delayMinutes flow; f_useOptimizer := f_useOptimizer flow;
               f_segmentId := f_segmentId flow; f_templateId := f_templateId flow;
               f_steps :=
                 merge_sort byOrder (f_steps flow) |};
          run_template := template;
          run_contact := contact |}.

Definition dueRuns (now : Z) (limit : nat) (st : Store) : list LoadedRun :=
  omap (loadRun st)
    (take limit
      (merge_sort byScheduledAt
        (filter (λ entry, isDue now entry.2) (map_to_list (flowRuns st))))).

Record ProcessFlowRunsOptions := {
  opt_now : option Z;
  opt_limit : option nat
}.

Definition processDueFlowRuns (options : ProcessFlowRunsOptions) (st : Store)
  : option (ProcessFlowRunsSummary * Store) :=
  let now := default clock (opt_now options) in
  let limit := default 20%nat (opt_limit options) in
  let runs := dueRuns now limit st in
  foldl (λ acc run, acc ≫= processRun now run)
    (Some ({| evaluated := length runs; completed := 0; rescheduled := 0;
              cancelled := 0; failed := 0 |}, st))
    runs.

End WithCollaborators.

End Flows.

(** * Concrete scenarios

    Inputs the properties below are evaluated on. *)

Module Scenarios.
Import Hygiene.

Definition syntheticComplainer : HygieneComputationInput :=
  {| i_id := "contact-2"; i_status := COMPLAINED; i_tags := ["demo"; "synthetic"];
     i_lastEventAt := Some 0%Z; i_lastMessageSentAt := None;
     i_propensity := Some 0.5%Q; i_suppressions := [] |}.

Definition staleContact : HygieneComputationInput :=
  {| i_id := "contact-3"; i_status := ACTIVE; i_tags := [];
     i_lastEventAt := Some 0%Z; i_lastMessageSentAt := Some 0%Z;
     i_propensity := Some 0.05%Q; i_suppressions := [] |}.

Definition plainContact (status : ContactStatus) (tags : list string) : Contact :=
  {| c_email := "demo@resend.dev"; c_status := status; c_tags := tags;
     c_timezone := None; c_lastEventAt := None; c_lastMessageSentAt := None;
     c_propensity := None; c_hygieneRiskLevel := None; c_hygieneScore := None |}.

(** A bounced contact, an already suppressed one and a healthy one. *)
Definition sweepStore : Store :=
  with_contacts (λ _,
    <["c-bounced" := plainContact BOUNCED []]>
      (<["c-suppressed" := plainContact SUPPRESSED []]>
        (<["c-active" := plainContact ACTIVE ["segment=vip"]]> ∅)))
    emptyStore.

(** One send in hour 0, two in hour 1, no click anywhere. *)
Definition twoBusyHours : Histogram :=
  {| sends := <[0 := 1%N]> (<[1 := 2%N]> (sends Optimizer.createHistogram));
     clicks := clicks Optimizer.createHistogram |}.

(** "Etc/GMT+8" is eight hours behind UTC all year, "Etc/GMT-2" two hours
    ahead; every other name is rejected. *)
Definition fixedZones : TimeZones :=
  λ tz,
    if String.eqb tz "UTC" then Some (λ _, 0%Z)
    else if String.eqb tz "Etc/GMT+8" then Some (λ _, (-8 * msPerHour)%Z)
    else if String.eqb tz "Etc/GMT-2" then Some (λ _, (2 * msPerHour)%Z)
    else None.

(** Saturday 2024-01-06 05:00:00 UTC. *)
Definition lastSend : Z := 1704517200000.

(** An active contact in "Etc/GMT+8", last mailed at [lastSend]; no
    message has been recorded, so every histogram is empty. *)
Definition westStore : Store :=
  with_contacts (λ _,
    <["c-west" :=
        {| c_email := "west@resend.dev"; c_status := ACTIVE; c_tags := [];
           c_timezone := Some "Etc/GMT+8"; c_lastEventAt := None;
           c_lastMessageSentAt := Some lastSend; c_propensity := None;
           c_hygieneRiskLevel := None; c_hygieneScore := None |}]>
      (<["c-utc" :=
          {| c_email := "utc@resend.dev"; c_status := ACTIVE; c_tags := [];
             c_timezone := None; c_lastEventAt := None;
             c_lastMessageSentAt := Some lastSend; c_propensity := None;
             c_hygieneRiskLevel := None; c_hygieneScore := None |}]> ∅))
    emptyStore.

Definition sweepDefaults : HygieneSweepOptions :=
  {| suppressHighRisk := None; limit := None; now := None |}.

End Scenarios.

(** * Notions used to state further properties *)

Module Views.
Import Flows.

(** The statuses a run never leaves. *)
Definition terminal (s : FlowRunStatus) : Prop :=
  s = COMPLETED ∨ s = CANCELLED ∨ s = FAILED.

(** Runs a summary accounts for. *)
Definition tallied (s : ProcessFlowRunsSummary) : nat :=
  completed s + rescheduled s + cancelled s + failed s.

(** Everything but the optimizer's cache and audit log is the same. *)
Definition sameTables (a b : Store) : Prop :=
  contacts a = contacts b ∧ suppressions a = suppressions b ∧
  hygieneEvaluations a = hygieneEvaluations b ∧ messages a = messages b ∧
  flows a = flows b ∧ templates a = templates b ∧ flowRuns a = flowRuns b ∧
  segmentMemberships a = segmentMemberships b.

(** The request, and the two message rows, a send step builds for a run. *)
Definition emailFor (run : LoadedRun) : EmailRequest :=
  {| to := c_email (run_contact run);
     subject := t_subject (run_template run);
     html := t_html (run_template run);
     email_tags := buildTagRecord (c_tags (run_contact run)) |}.

Definition scheduledMessage (run : LoadedRun) (at_ : Z) : Message :=
  {| m_contactId := r_contactId (run_row run); m_templateId := f_templateId (run_flow run);
     m_resendMessageId := None; m_status := SCHEDULED;
     m_scheduledSendAt := Some at_; m_sentAt := None;
     m_flowRunId := Some (run_id run); m_clickedAt := None |}.

Definition sentMessage (run : LoadedRun) (resendId : string) (sentAt : Z) : Message :=
  {| m_contactId := r_contactId (run_row run); m_templateId := f_templateId (run_flow run);
     m_resendMessageId := Some resendId; m_status := SENT;
     m_scheduledSendAt := None; m_sentAt := Some sentAt;
     m_flowRunId := Some (run_id run); m_clickedAt := None |}.



(** The order a send step advances the run to. *)
Definition afterSend (run : LoadedRun) : Z :=
  getNextOrder (r_nextStepOrder (run_row run)) (f_steps (run_flow run)).

(** Whether a character occurs in a string. *)
Fixpoint hasChar (c : Ascii.ascii) (s : string) : bool :=
  match s with
  | EmptyString => false
  | String c' rest => Ascii.eqb c' c || hasChar c rest
  end.

(** A histogram as [buildHistograms] makes them: 168 buckets, and in no
    bucket more clicks than sends. *)
Definition wellFormed (h : Histogram) : Prop :=
  length (sends h) = Optimizer.HOURS_PER_WEEK ∧
  length (clicks h) = Optimizer.HOURS_PER_WEEK ∧
  ∀ hour, (default 0 (clicks h !! hour) ≤ default 0 (sends h !! hour))%N.

(** Messages that were sent, and those among them that were clicked. *)
Definition sentMessages (st : Store) : list Message :=
  filter (λ message, is_Some (m_sentAt message)) (messages st).

Definition clickedMessages (st : Store) : list Message :=
  filter (λ message, is_Some (m_clickedAt message)) (sentMessages st).

(** Histograms that account for [sent] sends, [clicked] of them clicked. *)
Definition tallies (hs : Histograms) (sent clicked : N) : Prop :=
  wellFormed (global hs) ∧
  Optimizer.total (sends (global hs)) = sent ∧
  Optimizer.total (clicks (global hs)) = clicked ∧
  ∀ segment h, segments hs !! segment = Some h →
    segment ≠ "" ∧ wellFormed h ∧
    (1 ≤ Optimizer.total (sends h) ≤ sent)%N.

(** Nothing but the run table differs. *)
Definition onlyRunsDiffer (a b : Store) : Prop :=
  contacts a = contacts b ∧ suppressions a = suppressions b ∧
  hygieneEvaluations a = hygieneEvaluations b ∧ messages a = messages b ∧
  optimizerDecisions a = optimizerDecisions b ∧ histogramCache a = histogramCache b ∧
  flows a = flows b ∧ templates a = templates b ∧
  segmentMemberships a = segmentMemberships b.

(** Two versions of a contact that differ at most in the last-send time. *)
Definition sameButLastSent (a b : Contact) : Prop :=
  c_email a = c_email b ∧ c_status a = c_status b ∧ c_tags a = c_tags b ∧
  c_timezone a = c_timezone b ∧ c_lastEventAt a = c_lastEventAt b ∧
  c_propensity a = c_propensity b ∧ c_hygieneRiskLevel a = c_hygieneRiskLevel b ∧
  c_hygieneScore a = c_hygieneScore b.

Definition contactsKept (a b : Store) : Prop :=
  ∀ cid, option_Forall2 sameButLastSent (contacts a !! cid) (contacts b !! cid).

(** The flags of a [RunResult] as the number of counters they bump. *)
Definition flags (r : RunResult) : nat :=
  count (res_completed r) (count (res_rescheduled r) (count (res_cancelled r) 0)).

(** What processing one run may change: its own row, at most one new
    message tied to it, last-send times, the optimizer's cache and log. *)
Definition footprint (run : LoadedRun) (a b : Store) (new : list Message) : Prop :=
  (∃ f, flowRuns b = alter f (run_id run) (flowRuns a)) ∧
  messages b = messages a ++ new ∧
  (∀ m, m ∈ new → m_flowRunId m = Some (run_id run) ∧
                  m_contactId m = r_contactId (run_row run)) ∧
  contactsKept a b ∧
  flows b = flows a ∧ templates b = templates a ∧
  segmentMemberships b = segmentMemberships a ∧ suppressions b = suppressions a ∧
  hygieneEvaluations b = hygieneEvaluations a.

(** The evaluation row a sweep writes for a selected contact. *)
Definition evaluates (options : Hygiene.HygieneSweepOptions) (now_ : Z)
    (c : Hygiene.SweepContact) (e : HygieneEvaluation) : Prop :=
  e_contactId e = Hygiene.sc_id c ∧
  e_riskLevel e = Hygiene.riskLevel (Hygiene.scoreContact c now_) ∧
  e_score e = Hygiene.score (Hygiene.scoreContact c now_) ∧
  e_reasons e = Hygiene.reasons (Hygiene.scoreContact c now_) ∧
  e_suppressed e =
    Hygiene.shouldApplySuppression options c (Hygiene.scoreContact c now_).

End Views.

(** * Defining and triggering flows ([lib/flows.ts], lines 59-199) *)

Module FlowSetup.
Import Flows.

#[global] Instance FlowStatus_eq_dec : EqDecision FlowStatus.
Proof. solve_decision. Defined.
#[global] Instance stepOrder_dec a b : Decision (byOrder a b).
Proof. unfold byOrder. apply _. Defined.

Record CreateFlowInput := {
  in_name : string;
  in_triggerEventName : string;
  in_templateId : string;
  in_delayMinutes : option Q;
  in_segmentId : option string;
  in_useOptimizer : option bool
}.

(** [steps.push({ order, type, config }); order += 1] on the pair of the
    array and the counter. *)
Definition pushStep (type : FlowStepType) (config : JsonValue) (acc : list FlowStep * Z)
  : list FlowStep * Z :=
  (acc.1 ++ [{| st_order := acc.2; st_type := type; st_config := config |}], (acc.2 + 1)%Z).

(** The [steps] array [createFlowDefinition] builds (lines 60-76). *)
Definition plannedSteps (input : CreateFlowInput) : list FlowStep :=
  let acc :=
    pushStep TRIGGER (JObject [("eventName", JString (in_triggerEventName input))]) ([], 1%Z) in
  let acc :=
    match in_delayMinutes input with
    | Some minutes =>
        if Qgtb minutes 0 then pushStep DELAY (JObject [("minutes", JNumber minutes)]) acc
        else acc
    | None => acc
    end in
  let acc :=
    match in_segmentId input with
    | Some segmentId =>
        if bool_decide (segmentId = "") then acc
        else pushStep SEGMENT_FILTER (JObject [("segmentId", JString segmentId)]) acc
    | None => acc
    end in
  (pushStep SEND_TEMPLATE (JObject [("templateId", JString (in_templateId input))]) acc).1.

(** The row [createFlowDefinition] asks the store to create (lines 78-88);
    the name is not a column the engine reads and is left out of [Flow]. *)
Definition plannedFlow (input : CreateFlowInput) : Flow :=
  {| f_status := DRAFT;
     f_triggerEventName := in_triggerEventName input;
     f_delayMinutes := in_delayMinutes input;
     f_useOptimizer := default true (in_useOptimizer input);
     f_segmentId := in_segmentId input;
     f_templateId := in_templateId input;
     f_steps := plannedSteps input |}.

Record TriggerFlowEventInput := {
  ev_contactId : string;
  ev_eventName : string;
  ev_occurredAt : option Z
}.

Record TriggerFlowSummary := {
  createdRuns : nat;
  skippedFlows : nat
}.

(** [flow.steps.find((step) => step.type !== FlowStepType.TRIGGER)] *)
Definition firstAction (steps : list FlowStep) : option FlowStep :=
  List.find (λ step, bool_decide (st_type step ≠ TRIGGER)) steps.

(** The flows the trigger query selects, with their steps by ascending order. *)
Definition matchingFlows (eventName : string) (st : Store) : list (string * list FlowStep) :=
  (λ entry, (entry.1, merge_sort byOrder (f_steps entry.2))) <$>
    filter (λ entry : string * Flow,
              f_status entry.2 = FLOW_ACTIVE ∧ f_triggerEventName entry.2 = eventName)
      (map_to_list (flows st)).

Section Trigger.

(** The id the store gives a new run, given the runs it holds. *)
Variable newRunId : gmap string FlowRun → string.

Definition createRun (flowId contactId : string) (pointer now : Z) (st : Store) : Store :=
  with_flowRuns
    (λ runs,
       <[newRunId runs :=
           {| r_flowId := flowId; r_contactId := contactId; r_status := PENDING;
              r_nextStepOrder := pointer; r_scheduledAt := now;
              r_completedAt := None; r_cancelledReason := None |}]> runs) st.

(** The body of the [for (const flow of flows)] loop. *)
Definition triggerFlow (contactId : string) (now : Z)
    (acc : TriggerFlowSummary * Store) (flow : string * list FlowStep)
  : TriggerFlowSummary * Store :=
  match firstAction flow.2 with
  | None =>
      ({| createdRuns := createdRuns acc.1; skippedFlows := S (skippedFlows acc.1) |}, acc.2)
  | Some step =>
      ({| createdRuns := S (createdRuns acc.1); skippedFlows := skippedFlows acc.1 |},
       createRun flow.1 contactId (st_order step) now acc.2)
  end.

(** [clock] is [new Date()], used when the event carries no [occurredAt]. *)
Definition triggerFlowsForEvent (clock : Z) (input : TriggerFlowEventInput) (st : Store)
  : TriggerFlowSummary * Store :=
  let now := default clock (ev_occurredAt input) in
  let nothing := ({| createdRuns := 0; skippedFlows := 0 |}, st) in
  match contacts st !! ev_contactId input with
  | None => nothing
  | Some contact =>
      if bool_decide (c_email contact = "") || bool_decide (c_status contact ≠ ACTIVE)
      then nothing
      else foldl (triggerFlow (ev_contactId input) now) nothing
             (matchingFlows (ev_eventName input) st)
  end.

End Trigger.

End FlowSetup.

(** * Recipient selection of broadcasts ([lib/broadcasts.ts], lines 10-39) *)

Module Broadcasts.

Record ContactSnapshot := {
  cs_id : string;
  cs_email : option string;
  cs_status : ContactStatus;
  cs_tags : list string
}.

Record ContactPartition := {
  sendable : list ContactSnapshot;
  skipped : list ContactSnapshot
}.

Definition SEND_EXCLUDED_STATUSES : list ContactStatus := [SUPPRESSED; COMPLAINED].

(** [!contact.email]: [null] and the empty string are both falsy. *)
Definition noEmail (contact : ContactSnapshot) : bool :=
  match cs_email contact with
  | None => true
  | Some email => bool_decide (email = "")
  end.

(** The reducer: [push] onto one of the two arrays of the accumulator. *)
Definition partitionStep (acc : ContactPartition) (contact : ContactSnapshot)
  : ContactPartition :=
  if noEmail contact || bool_decide (cs_status contact ∈ SEND_EXCLUDED_STATUSES) then
    {| sendable := sendable acc; skipped := skipped acc ++ [contact] |}
  else
    {| sendable := sendable acc ++ [contact]; skipped := skipped acc |}.

Definition partitionContactsByEligibility (contacts : list ContactSnapshot)
  : ContactPartition :=
  foldl partitionStep {| sendable := []; skipped := [] |} contacts.

(** A contact a broadcast may be sent to. *)
Definition eligible (contact : ContactSnapshot) : Prop :=
  (∃ email, cs_email contact = Some email ∧ email ≠ "") ∧
  cs_status contact ≠ SUPPRESSED ∧ cs_status contact ≠ COMPLAINED.

#[global] Instance eligible_dec contact : Decision (eligible contact).
Proof.
  unfold eligible. destruct (cs_email contact) as [email |].
  - destruct (decide (email = "")) as [-> | Hne].
    + right. intros [(e & [= <-] & He) _]. done.
    + destruct (decide (cs_status contact ≠ SUPPRESSED ∧ cs_status contact ≠ COMPLAINED)).
      * left. split; [eauto | done].
      * right. intros [_ H]. done.
  - right. intros [(e & [=] & _) _].
Defined.

End Broadcasts.

(** * Further scenarios *)

Module Samples.
Import Flows Scenarios.

Definition okTransport : Transport := λ _, Returned "resend-123".

Definition stepOf (order : Z) (type : FlowStepType) (config : JsonValue) : FlowStep :=
  {| st_order := order; st_type := type; st_config := config |}.

(** Trigger, then send; no optimizer. *)
Definition welcomeFlow : Flow :=
  {| f_status := FLOW_ACTIVE; f_triggerEventName := "user.signup";
     f_delayMinutes := None; f_useOptimizer := false; f_segmentId := None;
     f_templateId := "template-2";
     f_steps :=
       [stepOf 1 TRIGGER (JObject [("eventName", JString "user.signup")]);
        stepOf 2 SEND_TEMPLATE (JObject [("templateId", JString "template-2")])] |}.

(** Trigger, segment filter, send. *)
Definition segmentedFlow : Flow :=
  {| f_status := FLOW_ACTIVE; f_triggerEventName := "user.signup";
     f_delayMinutes := None; f_useOptimizer := false; f_segmentId := Some "segment-1";
     f_templateId := "template-2";
     f_steps :=
       [stepOf 1 TRIGGER (JObject [("eventName", JString "user.signup")]);
        stepOf 2 SEGMENT_FILTER (JObject [("segmentId", JString "segment-1")]);
        stepOf 3 SEND_TEMPLATE (JObject [("templateId", JString "template-2")])] |}.

Definition runOf (flowId contactId : string) (status : FlowRunStatus) (pointer scheduledAt : Z)
  : FlowRun :=
  {| r_flowId := flowId; r_contactId := contactId; r_status := status;
     r_nextStepOrder := pointer; r_scheduledAt := scheduledAt;
     r_completedAt := None; r_cancelledReason := None |}.

(** Two contacts, two flows, and runs that are due, finished, or not yet due. *)
Definition engineStore : Store :=
  {| contacts :=
       <["contact-1" := plainContact ACTIVE ["signup"]]>
         (<["contact-2" := plainContact BOUNCED []]> ∅);
     suppressions := []; hygieneEvaluations := []; messages := [];
     optimizerDecisions := []; histogramCache := None;
     flows := <["flow-2" := welcomeFlow]> (<["flow-3" := segmentedFlow]> ∅);
     templates := <["template-2" := {| t_subject := "Welcome!"; t_html := "<p>Hello</p>" |}]> ∅;
     flowRuns :=
       <["run-send" := runOf "flow-2" "contact-1" PENDING 2 0]>
         (<["run-bounced" := runOf "flow-2" "contact-2" PENDING 2 5]>
           (<["run-segment" := runOf "flow-3" "contact-1" PENDING 2 7]>
             (<["run-old" := runOf "flow-2" "contact-1" COMPLETED 3 0]>
               (<["run-later" := runOf "flow-2" "contact-1" WAITING 2 900000]> ∅))));
     segmentMemberships := [("segment-9", "contact-1")] |}.






(** An id no run has yet. *)
Definition unusedRunId (runs : gmap string FlowRun) : string := fresh (dom runs).

Definition signup (contactId : string) : FlowSetup.TriggerFlowEventInput :=
  {| FlowSetup.ev_contactId := contactId; FlowSetup.ev_eventName := "user.signup";
     FlowSetup.ev_occurredAt := Some 50%Z |}.

Definition tickAt (now : Z) : ProcessFlowRunsOptions :=
  {| opt_now := Some now; opt_limit := None |}.

End Samples.

(** * Properties of the hygiene scorer *)

Module HygieneFacts.
Import Hygiene Scenarios.

Lemma statusVerdict_high st : v_riskLevel (statusVerdict st) = HIGH ↔ excluded st.
Proof. unfold excluded. destruct st; simpl; intuition (discriminate || auto). Qed.

Lemma computeHygieneScore_excluded input now :
  excluded (i_status input) →
  riskLevel (computeHygieneScore input now) = HIGH.
Proof.
  unfold excluded, computeHygieneScore, safeguard.
  intros [H | [H | H]]; rewrite H; simpl;
    destruct (bool_decide ("synthetic" ∈ i_tags input)); reflexivity.
Qed.

Ltac verdict_cases v H :=
  destruct v as [risk sc rs sup]; unfold belowHigh in *; simpl in *;
  destruct H as [-> [[-> ->] | [-> [-> | [-> | ->]]]]]; vm_compute; auto 10.

Lemma staleSend_belowHigh d v : belowHigh v → belowHigh (staleSend d v).
Proof.
  intros H. unfold staleSend. destruct (num_gtb d _); [| done]. verdict_cases v H.
Qed.

Lemma staleEvent_belowHigh d v : belowHigh v → belowHigh (staleEvent d v).
Proof.
  intros H. unfold staleEvent. destruct (num_gtb d _); [| done]. verdict_cases v H.
Qed.

Lemma lowPropensity_belowHigh p v : belowHigh v → belowHigh (lowPropensity p v).
Proof.
  intros H. unfold lowPropensity. destruct (_ && _); [| done]. verdict_cases v H.
Qed.

Lemma healthy_belowHigh p d v :
  belowHigh v →
  let v' := healthy p d v in
  (v_riskLevel v' = LOW ∨ v_riskLevel v' = MEDIUM) ∧
  (v_score v' = 20 ∨ v_score v' = 25 ∨ v_score v' = 50 ∨ v_score v' = 55 ∨ v_score v' = 65)%Q ∧
  v_shouldSuppress v' = false.
Proof.
  intros H. cbv zeta. unfold healthy.
  destruct (_ && _ && _).
  - verdict_cases v H.
  - destruct H as [-> [[-> ->] | [-> [-> | [-> | ->]]]]]; auto 10.
Qed.

(** The checks of lines 76-99, started from LOW/20, end in LOW or MEDIUM
    with one of five scores. *)
Lemma checks_active p dE dS :
  let v := healthy p dE (lowPropensity p (staleEvent dE (staleSend dS (statusVerdict ACTIVE)))) in
  (v_riskLevel v = LOW ∨ v_riskLevel v = MEDIUM) ∧
  (v_score v = 20 ∨ v_score v = 25 ∨ v_score v = 50 ∨ v_score v = 55 ∨ v_score v = 65)%Q ∧
  v_shouldSuppress v = false.
Proof.
  apply healthy_belowHigh, lowPropensity_belowHigh, staleEvent_belowHigh, staleSend_belowHigh.
  unfold belowHigh. simpl. auto.
Qed.

(** C6: a contact tagged "synthetic" whose status is COMPLAINED scores
    HIGH with score 98, is not to be suppressed, and its reasons are
    "Complaint reported" followed by "Synthetic contact safeguard". *)
Theorem synthetic_complained_safeguard input now :
  "synthetic" ∈ i_tags input →
  i_status input = COMPLAINED →
  let r := computeHygieneScore input now in
  riskLevel r = HIGH ∧ score r = 98%Q ∧ shouldSuppress r = false ∧
  reasons r = ["Complaint reported"; "Synthetic contact safeguard"].
Proof.
  intros Htag Hst. unfold computeHygieneScore, safeguard. rewrite Hst. simpl.
  rewrite (bool_decide_eq_true_2 _ Htag). simpl. done.
Qed.

Lemma synthetic_complained_safeguard_witness :
  let r := computeHygieneScore syntheticComplainer 1000 in
  riskLevel r = HIGH ∧ score r = 98%Q ∧ shouldSuppress r = false ∧
  reasons r = ["Complaint reported"; "Synthetic contact safeguard"].
Proof.
  apply (synthetic_complained_safeguard syntheticComplainer 1000).
  - simpl. set_solver.
  - reflexivity.
Defined.

Lemma computeHygieneScore_active input now :
  i_status input = ACTIVE →
  let r := computeHygieneScore input now in
  (riskLevel r = LOW ∨ riskLevel r = MEDIUM) ∧
  (score r = 20 ∨ score r = 25 ∨ score r = 50 ∨ score r = 55 ∨ score r = 65)%Q.
Proof.
  intros Hst. unfold computeHygieneScore. rewrite Hst.
  rewrite bool_decide_eq_true_2 by done.
  pose proof (checks_active (default 0%Q (i_propensity input))
                (daysSince now (i_lastEventAt input))
                (daysSince now (i_lastMessageSentAt input))) as (Hr & Hs & _).
  cbv zeta in Hr, Hs.
  set (v := healthy _ _ _) in *.
  unfold safeguard. cbv zeta.
  destruct Hr as [Hr | Hr]; rewrite Hr; simpl; rewrite ?Hr; auto.
Qed.

Lemma computeHygieneScore_high_iff input now :
  riskLevel (computeHygieneScore input now) = HIGH ↔ excluded (i_status input).
Proof.
  split; [| apply computeHygieneScore_excluded].
  intros Hhigh. destruct (i_status input) eqn:Hst; unfold excluded; auto.
  destruct (computeHygieneScore_active input now Hst) as [[Hr | Hr] _];
    cbv zeta in Hr; congruence.
Qed.

(** C9: the risk level is HIGH exactly for the statuses BOUNCED, COMPLAINED
    and SUPPRESSED; for any other status the checks end in LOW or MEDIUM and
    the score is one of 20, 25, 50, 55, 65, hence within [0, 100]. *)
Theorem risk_high_iff_excluded input now :
  let r := computeHygieneScore input now in
  (riskLevel r = HIGH ↔ excluded (i_status input)) ∧
  (¬ excluded (i_status input) →
     (riskLevel r = LOW ∨ riskLevel r = MEDIUM) ∧
     (score r = 20 ∨ score r = 25 ∨ score r = 50 ∨ score r = 55 ∨ score r = 65)%Q ∧
     (0 <= score r <= 100)%Q).
Proof.
  cbv zeta. split; [apply computeHygieneScore_high_iff |].
  intros Hne.
  assert (Hst : i_status input = ACTIVE).
  { destruct (i_status input); unfold excluded in Hne; intuition. }
  destruct (computeHygieneScore_active input now Hst) as [Hr Hs]. cbv zeta in Hr, Hs.
  split; [exact Hr |]. split; [exact Hs |].
  destruct Hs as [-> | [-> | [-> | [-> | ->]]]]; split; discriminate.
Qed.

Lemma risk_high_iff_excluded_witness :
  let r := computeHygieneScore staleContact (91 * msPerDay) in
  (riskLevel r = HIGH ↔ excluded ACTIVE) ∧
  (¬ excluded ACTIVE →
     (riskLevel r = LOW ∨ riskLevel r = MEDIUM) ∧
     (score r = 20 ∨ score r = 25 ∨ score r = 50 ∨ score r = 55 ∨ score r = 65)%Q ∧
     (0 <= score r <= 100)%Q).
Proof. apply (risk_high_iff_excluded staleContact (91 * msPerDay)). Defined.

End HygieneFacts.

(** * Properties of the hygiene sweep *)

Lemma filter_none {A} (P : A → Prop) `{∀ x, Decision (P x)} (l : list A) :
  (∀ x, x ∈ l → ¬ P x) → filter P l = [].
Proof.
  induction l as [| x l IH]; intros Hno; [done |].
  rewrite filter_cons, decide_False.
  - apply IH. intros y Hy. apply Hno. by right.
  - apply Hno. by left.
Qed.

Lemma filter_ext_in {A} (P Q : A → Prop) `{∀ x, Decision (P x)} `{∀ x, Decision (Q x)}
    (l : list A) :
  (∀ x, x ∈ l → P x ↔ Q x) → filter P l = filter Q l.
Proof.
  induction l as [| x l IH]; intros Hiff; [done |].
  rewrite !filter_cons.
  assert (Hx : P x ↔ Q x) by (apply Hiff; by left).
  rewrite IH by (intros y Hy; apply Hiff; by right).
  destruct (decide (P x)), (decide (Q x)); tauto.
Qed.

Lemma filter_some {A} (P : A → Prop) `{∀ x, Decision (P x)} (l : list A) x :
  x ∈ l → P x → 0 < length (filter P l).
Proof.
  intros Hin HP.
  assert (Hx : x ∈ filter P l) by (apply list_elem_of_filter; done).
  destruct (filter P l); [by apply elem_of_nil in Hx | simpl; lia].
Qed.

Lemma omap_cons_eq {A B} (f : A → option B) (x : A) (l : list A) :
  omap f (x :: l) = match f x with Some y => y :: omap f l | None => omap f l end.
Proof. reflexivity. Qed.

Module SweepFacts.
Import Hygiene HygieneFacts Scenarios.

Section OneSweep.

Variable options : HygieneSweepOptions.
Variable now : Z.

Lemma sweepContact_suppressionRows acc c :
  a_suppressionRows (sweepContact options now acc c) =
  a_suppressionRows acc ++
    (if creates options now c then [hygieneSuppressionRow (sc_id c)] else []).
Proof.
  unfold sweepContact, creates. cbn [a_suppressionRows].
  destruct (_ && _); [done | by rewrite app_nil_r].
Qed.

Lemma sweepContact_contactUpdates acc c :
  a_contactUpdates (sweepContact options now acc c) =
  a_contactUpdates acc ++ option_list (updateOf options now c).
Proof.
  unfold sweepContact, updateOf, transitions. cbn [a_contactUpdates].
  destruct (_ || _); [done | by rewrite app_nil_r].
Qed.

Lemma sweepContact_counts acc c :
  a_suppressionsCreated (sweepContact options now acc c) =
    a_suppressionsCreated acc + (if creates options now c then 1 else 0) ∧
  a_contactsSuppressed (sweepContact options now acc c) =
    a_contactsSuppressed acc + (if transitions options now c then 1 else 0).
Proof.
  unfold sweepContact, creates, transitions.
  cbn [a_suppressionsCreated a_contactsSuppressed].
  split; destruct (_ && _); lia.
Qed.

Lemma sweepContact_fold sel : ∀ acc,
  let acc' := foldl (sweepContact options now) acc sel in
  a_suppressionRows acc' =
    a_suppressionRows acc ++ (hygieneSuppressionRow ∘ sc_id <$> filter (creates options now) sel) ∧
  a_contactUpdates acc' = a_contactUpdates acc ++ omap (updateOf options now) sel ∧
  a_suppressionsCreated acc' =
    a_suppressionsCreated acc + length (filter (creates options now) sel) ∧
  a_contactsSuppressed acc' =
    a_contactsSuppressed acc + length (filter (transitions options now) sel).
Proof.
  induction sel as [| c sel IH]; intros acc; cbv zeta.
  - cbn [foldl filter list_filter omap list_omap fmap list_fmap length].
    rewrite !app_nil_r. repeat split; lia.
  - cbn [foldl]. destruct (IH (sweepContact options now acc c)) as (H1 & H2 & H3 & H4).
    rewrite H1, H2, H3, H4. clear IH H1 H2 H3 H4.
    rewrite sweepContact_suppressionRows, sweepContact_contactUpdates.
    destruct (sweepContact_counts acc c) as [-> ->].
    rewrite !filter_cons, omap_cons_eq, <- !app_assoc.
    destruct (creates options now c), (transitions options now c),
      (updateOf options now c);
      rewrite ?(decide_True (P := Is_true true)), ?(decide_False (P := Is_true false))
        by (exact I || exact id);
      cbn [option_list app fmap list_fmap length compose];
      repeat split; lia.
Qed.

End OneSweep.

Lemma runHygieneSweep_effect clock options st :
  let now_ := default clock (now options) in
  let sel := findContacts (limit options) st in
  let out := runHygieneSweep clock options st in
  suppressions out.2 =
    suppressions st ++ (hygieneSuppressionRow ∘ sc_id <$> filter (creates options now_) sel) ∧
  contacts out.2 = applyContactUpdates (omap (updateOf options now_) sel) (contacts st) ∧
  suppressionsCreated out.1 = length (filter (creates options now_) sel) ∧
  contactsSuppressed out.1 = length (filter (transitions options now_) sel).
Proof.
  cbv zeta. unfold runHygieneSweep.
  case_bool_decide as Hlen.
  - apply nil_length_inv in Hlen. rewrite Hlen. simpl.
    rewrite app_nil_r. done.
  - pose proof (sweepContact_fold options (default clock (now options))
                  (findContacts (limit options) st) emptyAcc) as (H1 & H2 & H3 & H4).
    cbv zeta in H1, H2, H3, H4.
    cbn [fst snd commitSweep with_suppressions with_contacts with_hygieneEvaluations
         suppressions contacts suppressionsCreated contactsSuppressed].
    rewrite H1, H2, H3, H4. done.
Qed.

Lemma findContacts_ids_NoDup lim st : NoDup (sc_id <$> findContacts lim st).
Proof.
  unfold findContacts.
  assert (Hall : NoDup (sc_id <$>
    ((λ '(cid, row), {| sc_id := cid; sc_row := row;
        sc_suppressions := filter (λ entry, s_contactId entry = cid) (suppressions st) |})
     <$> map_to_list (contacts st)))).
  { rewrite <- list_fmap_compose.
    rewrite (list_fmap_ext _ fst (map_to_list (contacts st)) ).
    - apply NoDup_fst_map_to_list.
    - intros _ [cid row] _. reflexivity. }
  destruct lim as [n |]; [| exact Hall].
  rewrite fmap_take. eapply sublist_NoDup; [exact Hall | apply sublist_take].
Qed.

Lemma findContacts_elem lim st c :
  c ∈ findContacts lim st →
  contacts st !! sc_id c = Some (sc_row c) ∧
  sc_suppressions c = filter (λ entry, s_contactId entry = sc_id c) (suppressions st).
Proof.
  unfold findContacts. intros Hc.
  assert (Hc' : c ∈ ((λ '(cid, row), {| sc_id := cid; sc_row := row;
        sc_suppressions := filter (λ entry, s_contactId entry = cid) (suppressions st) |})
     <$> map_to_list (contacts st))).
  { destruct lim as [n |]; [| exact Hc].
    eapply elem_of_sublist; [exact Hc | apply sublist_take]. }
  apply list_elem_of_fmap in Hc' as ([cid row] & -> & Hin).
  apply elem_of_map_to_list in Hin. simpl. done.
Qed.

Lemma hasHygieneSuppression_rows (l : list Suppression) cid :
  hasHygieneSuppression (filter (λ entry, s_contactId entry = cid) l) = false ↔
  length (filter (λ entry, s_contactId entry = cid ∧ s_reason entry = HYGIENE_SUPPRESSION_REASON) l) = 0.
Proof.
  unfold hasHygieneSuppression.
  induction l as [| e l IH]; [done |].
  rewrite !filter_cons.
  destruct (decide (s_contactId e = cid)) as [Hid | Hid].
  - simpl existsb. destruct (String.eqb_spec (s_reason e) HYGIENE_SUPPRESSION_REASON) as [Hr | Hr].
    + rewrite decide_True by done. simpl. split; intros; discriminate.
    + rewrite decide_False by tauto. simpl. exact IH.
  - rewrite decide_False by tauto. exact IH.
Qed.

Lemma created_rows_of (l : list SweepContact) cid :
  length (filter (λ entry, s_contactId entry = cid ∧ s_reason entry = HYGIENE_SUPPRESSION_REASON)
            (hygieneSuppressionRow ∘ sc_id <$> l)) =
  length (filter (λ c, sc_id c = cid) l).
Proof.
  induction l as [| c l IH]; [done |].
  rewrite fmap_cons, !filter_cons. simpl.
  destruct (decide (sc_id c = cid)).
  - rewrite decide_True by done. simpl. by rewrite IH.
  - rewrite decide_False by tauto. exact IH.
Qed.

Lemma one_row_per_id (l : list SweepContact) cid :
  NoDup (sc_id <$> l) → length (filter (λ c, sc_id c = cid) l) ≤ 1.
Proof.
  induction l as [| c l IH]; simpl; [lia |].
  rewrite NoDup_cons. intros [Hnotin Hnd].
  rewrite filter_cons. destruct (decide (sc_id c = cid)) as [Hid | Hid]; [| by apply IH].
  simpl. rewrite (filter_none (λ c0, sc_id c0 = cid) l); [simpl; lia |].
  intros c0 Hc0 Heq. apply Hnotin. apply list_elem_of_fmap. exists c0. split; congruence.
Qed.

Lemma runHygieneSweep_rows_eq clock options st cid :
  hygieneRows cid (runHygieneSweep clock options st).2 =
  hygieneRows cid st +
  length (filter (λ c, sc_id c = cid)
            (filter (creates options (default clock (now options)))
               (findContacts (limit options) st))).
Proof.
  destruct (runHygieneSweep_effect clock options st) as (Hsup & _).
  cbv zeta in Hsup. unfold hygieneRows at 1. rewrite Hsup.
  by rewrite filter_app, length_app, created_rows_of.
Qed.

Lemma runHygieneSweep_rows clock options st cid :
  let st' := (runHygieneSweep clock options st).2 in
  hygieneRows cid st ≤ hygieneRows cid st' ≤ Nat.max 1 (hygieneRows cid st).
Proof.
  cbv zeta. rewrite runHygieneSweep_rows_eq.
  set (sel := findContacts (limit options) st).
  set (made := filter (creates options (default clock (now options))) sel).
  assert (Hone : length (filter (λ c, sc_id c = cid) made) ≤ 1).
  { apply one_row_per_id. eapply sublist_NoDup; [apply findContacts_ids_NoDup |].
    apply fmap_sublist. apply sublist_filter. }
  destruct (decide (hygieneRows cid st = 0)) as [Hzero | Hpos]; [lia |].
  rewrite (filter_none (λ c, sc_id c = cid) made); [simpl; lia |].
  intros c Hc Hid. apply Hpos.
  apply list_elem_of_filter in Hc as [Hcreates Hsel].
  apply findContacts_elem in Hsel as [_ Hsupp].
  unfold creates in Hcreates. apply andb_prop_elim in Hcreates as [_ Hno].
  apply negb_prop_elim, Is_true_false in Hno.
  rewrite Hsupp in Hno. apply hasHygieneSuppression_rows in Hno.
  rewrite <- Hid. exact Hno.
Qed.

Lemma runHygieneSweeps_rows invocations : ∀ st cid,
  let st' := runHygieneSweeps invocations st in
  hygieneRows cid st ≤ hygieneRows cid st' ≤ Nat.max 1 (hygieneRows cid st).
Proof.
  unfold runHygieneSweeps.
  induction invocations as [| [clock options] rest IH]; intros st cid; cbv zeta.
  - simpl. lia.
  - simpl foldl.
    pose proof (runHygieneSweep_rows clock options st cid) as H1.
    pose proof (IH (runHygieneSweep clock options st).2 cid) as H2.
    cbv zeta in H1, H2. lia.
Qed.

Lemma applyContactUpdate_status data c :
  c_status (applyContactUpdate data c) = default (c_status c) (u_status data).
Proof. reflexivity. Qed.

Lemma applyContactUpdate_tags data c : c_tags (applyContactUpdate data c) = c_tags c.
Proof. reflexivity. Qed.

Lemma updateOf_status options now_ c :
  match updateOf options now_ c with
  | Some (cid, data) =>
      cid = sc_id c ∧
      u_status data = if transitions options now_ c then Some SUPPRESSED else None
  | None => transitions options now_ c = false
  end.
Proof.
  unfold updateOf. cbv zeta.
  destruct (needsRiskUpdate c (scoreContact c now_)), (transitions options now_ c);
    simpl; auto.
Qed.

(** The contact table after the updates of a sweep over [sel]. *)
Lemma applyContactUpdates_selected options now_ sel : ∀ m,
  NoDup (sc_id <$> sel) →
  (∀ c, c ∈ sel → m !! sc_id c = Some (sc_row c)) →
  let m' := applyContactUpdates (omap (updateOf options now_) sel) m in
  (∀ c, c ∈ sel →
     ∃ row, m' !! sc_id c = Some row ∧ c_tags row = c_tags (sc_row c) ∧
       c_status row = if transitions options now_ c then SUPPRESSED else c_status (sc_row c)) ∧
  (∀ cid, cid ∉ sc_id <$> sel → m' !! cid = m !! cid).
Proof.
  unfold applyContactUpdates.
  induction sel as [| c sel IH]; intros m Hnd Hrows; cbv zeta.
  - simpl. split; [intros c Hc; by apply elem_of_nil in Hc | done].
  - rewrite fmap_cons, NoDup_cons in Hnd. destruct Hnd as [Hfresh Hnd].
    assert (Hother : ∀ c', c' ∈ sel → sc_id c' ≠ sc_id c).
    { intros c' Hc' Heq. apply Hfresh. rewrite <- Heq.
      apply list_elem_of_fmap. by exists c'. }
    pose proof (updateOf_status options now_ c) as Hupd.
    rewrite omap_cons_eq.
    destruct (updateOf options now_ c) as [[cid data] |]; cbn [foldl].
    + destruct Hupd as [-> Hdata].
      destruct (IH (alter (applyContactUpdate data) (sc_id c) m) Hnd) as [Hsel Hrest].
      { intros c' Hc'. rewrite lookup_alter_ne by (symmetry; by apply Hother).
        apply Hrows. by right. }
      cbv zeta in Hsel, Hrest. split.
      * intros c' Hc'. apply elem_of_cons in Hc' as [Heq | Hc']; [subst c' | by apply Hsel].
        rewrite (Hrest _ Hfresh), lookup_alter_eq, (Hrows c) by (by left).
        eexists. split; [reflexivity |].
        rewrite applyContactUpdate_tags, applyContactUpdate_status, Hdata.
        by destruct (transitions options now_ c).
      * intros cid Hcid. rewrite fmap_cons, not_elem_of_cons in Hcid.
        destruct Hcid as [Hne Hcid]. rewrite (Hrest _ Hcid).
        by rewrite lookup_alter_ne.
    + destruct (IH m Hnd) as [Hsel Hrest].
      { intros c' Hc'. apply Hrows. by right. }
      cbv zeta in Hsel, Hrest. split.
      * intros c' Hc'. apply elem_of_cons in Hc' as [Heq | Hc']; [subst c' | by apply Hsel].
        rewrite (Hrest _ Hfresh), (Hrows c) by (by left).
        eexists. split; [reflexivity |]. by rewrite Hupd.
      * intros cid Hcid. rewrite fmap_cons, not_elem_of_cons in Hcid.
        destruct Hcid as [_ Hcid]. by apply Hrest.
Qed.

(** The contact table after one sweep. *)
Lemma runHygieneSweep_contacts clock options st :
  let now_ := default clock (now options) in
  let sel := findContacts (limit options) st in
  let st' := (runHygieneSweep clock options st).2 in
  (∀ c, c ∈ sel →
     ∃ row, contacts st' !! sc_id c = Some row ∧ c_tags row = c_tags (sc_row c) ∧
       c_status row = if transitions options now_ c then SUPPRESSED else c_status (sc_row c)) ∧
  (∀ cid, cid ∉ sc_id <$> sel → contacts st' !! cid = contacts st !! cid).
Proof.
  cbv zeta. destruct (runHygieneSweep_effect clock options st) as (_ & Hc & _).
  cbv zeta in Hc. rewrite Hc.
  apply applyContactUpdates_selected.
  - apply findContacts_ids_NoDup.
  - intros c Hin. by apply findContacts_elem in Hin as [? _].
Qed.

Lemma runHygieneSweep_suppressed_stays clock options st cid :
  statusOf cid st = Some SUPPRESSED →
  statusOf cid (runHygieneSweep clock options st).2 = Some SUPPRESSED.
Proof.
  intros Hst. unfold statusOf in *.
  destruct (runHygieneSweep_contacts clock options st) as [Hsel Hrest].
  cbv zeta in Hsel, Hrest.
  destruct (decide (cid ∈ sc_id <$> findContacts (limit options) st)) as [Hin | Hout].
  - apply list_elem_of_fmap in Hin as (c & -> & Hc).
    destruct (Hsel c Hc) as (row & Hrow & _ & Hstatus).
    apply findContacts_elem in Hc as [Hbefore _].
    rewrite Hbefore in Hst. simpl in Hst. injection Hst as Hst.
    rewrite Hrow. simpl. rewrite Hstatus, Hst.
    by destruct (transitions _ _ c).
  - by rewrite (Hrest _ Hout).
Qed.

Lemma runHygieneSweeps_suppressed_stays invocations : ∀ st cid,
  statusOf cid st = Some SUPPRESSED →
  statusOf cid (runHygieneSweeps invocations st) = Some SUPPRESSED.
Proof.
  unfold runHygieneSweeps.
  induction invocations as [| [clock options] rest IH]; intros st cid Hst; [done |].
  simpl foldl. apply IH. by apply runHygieneSweep_suppressed_stays.
Qed.

(** [contactsSuppressed] counts exactly the contacts the sweep moved into
    SUPPRESSED. *)
Lemma runHygieneSweep_counts_transitions clock options st :
  let out := runHygieneSweep clock options st in
  contactsSuppressed out.1 =
    length (newlySuppressed st out.2 (findContacts (limit options) st)).
Proof.
  cbv zeta. destruct (runHygieneSweep_effect clock options st) as (_ & _ & _ & Hcount).
  cbv zeta in Hcount. rewrite Hcount. f_equal. unfold newlySuppressed.
  apply filter_ext_in. intros c Hc.
  destruct (runHygieneSweep_contacts clock options st) as [Hsel _].
  destruct (Hsel c Hc) as (row & Hrow & _ & Hstatus).
  unfold statusOf. rewrite Hrow. simpl. rewrite Hstatus.
  unfold transitions.
  destruct (shouldApplySuppression options c _); simpl.
  - case_bool_decide as Hs; simpl; [| split; [done | tauto]].
    split; [done | intros [Hne _]; done].
  - split; [done |]. intros [Hne Heq]. congruence.
Qed.

Lemma scoreContact_high c now_ :
  riskLevel (scoreContact c now_) = HIGH ↔ excluded (c_status (sc_row c)).
Proof. unfold scoreContact. by rewrite computeHygieneScore_high_iff. Qed.

(** After a sweep over every contact with suppression enabled, each
    excluded, non-synthetic contact is SUPPRESSED and has its row. *)
Lemma after_full_sweep clock options st cid row :
  suppressEnabled options = true →
  limit options = None →
  let st1 := (runHygieneSweep clock options st).2 in
  contacts st1 !! cid = Some row →
  excluded (c_status row) →
  "synthetic" ∉ c_tags row →
  c_status row = SUPPRESSED ∧ 0 < hygieneRows cid st1.
Proof.
  intros Hon Hall st1 Hrow Hexcl Hreal. subst st1.
  destruct (runHygieneSweep_contacts clock options st) as [Hsel Hrest].
  cbv zeta in Hsel, Hrest.
  set (sel := findContacts (limit options) st) in *.
  set (now_ := default clock (now options)) in *.
  assert (Hin : cid ∈ sc_id <$> sel).
  { destruct (decide (cid ∈ sc_id <$> sel)) as [| Hout]; [done |].
    rewrite (Hrest _ Hout) in Hrow. exfalso. apply Hout.
    subst sel. unfold findContacts. rewrite Hall.
    apply list_elem_of_fmap.
    eexists. split; [| apply list_elem_of_fmap; exists (cid, row); split;
                       [reflexivity | by apply elem_of_map_to_list]].
    reflexivity. }
  apply list_elem_of_fmap in Hin as (c & -> & Hc).
  destruct (Hsel c Hc) as (row' & Hrow' & Htags & Hstatus).
  rewrite Hrow in Hrow'. injection Hrow' as <-.
  assert (Happly : shouldApplySuppression options c (scoreContact c now_) = true).
  { destruct (transitions options now_ c) eqn:Htr.
    - unfold transitions in Htr. by apply andb_true_iff in Htr as [? _].
    - unfold shouldApplySuppression. rewrite Hon.
      rewrite Hstatus in Hexcl. apply (scoreContact_high c now_) in Hexcl.
      rewrite (bool_decide_eq_true_2 _ Hexcl). rewrite Htags in Hreal.
      by rewrite (bool_decide_eq_false_2 _ Hreal). }
  split.
  - rewrite Hstatus. unfold transitions. rewrite Happly. simpl.
    by case_bool_decide.
  - rewrite runHygieneSweep_rows_eq. fold sel now_.
    pose proof (findContacts_elem _ _ _ Hc) as [_ Hsupp].
    destruct (hasHygieneSuppression (sc_suppressions c)) eqn:Hhas.
    + destruct (decide (hygieneRows (sc_id c) st = 0)) as [Hzero | Hpos]; [| lia].
      apply hasHygieneSuppression_rows in Hzero. congruence.
    + assert (0 < length (filter (λ c0, sc_id c0 = sc_id c) (filter (creates options now_) sel)));
        [| lia].
      apply (filter_some _ _ c); [| done].
      apply list_elem_of_filter. split; [| done].
      unfold creates. rewrite Happly, Hhas. done.
Qed.

Lemma second_sweep_is_noop clock options st clock' options' :
  suppressEnabled options = true →
  limit options = None →
  let st1 := (runHygieneSweep clock options st).2 in
  let out := runHygieneSweep clock' options' st1 in
  suppressionsCreated out.1 = 0 ∧ contactsSuppressed out.1 = 0 ∧
  suppressions out.2 = suppressions st1 ∧
  ∀ cid, statusOf cid out.2 = statusOf cid st1.
Proof.
  intros Hon Hall st1 out.
  set (sel := findContacts (limit options') st1).
  set (now_ := default clock' (now options')).
  assert (Hsettled : ∀ c, c ∈ sel →
            creates options' now_ c = false ∧ transitions options' now_ c = false).
  { intros c Hc. pose proof (findContacts_elem _ _ _ Hc) as [Hrow Hsupp].
    unfold creates, transitions.
    destruct (shouldApplySuppression options' c (scoreContact c now_)) eqn:Happly; [| done].
    unfold shouldApplySuppression in Happly.
    apply andb_true_iff in Happly as [Happly Hreal].
    apply andb_true_iff in Happly as [Hhigh _].
    apply bool_decide_eq_true_1, scoreContact_high in Hhigh.
    apply negb_true_iff, bool_decide_eq_false_1 in Hreal.
    destruct (after_full_sweep clock options st (sc_id c) (sc_row c) Hon Hall Hrow Hhigh Hreal)
      as [Hstatus Hrows].
    fold st1 in Hrows. simpl. split.
    - apply negb_false_iff. apply not_false_iff_true. intros Hno.
      rewrite Hsupp in Hno. apply hasHygieneSuppression_rows in Hno.
      unfold hygieneRows in Hrows. lia.
    - by rewrite (bool_decide_eq_true_2 _ Hstatus). }
  assert (Hnone1 : filter (creates options' now_) sel = []).
  { apply filter_none. intros c Hc. destruct (Hsettled c Hc) as [-> _]. intros Hf; exact Hf. }
  assert (Hnone2 : filter (transitions options' now_) sel = []).
  { apply filter_none. intros c Hc. destruct (Hsettled c Hc) as [_ ->]. intros Hf; exact Hf. }
  destruct (runHygieneSweep_effect clock' options' st1) as (Hsup & _ & Hcreated & Hcount).
  destruct (runHygieneSweep_contacts clock' options' st1) as [Hsel Hrest].
  cbv zeta in Hsup, Hcreated, Hcount, Hsel, Hrest.
  fold sel now_ out in Hsup, Hcreated, Hcount, Hsel, Hrest.
  rewrite Hnone1 in Hsup, Hcreated. rewrite Hnone2 in Hcount.
  simpl in Hsup. rewrite app_nil_r in Hsup.
  repeat split; try done.
  intros cid. unfold statusOf.
  destruct (decide (cid ∈ sc_id <$> sel)) as [Hin | Hout]; [| by rewrite (Hrest _ Hout)].
  apply list_elem_of_fmap in Hin as (c & -> & Hc).
  destruct (Hsel c Hc) as (row & Hrow & _ & Hstatus).
  destruct (Hsettled c Hc) as [_ Htr]. rewrite Htr in Hstatus.
  apply findContacts_elem in Hc as [Hbefore _].
  rewrite Hrow, Hbefore. simpl. by rewrite Hstatus.
Qed.

(** C4: over any sequence of sweeps with nothing else touching the store,
    at most one "hygiene-risk" row is created per contact (none when one
    exists already); a SUPPRESSED contact stays SUPPRESSED; [contactsSuppressed]
    counts exactly the selected contacts that moved into SUPPRESSED, so never
    one that was SUPPRESSED before; and after a sweep over all contacts with
    suppression enabled, a further sweep creates no row, suppresses no
    contact and leaves the suppression table and every status as they were. *)
Theorem sweep_suppression_idempotent invocations st cid clock options clock' options' :
  (hygieneRows cid st ≤ hygieneRows cid (runHygieneSweeps invocations st)
     ≤ Nat.max 1 (hygieneRows cid st)) ∧
  (statusOf cid st = Some SUPPRESSED →
     statusOf cid (runHygieneSweeps invocations st) = Some SUPPRESSED) ∧
  (let out := runHygieneSweep clock options st in
   contactsSuppressed out.1 =
     length (newlySuppressed st out.2 (findContacts (limit options) st))) ∧
  (suppressEnabled options = true → limit options = None →
   let st1 := (runHygieneSweep clock options st).2 in
   let out := runHygieneSweep clock' options' st1 in
   suppressionsCreated out.1 = 0 ∧ contactsSuppressed out.1 = 0 ∧
   suppressions out.2 = suppressions st1 ∧
   ∀ cid', statusOf cid' out.2 = statusOf cid' st1).
Proof.
  split; [apply runHygieneSweeps_rows |].
  split; [apply runHygieneSweeps_suppressed_stays |].
  split; [apply runHygieneSweep_counts_transitions |].
  apply second_sweep_is_noop.
Qed.

Lemma sweep_suppression_idempotent_witness :
  hygieneRows "c-bounced" (runHygieneSweeps [(0, sweepDefaults); (5, sweepDefaults)]%Z sweepStore) = 1 ∧
  statusOf "c-suppressed" (runHygieneSweeps [(0, sweepDefaults); (5, sweepDefaults)]%Z sweepStore)
    = Some SUPPRESSED ∧
  contactsSuppressed (runHygieneSweep 0 sweepDefaults sweepStore).1 = 1 ∧
  contactsSuppressed
    (runHygieneSweep 5 sweepDefaults (runHygieneSweep 0 sweepDefaults sweepStore).2).1 = 0.
Proof.
  destruct (sweep_suppression_idempotent [(0, sweepDefaults); (5, sweepDefaults)]%Z
              sweepStore "c-suppressed" 0%Z sweepDefaults 5%Z sweepDefaults)
    as (_ & Hstays & _ & Hnoop).
  split; [vm_compute; reflexivity |].
  split; [apply Hstays; vm_compute; reflexivity |].
  split; [vm_compute; reflexivity |].
  apply Hnoop; reflexivity.
Defined.

End SweepFacts.

(** * Properties of the send-time optimizer *)

Module OptimizerFacts.
Import Optimizer Scenarios.

Lemma Qgtb_lt a b : Qgtb a b = true ↔ (b < a)%Q.
Proof.
  unfold Qgtb. rewrite negb_true_iff, <- not_true_iff_false, Qle_bool_iff.
  split; [apply Qnot_le_lt | apply Qlt_not_le].
Qed.

Lemma Qgtb_le a b : Qgtb a b = false ↔ (a <= b)%Q.
Proof. unfold Qgtb. by rewrite negb_false_iff, Qle_bool_iff. Qed.

Section Scan.

Variable histogram : Histogram.

Lemma pickStep_scanned n best :
  scanned histogram n best →
  scanned histogram (S n) (pickStep histogram (computePrior histogram) best n).
Proof.
  unfold pickStep. fold (scoreAt histogram n). destruct n as [| n].
  - simpl. intros ->. simpl. repeat split; [lia | intros j Hj; lia |].
    intros j Hj. assert (j = 0) as -> by lia. apply Qle_refl.
  - intros (Hlt & Hbest & Hbefore & Hafter). rewrite Hbest. simpl.
    fold (Qgtb (scoreAt histogram (S n)) (scoreAt histogram best.1)).
    destruct (Qgtb (scoreAt histogram (S n)) (scoreAt histogram best.1)) eqn:Hcmp; simpl.
    + apply Qgtb_lt in Hcmp. repeat split; [lia | |].
      * intros j Hj. destruct (decide (j < best.1)) as [Hjb | Hjb].
        -- eapply Qlt_trans; [by apply Hbefore | done].
        -- eapply Qle_lt_trans; [apply Hafter; lia | done].
      * intros j Hj. assert (j = S n) as -> by lia. apply Qle_refl.
    + apply Qgtb_le in Hcmp. repeat split; [lia | done | done |].
      intros j Hj. destruct (decide (j = S n)) as [-> | Hne]; [done |].
      apply Hafter. lia.
Qed.

Lemma scanHours_scanned n :
  scanned histogram n (scanHours histogram (computePrior histogram) (seq 0 n)).
Proof.
  unfold scanHours. induction n as [| n IH]; [done |].
  rewrite seq_S, foldl_app. simpl foldl. by apply pickStep_scanned.
Qed.

Lemma scanned_pos n best :
  0 < n → scanned histogram n best →
  best.1 < n ∧ best.2 = Finite (scoreAt histogram best.1) ∧
  (∀ j, j < best.1 → (scoreAt histogram j < scoreAt histogram best.1)%Q) ∧
  (∀ j, best.1 ≤ j < n → (scoreAt histogram j <= scoreAt histogram best.1)%Q).
Proof. destruct n; [lia | done]. Qed.

End Scan.

(** C8: the hour [pickBestHour] returns lies in [0, 168); its smoothed
    score is strictly greater than that of every earlier hour and at least
    that of every later hour, so among the hours of maximal score it is the
    one of lowest index; the returned score is that hour's score. *)
Theorem pickBestHour_first_maximum histogram fallback :
  let best := pickBestHour histogram fallback in
  hour best < HOURS_PER_WEEK ∧
  score best = Finite (scoreHistogram (hour best) histogram (computePrior histogram)) ∧
  (∀ j, j < hour best → (scoreAt histogram j < scoreAt histogram (hour best))%Q) ∧
  (∀ j, hour best ≤ j < HOURS_PER_WEEK →
     (scoreAt histogram j <= scoreAt histogram (hour best))%Q) ∧
  (∀ j, j < HOURS_PER_WEEK →
     (∀ k, k < HOURS_PER_WEEK → (scoreAt histogram k <= scoreAt histogram j)%Q) →
     hour best ≤ j).
Proof.
  cbv zeta. unfold pickBestHour. cbn [hour score baseline].
  assert (Hpos : 0 < HOURS_PER_WEEK) by (unfold HOURS_PER_WEEK; lia).
  destruct (scanned_pos histogram _ _ Hpos (scanHours_scanned histogram HOURS_PER_WEEK))
    as (Hlt & Hbest & Hbefore & Hafter).
  repeat split; try done.
  intros j Hj Hmax.
  destruct (decide ((scanHours histogram (computePrior histogram) (seq 0 HOURS_PER_WEEK)).1 ≤ j))
    as [| Hgt]; [done |].
  exfalso. apply (Qlt_not_le _ _ (Hbefore j ltac:(lia))). by apply Hmax.
Qed.

Lemma total_from (counts : list N) : ∀ start,
  foldl N.add start counts = (start + total counts)%N.
Proof.
  unfold total. induction counts as [| n counts IH]; intros start; cbn [foldl].
  - lia.
  - rewrite (IH (start + n)%N), (IH (0 + n)%N). lia.
Qed.

Lemma total_zero (counts : list N) :
  (∀ n, n ∈ counts → n = 0%N) → total counts = 0%N.
Proof.
  induction counts as [| n counts IH]; intros Hzero; [done |].
  unfold total. cbn [foldl]. rewrite total_from, IH by (intros; apply Hzero; by right).
  rewrite (Hzero n) by (by left). done.
Qed.

Lemma entry_zero (counts : list N) (hour : nat) :
  (∀ n, n ∈ counts → n = 0%N) → default 0%N (counts !! hour) = 0%N.
Proof.
  intros Hzero. destruct (counts !! hour) as [n |] eqn:Hn; [| done].
  simpl. apply Hzero. by eapply list_elem_of_lookup_2.
Qed.

Lemma ofCount_nonneg n : (0 <= ofCount n)%Q.
Proof. unfold ofCount. change 0%Q with (inject_Z 0). rewrite <- Zle_Qle. lia. Qed.

Lemma ofCount_lt a b : (a < b)%N → (ofCount a < ofCount b)%Q.
Proof. intros H. unfold ofCount. rewrite <- Zlt_Qlt. lia. Qed.

Lemma computePrior_no_sends histogram :
  total (sends histogram) = 0%N → computePrior histogram = 0.05%Q.
Proof. intros H. unfold computePrior. by rewrite H. Qed.

Lemma computePrior_no_clicks histogram :
  total (sends histogram) ≠ 0%N →
  (∀ n, n ∈ clicks histogram → n = 0%N) →
  (computePrior histogram == 0)%Q.
Proof.
  intros Hsends Hclicks. unfold computePrior.
  rewrite bool_decide_eq_false_2 by done.
  rewrite (total_zero _ Hclicks). unfold ofCount. simpl.
  unfold Qdiv. apply Qmult_0_l.
Qed.

Lemma scoreHistogram_no_clicks hour histogram prior :
  (∀ n, n ∈ clicks histogram → n = 0%N) →
  (scoreHistogram hour histogram prior ==
     SMOOTHING_ALPHA * prior /
       (ofCount (default 0%N (sends histogram !! hour)) + SMOOTHING_ALPHA))%Q.
Proof.
  intros Hclicks. unfold scoreHistogram. rewrite (entry_zero _ _ Hclicks).
  unfold ofCount at 1. simpl inject_Z. by rewrite Qplus_0_l.
Qed.

Lemma smoothed_decreasing prior (s1 s2 : N) :
  (0 < prior)%Q → (s1 < s2)%N →
  (SMOOTHING_ALPHA * prior / (ofCount s2 + SMOOTHING_ALPHA) <
   SMOOTHING_ALPHA * prior / (ofCount s1 + SMOOTHING_ALPHA))%Q.
Proof.
  intros Hprior Hlt. unfold Qdiv, SMOOTHING_ALPHA.
  pose proof (ofCount_nonneg s1). pose proof (ofCount_nonneg s2).
  pose proof (ofCount_lt _ _ Hlt).
  apply Qmult_lt_l; [lra |].
  apply -> Qinv_lt_contravar; lra.
Qed.

(** C3 as stated fails: with sends but no clicks the prior is 0, so every
    hour scores 0 and the score does not decrease from the hour with one
    send to the hour with two. *)
Lemma zero_click_scores_not_decreasing :
  total (sends twoBusyHours) ≠ 0%N ∧
  (∀ n, n ∈ clicks twoBusyHours → n = 0%N) ∧
  (default 0 (sends twoBusyHours !! 0%nat) < default 0 (sends twoBusyHours !! 1%nat))%N ∧
  ¬ (scoreAt twoBusyHours 1 < scoreAt twoBusyHours 0)%Q.
Proof.
  split; [vm_compute; discriminate |].
  split; [intros n Hn; by apply elem_of_replicate in Hn as [-> _] |].
  split; [vm_compute; reflexivity |].
  vm_compute. discriminate.
Qed.

(** C3, amended: without sends the prior is exactly 0.05; with sends and no
    click in any bucket the prior is 0 and every hour scores
    α·prior/(sends[h]+α), which is 0; that quantity is strictly decreasing
    in sends[h] when the prior it is given is positive. *)
Theorem prior_and_zero_click_scores histogram :
  (total (sends histogram) = 0%N → computePrior histogram = 0.05%Q) ∧
  (total (sends histogram) ≠ 0%N →
   (∀ n, n ∈ clicks histogram → n = 0%N) →
   (computePrior histogram == 0)%Q ∧
   ∀ hour,
     (scoreAt histogram hour ==
        SMOOTHING_ALPHA * computePrior histogram /
          (ofCount (default 0%N (sends histogram !! hour)) + SMOOTHING_ALPHA))%Q ∧
     (scoreAt histogram hour == 0)%Q) ∧
  (∀ prior h1 h2,
     (∀ n, n ∈ clicks histogram → n = 0%N) →
     (0 < prior)%Q →
     (default 0 (sends histogram !! h1) < default 0 (sends histogram !! h2))%N →
     (scoreHistogram h2 histogram prior < scoreHistogram h1 histogram prior)%Q).
Proof.
  split; [apply computePrior_no_sends |]. split.
  - intros Hsends Hclicks.
    pose proof (computePrior_no_clicks histogram Hsends Hclicks) as Hprior.
    split; [exact Hprior |]. intros hour.
    pose proof (scoreHistogram_no_clicks hour histogram (computePrior histogram) Hclicks)
      as Hscore.
    split; [exact Hscore |].
    unfold scoreAt. rewrite Hscore, Hprior. unfold Qdiv.
    by rewrite Qmult_0_r, Qmult_0_l.
  - intros prior h1 h2 Hclicks Hprior Hlt.
    rewrite !(scoreHistogram_no_clicks _ _ _ Hclicks).
    by apply smoothed_decreasing.
Qed.

Lemma prior_and_zero_click_scores_witness :
  computePrior createHistogram = 0.05%Q ∧
  (computePrior twoBusyHours == 0)%Q ∧
  (scoreAt twoBusyHours 1 == 0)%Q ∧
  (scoreHistogram 1 twoBusyHours 0.05 < scoreHistogram 0 twoBusyHours 0.05)%Q.
Proof.
  assert (Hclicks : ∀ n, n ∈ clicks twoBusyHours → n = 0%N).
  { intros n Hn. by apply elem_of_replicate in Hn as [-> _]. }
  assert (Hsends : total (sends twoBusyHours) ≠ 0%N) by (vm_compute; discriminate).
  split.
  - apply (prior_and_zero_click_scores createHistogram). vm_compute. reflexivity.
  - destruct (prior_and_zero_click_scores twoBusyHours) as (_ & Hzero & Hdecr).
    destruct (Hzero Hsends Hclicks) as [Hprior Hscores].
    split; [exact Hprior |]. split; [apply Hscores |].
    apply Hdecr; [exact Hclicks | reflexivity | vm_compute; reflexivity].
Defined.

Section Recommend.

Variable zones : TimeZones.

Lemma getNextDateForHour_throws reference hour_ timezone e :
  getNextDateForHour zones reference hour_ timezone = Threw e → ∃ m, e = RangeError m.
Proof.
  unfold getNextDateForHour, zonedBase.
  destruct timezone as [tz |]; [| discriminate].
  case_bool_decide; [discriminate |].
  destruct (zones tz); [discriminate |].
  intros [= <-]. eauto.
Qed.

(** An existing, active contact: the call returns a recommendation for the
    best hour or throws the [RangeError] of a rejected zone name. *)
Lemma recommendSendTime_active clock contactId referenceDate st contact :
  contacts st !! contactId = Some contact →
  c_status contact = ACTIVE →
  let out := recommendSendTime zones clock contactId referenceDate st in
  (∃ m, out.1 = Threw (RangeError m)) ∨
  (∃ r, out.1 = Returned r ∧ is_Some (recommendedHour r) ∧ is_Some (recommendedAt r)).
Proof.
  intros Hc Hactive. cbv zeta. unfold recommendSendTime. rewrite Hc.
  rewrite bool_decide_eq_false_2 by (intros H; by apply H).
  destruct (getHistograms clock st) as [histograms st1].
  set (best := pickBestHour _ _). clearbody best.
  destruct (getNextDateForHour zones referenceDate (hour best) (c_timezone contact))
    as [at0 | e0] eqn:H0.
  2: { left. apply getNextDateForHour_throws in H0 as [m ->]. by exists m. }
  destruct (c_lastMessageSentAt contact) as [lastSent |].
  2: { right. eexists. split; [reflexivity |]. split; eexists; reflexivity. }
  case_bool_decide.
  2: { right. eexists. split; [reflexivity |]. split; eexists; reflexivity. }
  destruct (getNextDateForHour zones (lastSent + ONE_DAY_MS) (hour best) (c_timezone contact))
    as [at1 | e1] eqn:H1.
  - right. eexists. split; [reflexivity |]. split; eexists; reflexivity.
  - left. apply getNextDateForHour_throws in H1 as [m ->]. by exists m.
Qed.

(** C7: the call throws "Contact not found" exactly when no contact has the
    id; for a contact that is not ACTIVE it returns the inactive
    recommendation (hour null, score 0), leaves the store, and with it the
    histogram cache, as it was, and its result does not depend on anything
    in the store but the contact. *)
Theorem recommend_not_found_or_inactive clock contactId referenceDate st :
  let out := recommendSendTime zones clock contactId referenceDate st in
  (out.1 = Threw (PlainError "Contact not found") ↔ contacts st !! contactId = None) ∧
  (∀ contact,
     contacts st !! contactId = Some contact →
     c_status contact ≠ ACTIVE →
     out = (Returned inactiveRecommendation, st) ∧
     recommendedHour inactiveRecommendation = None ∧
     rec_score inactiveRecommendation = Finite 0 ∧
     histogramCache out.2 = histogramCache st ∧
     ∀ st', contacts st' !! contactId = Some contact →
       recommendSendTime zones clock contactId referenceDate st'
         = (Returned inactiveRecommendation, st')).
Proof.
  cbv zeta. split.
  - split.
    + intros Hthrew. destruct (contacts st !! contactId) as [contact |] eqn:Hc; [| done].
      exfalso. destruct (decide (c_status contact = ACTIVE)) as [Hactive | Hinactive].
      * destruct (recommendSendTime_active clock contactId referenceDate st contact Hc Hactive)
          as [[m Hm] | (r & Hr & _)]; cbv zeta in *; congruence.
      * unfold recommendSendTime in Hthrew. rewrite Hc in Hthrew.
        rewrite (bool_decide_eq_true_2 _ Hinactive) in Hthrew. discriminate.
    + intros Hc. unfold recommendSendTime. by rewrite Hc.
  - intros contact Hc Hinactive.
    assert (Hsame : ∀ st', contacts st' !! contactId = Some contact →
              recommendSendTime zones clock contactId referenceDate st'
                = (Returned inactiveRecommendation, st')).
    { intros st' Hc'. unfold recommendSendTime. rewrite Hc'.
      by rewrite (bool_decide_eq_true_2 _ Hinactive). }
    rewrite (Hsame st Hc). repeat split; auto.
Qed.

Lemma nextFrom_after base hour_ : (base < nextFrom base hour_)%Z.
Proof.
  unfold nextFrom, Date.addUTCDate, Date.setUTCHours.
  set (k := Z.rem _ 7). set (u := Z.rem _ 24).
  assert (Hk : (0 ≤ k)%Z).
  { subst k. apply Z.rem_nonneg; [lia |]. unfold Date.getUTCDay.
    pose proof (Z.mod_pos_bound (base / msPerDay + 4) 7 ltac:(lia)).
    pose proof (Z.div_pos (Z.of_nat hour_) 24 ltac:(lia) ltac:(lia)). lia. }
  assert (Hu : (0 ≤ u)%Z) by (subst u; apply Z.rem_nonneg; lia).
  change msPerDay with 86400000%Z. change msPerHour with 3600000%Z.
  pose proof (Z.mod_pos_bound (base + k * 86400000) 86400000 ltac:(lia)).
  case_bool_decide; lia.
Qed.

Lemma nextFrom_whole_second base hour_ : ∃ q, nextFrom base hour_ = (1000 * q)%Z.
Proof.
  unfold nextFrom, Date.addUTCDate, Date.setUTCHours.
  set (k := Z.rem _ 7). set (u := Z.rem _ 24).
  change msPerDay with 86400000%Z. change msPerHour with 3600000%Z.
  pose proof (Z.div_mod (base + k * 86400000) 86400000 ltac:(lia)) as Hdm.
  set (x := (base + k * 86400000)%Z) in *.
  case_bool_decide.
  - exists (86400 * (x / 86400000) + 3600 * u + 7 * 86400)%Z. lia.
  - exists (86400 * (x / 86400000) + 3600 * u)%Z. lia.
Qed.

Lemma getNextDateForHour_after reference hour_ timezone :
  notWestOfUTC zones timezone →
  ∃ at_, getNextDateForHour zones reference hour_ timezone = Returned at_ ∧
         (reference < at_)%Z.
Proof.
  unfold notWestOfUTC, getNextDateForHour, zonedBase.
  destruct timezone as [tz |].
  2: { intros _. eexists. split; [reflexivity | apply nextFrom_after]. }
  intros [-> | (offset & Hzone & Heast)].
  { simpl. eexists. split; [reflexivity | apply nextFrom_after]. }
  case_bool_decide.
  { eexists. split; [reflexivity | apply nextFrom_after]. }
  rewrite Hzone. eexists. split; [reflexivity |].
  set (base := (_ / 1000 * 1000)%Z).
  pose proof (nextFrom_after base hour_) as Hafter.
  destruct (nextFrom_whole_second base hour_) as [q Hq].
  pose proof (Heast reference).
  pose proof (Z.div_mod (reference + offset reference) 1000 ltac:(lia)).
  pose proof (Z.mod_pos_bound (reference + offset reference) 1000 ltac:(lia)).
  subst base. lia.
Qed.

(** Where the zone is unset or never behind UTC the cooldown holds: one
    hour after the last send the call is throttled and recommends an
    instant at least a day after that send. *)
Lemma cooldown_respected clock contactId st contact lastSent :
  contacts st !! contactId = Some contact →
  c_status contact = ACTIVE →
  c_lastMessageSentAt contact = Some lastSent →
  notWestOfUTC zones (c_timezone contact) →
  ∃ r at_,
    (recommendSendTime zones clock contactId (lastSent + msPerHour) st).1 = Returned r ∧
    throttled r = true ∧ recommendedAt r = Some at_ ∧ (lastSent + ONE_DAY_MS ≤ at_)%Z.
Proof.
  intros Hc Hactive Hlast Hzone. unfold recommendSendTime. rewrite Hc.
  rewrite bool_decide_eq_false_2 by (intros H; by apply H).
  destruct (getHistograms clock st) as [histograms st1].
  set (best := pickBestHour _ _). clearbody best.
  destruct (getNextDateForHour_after (lastSent + msPerHour) (hour best) _ Hzone)
    as (at0 & -> & Hat0).
  rewrite Hlast.
  assert (Hthrottled : bool_decide (lastSent + ONE_DAY_MS > lastSent + msPerHour)%Z = true).
  { apply bool_decide_eq_true_2. unfold ONE_DAY_MS, msPerHour. lia. }
  rewrite Hthrottled. clear Hthrottled.
  case_bool_decide as Hearly.
  - destruct (getNextDateForHour_after (lastSent + ONE_DAY_MS) (hour best) _ Hzone)
      as (at1 & -> & Hat1).
    eexists _, at1. split; [reflexivity |]. split; [reflexivity |].
    split; [reflexivity | lia].
  - eexists _, at0. split; [reflexivity |]. split; [reflexivity |].
    split; [reflexivity | lia].
Qed.

End Recommend.

(** C2 fails on the code for a zone behind UTC: a contact in "Etc/GMT+8",
    last mailed Saturday 05:00 UTC, asked about one hour later, is throttled
    but told to send on Sunday 00:00 UTC, nineteen hours after the last
    send. *)
Lemma cooldown_broken_west_of_utc :
  let out := recommendSendTime fixedZones 0 "c-west" (lastSend + msPerHour) westStore in
  ∃ r,
    out.1 = Returned r ∧ throttled r = true ∧
    recommendedAt r = Some (lastSend + 19 * msPerHour)%Z ∧
    (lastSend + 19 * msPerHour < lastSend + ONE_DAY_MS)%Z.
Proof.
  cbv zeta. eexists. split; [vm_compute; reflexivity |]. simpl.
  repeat split.
Qed.

Lemma cooldown_respected_utc :
  ∃ r at_,
    (recommendSendTime fixedZones 0 "c-utc" (lastSend + msPerHour) westStore).1 = Returned r ∧
    throttled r = true ∧ recommendedAt r = Some at_ ∧ (lastSend + ONE_DAY_MS ≤ at_)%Z.
Proof.
  eapply (cooldown_respected fixedZones); [vm_compute; reflexivity | reflexivity.. | exact I].
Defined.

Lemma recommend_not_found_or_inactive_witness :
  (recommendSendTime fixedZones 0 "c-bounced" 0 sweepStore).1 = Returned inactiveRecommendation ∧
  (recommendSendTime fixedZones 0 "nobody" 0 sweepStore).1 = Threw (PlainError "Contact not found").
Proof.
  split.
  - destruct (recommend_not_found_or_inactive fixedZones 0 "c-bounced" 0 sweepStore) as [_ H].
    destruct (H (plainContact BOUNCED [])) as [-> _]; [vm_compute; reflexivity | discriminate |].
    reflexivity.
  - apply (recommend_not_found_or_inactive fixedZones 0 "nobody" 0 sweepStore).
    vm_compute. reflexivity.
Defined.

End OptimizerFacts.

(** * Further properties of the optimizer *)

Module OptimizerMore.
Import Optimizer Views Scenarios.

Lemma sameTables_refl st : sameTables st st.
Proof. unfold sameTables. auto 10. Qed.

Lemma sameTables_trans a b c : sameTables a b → sameTables b c → sameTables a c.
Proof. unfold sameTables. intuition congruence. Qed.

Lemma getHistograms_tables clock st :
  sameTables st (getHistograms clock st).2 ∧
  optimizerDecisions (getHistograms clock st).2 = optimizerDecisions st.
Proof.
  unfold getHistograms. destruct (histogramCache st) as [[data fetchedAt] |].
  - case_bool_decide; split; try done; unfold sameTables; cbn; auto 10.
  - split; [unfold sameTables; cbn; auto 10 | done].
Qed.

Lemma hourOfWeek_bounds date :
  (0 ≤ Date.getUTCDay date < 7)%Z ∧ (0 ≤ Date.getUTCHours date < 24)%Z.
Proof.
  unfold Date.getUTCDay, Date.getUTCHours.
  change msPerDay with 86400000%Z. change msPerHour with 3600000%Z.
  Z.div_mod_to_equations. lia.
Qed.

Lemma on_the_hour_index t :
  (t mod 3600000 = 0)%Z →
  (Date.getUTCDay t * 24 + Date.getUTCHours t = (t / 3600000 + 96) mod 168)%Z.
Proof.
  unfold Date.getUTCDay, Date.getUTCHours.
  change msPerDay with 86400000%Z. change msPerHour with 3600000%Z.
  intros H. Z.div_mod_to_equations. lia.
Qed.

Lemma nextFrom_unfold base h :
  nextFrom base h =
  (let k := ((Z.of_nat h / 24 - (base / 86400000 + 4) mod 7 + 7) mod 7)%Z in
   let x := (base + k * 86400000)%Z in
   let r := (x - x mod 86400000 + (Z.of_nat h mod 24) * 3600000)%Z in
   if bool_decide (r ≤ base)%Z then (r + 7 * 86400000)%Z else r).
Proof.
  unfold nextFrom, Date.addUTCDate, Date.setUTCHours, Date.getUTCDay.
  change msPerDay with 86400000%Z. change msPerHour with 3600000%Z.
  assert (Hk : (0 ≤ Z.of_nat h / 24 - (base / 86400000 + 4) mod 7 + 7)%Z).
  { pose proof (Z.mod_pos_bound (base / 86400000 + 4) 7 ltac:(lia)).
    pose proof (Z.div_pos (Z.of_nat h) 24 ltac:(lia) ltac:(lia)). lia. }
  rewrite (Z.rem_mod_nonneg _ 7) by lia.
  rewrite (Z.rem_mod_nonneg _ 24) by lia.
  reflexivity.
Qed.

Lemma nextFrom_lands base h :
  h < 168 →
  (base < nextFrom base h ≤ base + 7 * 86400000)%Z ∧
  (nextFrom base h mod 3600000 = 0)%Z ∧
  ((nextFrom base h / 3600000 + 96) mod 168 = Z.of_nat h)%Z.
Proof.
  intros Hh. rewrite nextFrom_unfold. cbv zeta.
  case_bool_decide as Hle.
  - Z.div_mod_to_equations; lia.
  - Z.div_mod_to_equations; lia.
Qed.

Lemma hourOfWeek_index date :
  Z.of_nat (hourOfWeek date) = (Date.getUTCDay date * 24 + Date.getUTCHours date)%Z.
Proof.
  pose proof (hourOfWeek_bounds date) as [Hday Hhour]. unfold hourOfWeek. lia.
Qed.

Lemma hourOfWeek_lt date : hourOfWeek date < HOURS_PER_WEEK.
Proof.
  pose proof (hourOfWeek_bounds date) as [Hday Hhour].
  unfold hourOfWeek, HOURS_PER_WEEK. lia.
Qed.

(** X1 (hourOfWeek): the hour of the week of any date is one of the 168
    bucket indices; it is the same one week later, and one hour later it
    is the next index, wrapping from 167 to 0. *)
Theorem hourOfWeek_range date :
  hourOfWeek date < HOURS_PER_WEEK ∧
  hourOfWeek (date + 7 * msPerDay) = hourOfWeek date ∧
  hourOfWeek (date + msPerHour) = (hourOfWeek date + 1) mod HOURS_PER_WEEK.
Proof.
  split; [apply hourOfWeek_lt |].
  split; apply Nat2Z.inj; rewrite ?Nat2Z.inj_mod, ?Nat2Z.inj_add, !hourOfWeek_index;
    unfold HOURS_PER_WEEK, Date.getUTCDay, Date.getUTCHours;
    change msPerDay with 86400000%Z; change msPerHour with 3600000%Z;
    Z.div_mod_to_equations; lia.
Qed.

(** X2 (getNextDateForHour): for a contact without a timezone (absent or
    empty) and an hour of the week below 168, the function returns, without
    throwing, an instant on the hour that is strictly after the reference,
    at most seven days after it, and whose hour of the week is the one
    asked for; it is the earliest such instant. *)
Theorem getNextDateForHour_next_occurrence zones reference h timezone :
  h < HOURS_PER_WEEK →
  timezone = None ∨ timezone = Some "" →
  ∃ at_,
    getNextDateForHour zones reference h timezone = Returned at_ ∧
    (reference < at_ ≤ reference + 7 * msPerDay)%Z ∧
    (at_ mod msPerHour = 0)%Z ∧ hourOfWeek at_ = h ∧
    ∀ t, (reference < t)%Z → (t mod msPerHour = 0)%Z → hourOfWeek t = h → (at_ ≤ t)%Z.
Proof.
  intros Hh Hzone. exists (nextFrom reference h).
  split; [unfold getNextDateForHour, zonedBase; by destruct Hzone as [-> | ->] |].
  unfold HOURS_PER_WEEK in Hh.
  destruct (nextFrom_lands reference h Hh) as (Hrange & Hwhole & Hindex).
  change msPerDay with 86400000%Z. change msPerHour with 3600000%Z.
  assert (Hhour : ∀ t, (t mod 3600000 = 0)%Z →
            Z.of_nat (hourOfWeek t) = ((t / 3600000 + 96) mod 168)%Z).
  { intros t Ht. rewrite <- (on_the_hour_index t Ht).
    apply hourOfWeek_index. }
  split; [exact Hrange |]. split; [exact Hwhole |]. split.
  - apply Nat2Z.inj. rewrite (Hhour _ Hwhole). exact Hindex.
  - intros t Hafter Ht Hsame.
    pose proof (Hhour t Ht) as Hidx. rewrite Hsame in Hidx.
    set (r := nextFrom reference h) in *. clearbody r.
    Z.div_mod_to_equations. lia.
Qed.

Lemma getNextDateForHour_next_occurrence_witness :
  ∃ at_,
    getNextDateForHour fixedZones lastSend 30 None = Returned at_ ∧
    (lastSend < at_ ≤ lastSend + 7 * msPerDay)%Z ∧
    (at_ mod msPerHour = 0)%Z ∧ hourOfWeek at_ = 30 ∧
    ∀ t, (lastSend < t)%Z → (t mod msPerHour = 0)%Z → hourOfWeek t = 30 → (at_ ≤ t)%Z.
Proof.
  apply (getNextDateForHour_next_occurrence fixedZones lastSend 30 None);
    [unfold HOURS_PER_WEEK; lia | left; reflexivity].
Defined.

Lemma total_cons n (counts : list N) : total (n :: counts) = (n + total counts)%N.
Proof. unfold total. cbn [foldl]. by rewrite OptimizerFacts.total_from. Qed.

Lemma total_alter (counts : list N) : ∀ hour,
  hour < length counts → total (alter N.succ hour counts) = (total counts + 1)%N.
Proof.
  induction counts as [| n counts IH]; intros hour Hlt; [cbn in Hlt; lia |].
  destruct hour as [| hour]; cbn [alter list_alter].
  - rewrite !total_cons. lia.
  - rewrite !total_cons, IH by (cbn in Hlt; lia). lia.
Qed.

Lemma total_le (a : list N) : ∀ b,
  length a = length b →
  (∀ i, (default 0 (a !! i) ≤ default 0 (b !! i))%N) →
  (total a ≤ total b)%N.
Proof.
  induction a as [| x a IH]; intros [| y b] Hlen Hle; try done.
  rewrite !total_cons. specialize (IH b ltac:(cbn in Hlen; lia) (λ i, Hle (S i))).
  specialize (Hle 0). cbn in Hle. lia.
Qed.

Lemma createHistogram_wellFormed : wellFormed createHistogram.
Proof.
  unfold wellFormed, createHistogram. cbn [sends clicks].
  rewrite !length_replicate. repeat split. intros hour. lia.
Qed.

Lemma createHistogram_total : total (sends createHistogram) = 0%N.
Proof.
  apply OptimizerFacts.total_zero. intros n Hn.
  by apply elem_of_replicate in Hn as [-> _].
Qed.

Lemma record_wellFormed hour_ clicked h :
  wellFormed h → wellFormed (record hour_ clicked h).
Proof.
  unfold wellFormed, record. intros (Hs & Hc & Hle). cbn [sends clicks].
  split; [by rewrite length_alter |].
  split; [destruct clicked; by rewrite ?length_alter |].
  intros i. specialize (Hle i).
  destruct (decide (hour_ = i)) as [-> | Hne].
  - destruct (decide (i < HOURS_PER_WEEK)) as [Hin | Hout].
    + destruct (lookup_lt_is_Some_2 (sends h) i ltac:(lia)) as [s Hsend].
      destruct (lookup_lt_is_Some_2 (clicks h) i ltac:(lia)) as [c Hclick].
      rewrite Hsend, Hclick in Hle.
      destruct clicked; rewrite ?list_lookup_alter_eq, ?Hsend, ?Hclick; cbn in *; lia.
    + rewrite (lookup_ge_None_2 (sends h) i), (lookup_ge_None_2 (clicks h) i) in Hle by lia.
      destruct clicked; rewrite ?list_lookup_alter_eq;
        rewrite ?(lookup_ge_None_2 (sends h) i), ?(lookup_ge_None_2 (clicks h) i) by lia;
        cbn; lia.
  - destruct clicked; rewrite ?list_lookup_alter_ne by done; exact Hle.
Qed.

Lemma record_total hour_ clicked h :
  hour_ < HOURS_PER_WEEK → wellFormed h →
  total (sends (record hour_ clicked h)) = (total (sends h) + 1)%N ∧
  total (clicks (record hour_ clicked h)) =
    (total (clicks h) + if clicked then 1 else 0)%N.
Proof.
  intros Hlt (Hs & Hc & _). unfold record. cbn [sends clicks].
  split; [apply total_alter; lia |].
  destruct clicked; [apply total_alter; lia | lia].
Qed.

Lemma addMessage_tallies tagsOf acc message sent clicked :
  tallies acc sent clicked →
  is_Some (m_sentAt message) →
  tallies (addMessage tagsOf acc message) (sent + 1)
    (clicked + if bool_decide (is_Some (m_clickedAt message)) then 1 else 0).
Proof.
  intros (Hwf & Hsent & Hclicked & Hsegments) [sentAt Hat].
  unfold addMessage. rewrite Hat.
  set (hour_ := hourOfWeek sentAt).
  set (wasClicked := bool_decide (is_Some (m_clickedAt message))).
  assert (Hhour : hour_ < HOURS_PER_WEEK) by apply hourOfWeek_lt.
  destruct (record_total hour_ wasClicked (global acc) Hhour Hwf) as [Hs Hc].
  assert (Hkeep : ∀ segment h, segments acc !! segment = Some h →
            segment ≠ "" ∧ wellFormed h ∧ (1 ≤ total (sends h) ≤ sent + 1)%N).
  { intros segment h Hh. destruct (Hsegments segment h Hh) as (? & ? & ?).
    split; [done |]. split; [done | lia]. }
  assert (Hglobal : ∀ segs,
    (∀ segment h, segs !! segment = Some h →
       segment ≠ "" ∧ wellFormed h ∧ (1 ≤ total (sends h) ≤ sent + 1)%N) →
    tallies {| global := record hour_ wasClicked (global acc); segments := segs |}
      (sent + 1) (clicked + if wasClicked then 1 else 0)).
  { intros segs Hsegs. unfold tallies. cbn [global segments].
    split; [by apply record_wellFormed |]. split; [by rewrite Hs, Hsent |].
    split; [by rewrite Hc, Hclicked | exact Hsegs]. }
  destruct (getSegmentTag (tagsOf (m_contactId message))) as [segment |];
    [| by apply Hglobal].
  case_bool_decide as Hempty; [by apply Hglobal |].
  apply Hglobal. intros segment' h Hh.
  destruct (decide (segment = segment')) as [<- | Hne].
  2: { rewrite lookup_insert_ne in Hh by done. by apply Hkeep. }
  rewrite lookup_insert_eq in Hh. injection Hh as <-.
  assert (Hold : wellFormed (default createHistogram (segments acc !! segment)) ∧
                 (total (sends (default createHistogram (segments acc !! segment))) ≤ sent)%N).
  { destruct (segments acc !! segment) as [h |] eqn:Hh; cbn [from_option id].
    - destruct (Hsegments segment h Hh) as (_ & ? & ?). split; [done | lia].
    - split; [apply createHistogram_wellFormed | rewrite createHistogram_total; lia]. }
  destruct Hold as [Hwf' Hle].
  destruct (record_total hour_ wasClicked _ Hhour Hwf') as [Hs' _].
  split; [done |]. split; [by apply record_wellFormed |]. lia.
Qed.

Lemma addMessages_tallies tagsOf msgs : ∀ acc sent clicked,
  tallies acc sent clicked →
  (∀ message, message ∈ msgs → is_Some (m_sentAt message)) →
  tallies (foldl (addMessage tagsOf) acc msgs)
    (sent + N.of_nat (length msgs))
    (clicked + N.of_nat (length (filter (λ message, is_Some (m_clickedAt message)) msgs))).
Proof.
  induction msgs as [| message msgs IH]; intros acc sent clicked Hacc Hsent.
  - cbn. by rewrite !N.add_0_r.
  - cbn [foldl].
    pose proof (addMessage_tallies tagsOf acc message sent clicked Hacc
                  (Hsent message ltac:(by left))) as Hstep.
    specialize (IH _ _ _ Hstep (λ m Hm, Hsent m ltac:(by right))).
    rewrite filter_cons. cbn [length].
    case_bool_decide as Hclick.
    + rewrite decide_True by done. cbn [length].
      replace (sent + N.of_nat (S (length msgs)))%N with (sent + 1 + N.of_nat (length msgs))%N by lia.
      replace (clicked + N.of_nat (S (length (filter (λ m, is_Some (m_clickedAt m)) msgs))))%N
        with (clicked + 1 + N.of_nat (length (filter (λ m, is_Some (m_clickedAt m)) msgs)))%N by lia.
      exact IH.
    + rewrite decide_False by done.
      replace (sent + N.of_nat (S (length msgs)))%N with (sent + 1 + N.of_nat (length msgs))%N by lia.
      rewrite N.add_0_r in IH. exact IH.
Qed.

(** X3 (buildHistograms): the global histogram has 168 buckets, never
    more clicks than sends in a bucket, and its totals are the number of
    messages with a send time and the number of those that were clicked.
    Each segment histogram is stored under a non-empty segment name, has
    the same shape, and holds between one send and all of them. *)
Theorem buildHistograms_tallies st :
  tallies (buildHistograms st)
    (N.of_nat (length (sentMessages st))) (N.of_nat (length (clickedMessages st))).
Proof.
  unfold buildHistograms, clickedMessages.
  pose proof (addMessages_tallies
    (λ cid, default [] (c_tags <$> contacts st !! cid)) (sentMessages st)
    {| global := createHistogram; segments := ∅ |} 0 0) as H.
  rewrite !N.add_0_l in H. apply H.
  - unfold tallies. cbn [global segments].
    split; [apply createHistogram_wellFormed |]. split; [apply createHistogram_total |].
    split; [apply OptimizerFacts.total_zero; intros n Hn;
            by apply elem_of_replicate in Hn as [-> _] |].
    intros segment h Hh. by rewrite lookup_empty in Hh.
  - intros message Hin. by apply list_elem_of_filter in Hin as [? _].
Qed.

(** X4 (computePrior, scoreHistogram, pickBestHour): on histograms with
    168 buckets and no more clicks than sends per bucket, the prior lies in
    [0, 1], the smoothed score of every hour under such a prior lies in
    [0, 1], and the best hour is reported with a finite score and a
    baseline that both lie in [0, 1]. *)
Theorem scores_are_rates histogram fallback :
  wellFormed histogram → wellFormed fallback →
  (0 <= computePrior histogram <= 1)%Q ∧
  (∀ hour_ prior, (0 <= prior <= 1)%Q →
     (0 <= scoreHistogram hour_ histogram prior <= 1)%Q) ∧
  ∃ best, score (pickBestHour histogram fallback) = Finite best ∧ (0 <= best <= 1)%Q ∧
          (0 <= baseline (pickBestHour histogram fallback) <= 1)%Q.
Proof.
  intros Hwf Hfb.
  assert (Hrate : ∀ a b : N, (a ≤ b)%N → (0 < b)%N → (0 <= ofCount a / ofCount b <= 1)%Q).
  { intros a b Hab Hb.
    pose proof (OptimizerFacts.ofCount_nonneg a).
    assert (0 < ofCount b)%Q by (apply (OptimizerFacts.ofCount_lt 0 b); lia).
    assert (ofCount a <= ofCount b)%Q by (unfold ofCount; rewrite <- Zle_Qle; lia).
    split; [apply Qle_shift_div_l; lra | apply Qle_shift_div_r; lra]. }
  assert (Hprior : ∀ h, wellFormed h → (0 <= computePrior h <= 1)%Q).
  { intros h (Hs & Hc & Hle). unfold computePrior.
    case_bool_decide as Hzero; [split; discriminate |].
    apply Hrate; [| lia]. apply total_le; [congruence | exact Hle]. }
  assert (Hscore : ∀ h hour_ prior, wellFormed h → (0 <= prior <= 1)%Q →
            (0 <= scoreHistogram hour_ h prior <= 1)%Q).
  { intros h hour_ prior (_ & _ & Hle) Hp. unfold scoreHistogram, SMOOTHING_ALPHA.
    specialize (Hle hour_).
    pose proof (OptimizerFacts.ofCount_nonneg (default 0%N (clicks h !! hour_))).
    pose proof (OptimizerFacts.ofCount_nonneg (default 0%N (sends h !! hour_))).
    assert (ofCount (default 0%N (clicks h !! hour_)) <=
            ofCount (default 0%N (sends h !! hour_)))%Q
      by (unfold ofCount; rewrite <- Zle_Qle; lia).
    split; [apply Qle_shift_div_l; lra | apply Qle_shift_div_r; lra]. }
  split; [by apply Hprior |]. split; [intros; by apply Hscore |].
  unfold pickBestHour. cbn [score baseline].
  assert (Hpos : 0 < HOURS_PER_WEEK) by (unfold HOURS_PER_WEEK; lia).
  destruct (OptimizerFacts.scanned_pos histogram _ _ Hpos
              (OptimizerFacts.scanHours_scanned histogram HOURS_PER_WEEK))
    as (_ & -> & _).
  eexists. split; [reflexivity |]. split.
  - apply Hscore; [done | by apply Hprior].
  - apply Hscore; [done | by apply Hprior].
Qed.

Lemma scores_are_rates_witness :
  (0 <= computePrior (record 5 true createHistogram) <= 1)%Q ∧
  (∀ hour_ prior, (0 <= prior <= 1)%Q →
     (0 <= scoreHistogram hour_ (record 5 true createHistogram) prior <= 1)%Q) ∧
  ∃ best,
    score (pickBestHour (record 5 true createHistogram) createHistogram) = Finite best ∧
    (0 <= best <= 1)%Q ∧
    (0 <= baseline (pickBestHour (record 5 true createHistogram) createHistogram) <= 1)%Q.
Proof.
  apply (scores_are_rates (record 5 true createHistogram) createHistogram).
  - apply record_wellFormed, createHistogram_wellFormed.
  - apply createHistogram_wellFormed.
Defined.

Lemma split_plain sep s : hasChar sep s = false → split sep s = [s].
Proof.
  induction s as [| c s IH]; [done |]. cbn [hasChar split].
  intros [Hc Hs]%orb_false_iff. rewrite Hc, (IH Hs). done.
Qed.

Lemma split_first sep s rest :
  hasChar sep s = false →
  split sep (s +:+ String sep rest) = s :: split sep rest.
Proof.
  induction s as [| c s IH]; simpl.
  - intros _. by rewrite Ascii.eqb_refl.
  - intros [Hc Hs]%orb_false_iff. by rewrite Hc, (IH Hs).
Qed.

Lemma prefix_split p : ∀ s, String.prefix p s = true → ∃ rest, s = p +:+ rest.
Proof.
  induction p as [| a p IH]; intros s H; [by exists s |].
  destruct s as [| b s]; [done |]. cbn in H.
  destruct (ascii_dec a b) as [-> |]; [| done].
  destruct (IH s H) as [rest ->]. by exists rest.
Qed.

Lemma prefix_append p s : String.prefix p (p +:+ s) = true.
Proof.
  induction p as [| a p IH]; [by destruct s |].
  simpl. destruct (ascii_dec a a); [exact IH | congruence].
Qed.

Lemma find_skip {A} (f : A → bool) (before : list A) x after :
  (∀ y, y ∈ before → f y = false) → f x = true →
  List.find f (before ++ x :: after) = Some x.
Proof.
  induction before as [| y before IH]; intros Hnone Hx; cbn [app List.find].
  - by rewrite Hx.
  - rewrite (Hnone y) by (by left). apply IH; [| done]. intros z Hz. apply Hnone. by right.
Qed.

(** X5 (getSegmentTag): no segment is read exactly when no tag starts
    with "segment=".  Otherwise the first such tag decides alone: the
    segment is what follows the prefix, cut at the next "=" if there is
    one; later segment tags are ignored. *)
Theorem getSegmentTag_reads_first_segment :
  (∀ tags, getSegmentTag tags = None ↔
           ∀ tag, tag ∈ tags → String.prefix SEGMENT_TAG_PREFIX tag = false) ∧
  (∀ before name after,
     (∀ tag, tag ∈ before → String.prefix SEGMENT_TAG_PREFIX tag = false) →
     hasChar "=" name = false →
     getSegmentTag (before ++ (SEGMENT_TAG_PREFIX +:+ name) :: after) = Some name) ∧
  (∀ before name rest after,
     (∀ tag, tag ∈ before → String.prefix SEGMENT_TAG_PREFIX tag = false) →
     hasChar "=" name = false →
     getSegmentTag (before ++ (SEGMENT_TAG_PREFIX +:+ name +:+ "=" +:+ rest) :: after)
       = Some name).
Proof.
  split; [| split].
  - intros tags. unfold getSegmentTag.
    destruct (List.find _ tags) as [tag |] eqn:Hfind.
    + apply find_some in Hfind as [Hin Hprefix]. split.
      * intros Hnone. exfalso.
        apply prefix_split in Hprefix as [rest ->].
        unfold SEGMENT_TAG_PREFIX in Hnone.
        change ("segment=" +:+ rest) with ("segment" +:+ String "=" rest) in Hnone.
        rewrite split_first in Hnone by reflexivity.
        clear -Hnone. destruct rest; cbn in Hnone; [done |].
        destruct (Ascii.eqb _ _), (split _ rest); done.
      * intros Hnone. apply list_elem_of_In in Hin. rewrite (Hnone tag Hin) in Hprefix. done.
    + split; [| done]. intros _ tag Hin.
      apply list_elem_of_In in Hin. exact (find_none _ _ Hfind tag Hin).
  - intros before name after Hbefore Hname. unfold getSegmentTag.
    rewrite (find_skip _ before _ after Hbefore) by apply prefix_append.
    unfold SEGMENT_TAG_PREFIX.
    change ("segment=" +:+ name) with ("segment" +:+ String "=" name).
    rewrite split_first by reflexivity. by rewrite split_plain.
  - intros before name rest after Hbefore Hname. unfold getSegmentTag.
    rewrite (find_skip _ before _ after Hbefore) by apply prefix_append.
    unfold SEGMENT_TAG_PREFIX.
    change ("segment=" +:+ name +:+ "=" +:+ rest)
      with ("segment" +:+ String "=" (name +:+ String "=" rest)).
    rewrite split_first by reflexivity. by rewrite split_first.
Qed.

(** X6 (getHistograms, resetOptimizerCache): after a reset the first
    call rebuilds the histograms from the stored messages and caches them
    with the time of the call.  Messages recorded afterwards are not seen
    by calls made less than 60 seconds after that time, which return the
    cached histograms and leave the store alone; a call made 60 seconds
    or more after it rebuilds from the messages then stored. *)
Theorem histogram_cache_serves_stale_data clock st :
  let fresh_ := getHistograms clock (resetOptimizerCache st) in
  fresh_.1 = buildHistograms st ∧
  histogramCache fresh_.2 = Some (buildHistograms st, clock) ∧
  ∀ later arrived,
    let st' := with_messages (λ l, l ++ arrived) fresh_.2 in
    ((later - clock < HISTOGRAM_CACHE_TTL_MS)%Z →
       getHistograms later st' = (buildHistograms st, st')) ∧
    ((HISTOGRAM_CACHE_TTL_MS ≤ later - clock)%Z →
       (getHistograms later st').1 = buildHistograms st').
Proof.
  cbv zeta. unfold getHistograms, resetOptimizerCache. cbn.
  split; [done |]. split; [done |]. intros later arrived. split; intros Hage.
  - by rewrite bool_decide_eq_true_2.
  - by rewrite bool_decide_eq_false_2 by lia.
Qed.

Section Audit.

Variable zones : TimeZones.

Lemma recommendSendTime_tables clock contactId referenceDate st :
  sameTables st (recommendSendTime zones clock contactId referenceDate st).2.
Proof.
  unfold recommendSendTime.
  destruct (contacts st !! contactId) as [contact |]; [| apply sameTables_refl].
  case_bool_decide; [apply sameTables_refl |].
  destruct (getHistograms_tables clock st) as [Htables _].
  destruct (getHistograms clock st) as [histograms st1]. cbn [snd] in Htables.
  set (best := pickBestHour _ _). clearbody best.
  set (used := match _ with Some h => existsb _ _ | None => false end). clearbody used.
  assert (Hdone : ∀ at_ throttled_,
    sameTables st (conclude contactId (getSegmentTag (c_tags contact)) used best
                     referenceDate at_ throttled_ st1).2).
  { intros at_ throttled_. unfold conclude. cbn [snd].
    eapply sameTables_trans; [exact Htables |]. unfold sameTables. simpl. auto 10. }
  destruct (getNextDateForHour zones referenceDate (hour best) (c_timezone contact))
    as [at0 | e0]; [| exact Htables].
  destruct (c_lastMessageSentAt contact) as [lastSent |]; [| apply Hdone].
  case_bool_decide; [| apply Hdone].
  destruct (getNextDateForHour zones _ (hour best) (c_timezone contact)) as [at1 | e1];
    [apply Hdone | exact Htables].
Qed.

(** X7 (recommendSendTime): a recommendation writes nothing but the
    histogram cache and the decision log.  When it returns an hour, exactly
    one decision row is appended, and that row repeats the contact, hour,
    time, throttle flag, score and baseline of the recommendation; when it
    returns no hour (unknown or non-ACTIVE contact) or throws, the log is
    unchanged. *)
Theorem recommendSendTime_audit clock contactId referenceDate st :
  let out := recommendSendTime zones clock contactId referenceDate st in
  sameTables st out.2 ∧
  match out.1 with
  | Returned r =>
      match recommendedHour r with
      | Some h =>
          ∃ d, optimizerDecisions out.2 = optimizerDecisions st ++ [d] ∧
               d_contactId d = contactId ∧ d_recommendedHour d = h ∧
               recommendedAt r = Some (d_recommendedAt d) ∧
               d_throttled d = throttled r ∧ d_score d = rec_score r ∧
               d_baselineScore d = baselineScore r ∧ d_generatedAt d = referenceDate
      | None => optimizerDecisions out.2 = optimizerDecisions st
      end
  | Threw _ => optimizerDecisions out.2 = optimizerDecisions st
  end.
Proof.
  cbv zeta. unfold recommendSendTime.
  destruct (contacts st !! contactId) as [contact |]; [| split; [apply sameTables_refl | done]].
  case_bool_decide; [split; [apply sameTables_refl | done] |].
  destruct (getHistograms_tables clock st) as [Htables Hlog].
  destruct (getHistograms clock st) as [histograms st1]. cbn [snd] in Htables, Hlog.
  set (best := pickBestHour _ _). clearbody best.
  set (used := match _ with Some h => existsb _ _ | None => false end). clearbody used.
  assert (Hdone : ∀ at_ throttled_,
    let out := conclude contactId (getSegmentTag (c_tags contact)) used best
                 referenceDate at_ throttled_ st1 in
    sameTables st out.2 ∧
    ∃ d, optimizerDecisions out.2 = optimizerDecisions st ++ [d] ∧
         d_contactId d = contactId ∧ d_recommendedHour d = hour best ∧
         Some at_ = Some (d_recommendedAt d) ∧ d_throttled d = throttled_ ∧
         d_score d = score best ∧ d_baselineScore d = baseline best ∧
         d_generatedAt d = referenceDate).
  { intros at_ throttled_. cbv zeta. unfold conclude. cbn [snd]. split.
    - eapply sameTables_trans; [exact Htables |]. unfold sameTables. simpl. auto 10.
    - eexists. cbn [optimizerDecisions with_optimizerDecisions]. rewrite Hlog.
      split; [reflexivity |]. simpl. auto 10. }
  destruct (getNextDateForHour zones referenceDate (hour best) (c_timezone contact))
    as [at0 | e0]; [| split; [exact Htables | exact Hlog]].
  destruct (c_lastMessageSentAt contact) as [lastSent |]; [| apply Hdone].
  case_bool_decide; [| apply Hdone].
  destruct (getNextDateForHour zones _ (hour best) (c_timezone contact)) as [at1 | e1];
    [apply Hdone | split; [exact Htables | exact Hlog]].
Qed.

End Audit.

End OptimizerMore.

(** * Further properties of the flow engine *)

Module FlowFacts.
Import Flows Views Scenarios Samples.

Lemma findStep_some steps pointer step :
  findStep steps pointer = Some step → step ∈ steps ∧ st_order step = pointer.
Proof.
  unfold findStep. intros H. apply find_some in H as [Hin Hord].
  split; [by apply list_elem_of_In | by apply bool_decide_eq_true_1 in Hord].
Qed.

Lemma findStep_none steps pointer :
  findStep steps pointer = None ↔ ∀ step, step ∈ steps → st_order step ≠ pointer.
Proof.
  unfold findStep. split.
  - intros H step Hin Heq. apply list_elem_of_In in Hin.
    pose proof (find_none _ _ H step Hin) as Hf. simpl in Hf.
    by rewrite bool_decide_eq_true_2 in Hf.
  - intros H. destruct (List.find _ steps) as [step |] eqn:Hfind; [| done].
    apply find_some in Hfind as [Hin Hord]. apply list_elem_of_In in Hin.
    apply bool_decide_eq_true_1 in Hord. by destruct (H step Hin).
Qed.

Lemma getNextOrder_gt current steps : (current < getNextOrder current steps)%Z.
Proof.
  unfold getNextOrder.
  set (later := filter (λ order, current < order)%Z (st_order <$> steps)).
  pose proof (merge_sort_Permutation Z.le later) as Hperm.
  destruct (merge_sort Z.le later) as [| first rest]; [lia |].
  assert (Hfirst : first ∈ later) by (rewrite <- Hperm; by left).
  subst later. by apply list_elem_of_filter in Hfirst as [? _].
Qed.

(** X8 (getNextOrder): the next pointer is always beyond the current one.
    It is [current + 1] when no step has a larger order; otherwise it is
    the least order above [current] that some step of the flow carries. *)
Theorem getNextOrder_least current steps :
  (current < getNextOrder current steps)%Z ∧
  ((∀ step, step ∈ steps → (st_order step ≤ current)%Z) →
     getNextOrder current steps = (current + 1)%Z) ∧
  (∀ step, step ∈ steps → (current < st_order step)%Z →
     (getNextOrder current steps ≤ st_order step)%Z ∧
     ∃ next, next ∈ steps ∧ st_order next = getNextOrder current steps).
Proof.
  unfold getNextOrder.
  set (later := filter (λ order, current < order)%Z (st_order <$> steps)).
  pose proof (merge_sort_Permutation Z.le later) as Hperm.
  pose proof (StronglySorted_merge_sort Z.le later) as Hsorted.
  assert (Hlater : ∀ o, o ∈ later ↔ (current < o)%Z ∧ ∃ s, s ∈ steps ∧ st_order s = o).
  { intros o. subst later. rewrite list_elem_of_filter, list_elem_of_fmap.
    split; intros [? (s & ? & ?)]; eauto. }
  destruct (merge_sort Z.le later) as [| first rest] eqn:Hsort.
  - apply Permutation_nil_l in Hperm.
    split; [lia |]. split; [done |].
    intros step Hin Hlt. exfalso.
    assert (st_order step ∈ later) as Hin' by (apply Hlater; eauto).
    rewrite <- Hperm in Hin'. by apply elem_of_nil in Hin'.
  - assert (Hfirst : first ∈ later) by (rewrite <- Hperm; by left).
    apply Hlater in Hfirst as [Hgt (next & Hnext & Hord)].
    split; [done |]. split.
    + intros Hnone. specialize (Hnone next Hnext). lia.
    + intros step Hin Hlt. split; [| eauto].
      assert (st_order step ∈ first :: rest) as Hin'.
      { rewrite Hperm. apply Hlater. eauto. }
      apply StronglySorted_inv in Hsorted as [_ Hall].
      apply elem_of_cons in Hin' as [-> | Hin']; [lia |].
      by apply (proj1 (Forall_forall _ _) Hall).
Qed.

Lemma filter_length_lt {A} (P Q : A → Prop) `{∀ x, Decision (P x)} `{∀ x, Decision (Q x)}
    (l : list A) x :
  (∀ y, Q y → P y) → x ∈ l → P x → ¬ Q x →
  length (filter Q l) < length (filter P l).
Proof.
  intros Himp Hin HP HQ.
  assert (Hle : ∀ k : list A, length (filter Q k) ≤ length (filter P k)).
  { induction k as [| y k IH]; [done |]. rewrite !filter_cons.
    destruct (decide (Q y)) as [Hy | Hy].
    - rewrite decide_True by auto. simpl. lia.
    - destruct (decide (P y)); simpl; lia. }
  induction l as [| y l IH]; [by apply elem_of_nil in Hin |].
  rewrite !filter_cons. apply elem_of_cons in Hin as [<- | Hin].
  - rewrite decide_False, decide_True by done. simpl. specialize (Hle l). lia.
  - specialize (IH Hin). destruct (decide (Q y)) as [Hy | Hy].
    + rewrite decide_True by auto. simpl. lia.
    + destruct (decide (P y)); simpl; lia.
Qed.


Lemma contactsKept_refl st : contactsKept st st.
Proof.
  intros cid. destruct (contacts st !! cid); constructor.
  unfold sameButLastSent. auto 10.
Qed.

Lemma contactsKept_trans a b c : contactsKept a b → contactsKept b c → contactsKept a c.
Proof.
  intros Hab Hbc cid. specialize (Hab cid). specialize (Hbc cid).
  destruct Hab as [x y Hxy |]; inversion Hbc as [y' z Hyz |]; subst; constructor.
  unfold sameButLastSent in *. intuition congruence.
Qed.

Lemma contactsKept_touch st cid sentAt :
  contactsKept st (with_contacts (alter (touchLastSent sentAt) cid) st).
Proof.
  intros cid'. cbn [contacts with_contacts].
  destruct (decide (cid = cid')) as [-> | Hne].
  - rewrite lookup_alter_eq. destruct (contacts st !! cid'); constructor.
    unfold sameButLastSent. simpl. auto 10.
  - rewrite lookup_alter_ne by done. destruct (contacts st !! cid'); constructor.
    unfold sameButLastSent. auto 10.
Qed.

Lemma footprint_tables run a b : sameTables a b → footprint run a b [].
Proof.
  unfold sameTables, footprint. intros (Hc & Hs & He & Hm & Hf & Ht & Hr & Hg).
  split; [exists id; rewrite <- Hr; symmetry; by apply alter_id |].
  split; [by rewrite app_nil_r |].
  split; [intros m Hm'; by apply elem_of_nil in Hm' |].
  split; [| auto].
  intros cid. rewrite <- Hc. apply contactsKept_refl.
Qed.

Lemma footprint_update run a b new g :
  footprint run a b new → footprint run a (updateFlowRun (run_id run) g b) new.
Proof.
  unfold footprint, updateFlowRun. intros ([f Hf] & Hrest).
  split; [| exact Hrest].
  exists (g ∘ f). cbn [flowRuns with_flowRuns]. rewrite Hf. apply alter_alter_eq.
Qed.

Lemma footprint_message run a b m :
  m_flowRunId m = Some (run_id run) →
  m_contactId m = r_contactId (run_row run) →
  footprint run a b [] → footprint run a (with_messages (λ l, l ++ [m]) b) [m].
Proof.
  unfold footprint. intros Hrun Hcontact (Hf & Hm & _ & Hrest).
  split; [exact Hf |]. split; [cbn; by rewrite Hm, app_nil_r |].
  split; [| exact Hrest].
  intros m' Hm'. apply list_elem_of_singleton in Hm' as ->. done.
Qed.

Lemma footprint_touch run a b new cid sentAt :
  footprint run a b new →
  footprint run a (with_contacts (alter (touchLastSent sentAt) cid) b) new.
Proof.
  unfold footprint. intros (Hf & Hm & Hn & Hk & Hrest).
  split; [exact Hf |]. split; [exact Hm |]. split; [exact Hn |]. split; [| exact Hrest].
  eapply contactsKept_trans; [exact Hk | apply contactsKept_touch].
Qed.

(** X9 (buildTagRecord): no record is built exactly for an empty tag
    list.  Otherwise the record has one entry per tag up to eight, the
    entry at position i (from 0) has key "tag_" followed by i + 1 and the
    i-th tag as value, and all keys are different; tags beyond the eighth
    are dropped. *)
Theorem buildTagRecord_entries tags :
  (buildTagRecord tags = None ↔ tags = []) ∧
  ∀ entries, buildTagRecord tags = Some entries →
    length entries = Nat.min 8 (length tags) ∧
    (∀ i entry, entries !! i = Some entry ↔
       i < 8 ∧ entry.1 = "tag_" +:+ pretty (S i) ∧ tags !! i = Some entry.2) ∧
    (∀ i j a b, entries !! i = Some a → entries !! j = Some b → a.1 = b.1 → i = j).
Proof.
  unfold buildTagRecord. split.
  - destruct tags; cbn; split; intros; done.
  - case_bool_decide; [done |]. intros entries [= <-].
    assert (Hlookup : ∀ i entry,
      imap (λ index tag, ("tag_" +:+ pretty (S index), tag)) (take 8 tags) !! i = Some entry ↔
      i < 8 ∧ entry.1 = "tag_" +:+ pretty (S i) ∧ tags !! i = Some entry.2).
    { intros i [key tag]. rewrite list_lookup_imap_Some. cbn [fst snd]. split.
      - intros (tag' & Htake & [= -> ->]). apply lookup_take_Some in Htake as [Htag Hlt]. done.
      - intros (Hlt & -> & Htag). exists tag. split; [| done].
        by apply lookup_take_Some. }
    split; [by rewrite length_imap, length_take |]. split; [exact Hlookup |].
    intros i j a b Ha Hb Hkey.
    apply Hlookup in Ha as (_ & Hka & _). apply Hlookup in Hb as (_ & Hkb & _).
    rewrite Hka, Hkb in Hkey. apply String.app_inj in Hkey.
    apply pretty_nat_inj in Hkey. lia.
Qed.

Section Engine.

Variable zones : TimeZones.
Variable sendEmail : Transport.
Variable clock : Z.

Lemma executeSendStep_ineligible run now st :
  c_email (run_contact run) = "" ∨ c_status (run_contact run) ≠ ACTIVE →
  ∃ why,
    executeSendStep zones sendEmail clock run now st =
      (Returned tt, updateFlowRun (run_id run) (markCancelled now why None) st).
Proof.
  intros Hbad. unfold executeSendStep.
  case_bool_decide as Hemail; [eauto |].
  case_bool_decide as Hstatus; [eauto |].
  destruct Hbad; done.
Qed.

(** The three ways a send step ends for a contact that can be mailed. *)
Lemma executeSendStep_eligible run now st :
  c_email (run_contact run) ≠ "" →
  c_status (run_contact run) = ACTIVE →
  ∃ st1,
    sameTables st st1 ∧
    (f_useOptimizer (run_flow run) = false → st1 = st) ∧
    ((∃ at_, f_useOptimizer (run_flow run) = true ∧
             (at_ - now > SCHEDULE_THRESHOLD_MS)%Z ∧
             executeSendStep zones sendEmail clock run now st =
               (Returned tt,
                updateFlowRun (run_id run) (markCompleted now (afterSend run))
                  (with_messages (λ l, l ++ [scheduledMessage run at_]) st1))) ∨
     (∃ resendId, sendEmail (emailFor run) = Returned resendId ∧
             executeSendStep zones sendEmail clock run now st =
               (Returned tt,
                updateFlowRun (run_id run) (markCompleted now (afterSend run))
                  (with_contacts (alter (touchLastSent clock) (r_contactId (run_row run)))
                    (with_messages (λ l, l ++ [sentMessage run resendId clock]) st1)))) ∨
     (∃ error, sendEmail (emailFor run) = Threw error ∧
             executeSendStep zones sendEmail clock run now st =
               (Threw error,
                updateFlowRun (run_id run) (markFailed (error_message error)) st1))).
Proof.
  intros Hemail Hstatus. unfold executeSendStep.
  rewrite (bool_decide_eq_false_2 _ Hemail).
  rewrite bool_decide_eq_false_2 by (intros H; by apply H).
  fold (emailFor run). fold (afterSend run).
  set (opt := if f_useOptimizer (run_flow run) then _ else _).
  assert (Hopt : sameTables st opt.2 ∧
                 (f_useOptimizer (run_flow run) = false → opt = (None, st))).
  { subst opt. destruct (f_useOptimizer (run_flow run)); [| split; [apply OptimizerMore.sameTables_refl | done]].
    split; [| done].
    pose proof (OptimizerMore.recommendSendTime_tables zones clock
                  (r_contactId (run_row run)) now st) as Htables.
    by destruct (Optimizer.recommendSendTime _ _ _ _ _) as [[? | ?] ?]. }
  destruct Hopt as [Htables Hoff].
  destruct opt as [[at_ |] st1] eqn:Hopt; cbn [snd] in Htables; exists st1;
    (split; [exact Htables |]);
    (split; [intros Hno; by injection (Hoff Hno) |]).
  - case_bool_decide as Hlate.
    + left. exists at_. split; [| done].
      destruct (f_useOptimizer (run_flow run)); [done |]. by specialize (Hoff eq_refl).
    + right. destruct (sendEmail (emailFor run)) as [resendId | error]; [left | right]; eauto.
  - right. destruct (sendEmail (emailFor run)) as [resendId | error]; [left | right]; eauto.
Qed.

Lemma executeSendStep_footprint run now st :
  ∃ new,
    footprint run st (executeSendStep zones sendEmail clock run now st).2 new ∧
    match (executeSendStep zones sendEmail clock run now st).1 with
    | Returned _ => length new ≤ 1
    | Threw _ => new = []
    end.
Proof.
  destruct (decide (c_email (run_contact run) = "")) as [Hemail | Hemail].
  { destruct (executeSendStep_ineligible run now st (or_introl Hemail)) as [why ->].
    exists []. split; [| simpl; lia].
    apply footprint_update, footprint_tables, OptimizerMore.sameTables_refl. }
  destruct (decide (c_status (run_contact run) = ACTIVE)) as [Hactive | Hinactive].
  2: { destruct (executeSendStep_ineligible run now st (or_intror Hinactive)) as [why ->].
       exists []. split; [| simpl; lia].
       apply footprint_update, footprint_tables, OptimizerMore.sameTables_refl. }
  destruct (executeSendStep_eligible run now st Hemail Hactive)
    as (st1 & Htables & _ & [(at_ & _ & _ & ->) | [(resendId & _ & ->) | (error & _ & ->)]]).
  - exists [scheduledMessage run at_]. split; [| simpl; lia].
    apply footprint_update, footprint_message; [done | done |].
    by apply footprint_tables.
  - exists [sentMessage run resendId clock]. split; [| simpl; lia].
    apply footprint_update, footprint_touch, footprint_message; [done | done |].
    by apply footprint_tables.
  - exists []. split; [| done].
    by apply footprint_update, footprint_tables.
Qed.

Lemma walk_footprint run now : ∀ fuel pointer st outcome st',
  walk zones sendEmail clock fuel run now pointer st = Some (outcome, st') →
  ∃ new,
    footprint run st st' new ∧
    match outcome with
    | Returned result => flags result = 1 ∧ length new ≤ count (res_completed result) 0
    | Threw _ => new = []
    end.
Proof.
  induction fuel as [| fuel IH]; intros pointer st outcome st'; [done |].
  cbn [walk].
  assert (Hstay : ∀ g result,
    flags result = 1 →
    Some (Returned result, updateFlowRun (run_id run) g st) = Some (outcome, st') →
    ∃ new, footprint run st st' new ∧
      match outcome with
      | Returned result => flags result = 1 ∧ length new ≤ count (res_completed result) 0
      | Threw _ => new = []
      end).
  { intros g result Hflags [= <- <-]. exists []. split; [| split; [done | simpl; lia]].
    apply footprint_update, footprint_tables, OptimizerMore.sameTables_refl. }
  destruct (findStep (f_steps (run_flow run)) pointer) as [step |]; [| by apply Hstay].
  destruct (st_type step).
  - apply IH.
  - destruct (Qle_bool _ 0); [apply IH | by apply Hstay].
  - destruct (extractSegmentId _ _) as [segmentId |]; [| apply IH].
    destruct (_ || _); [apply IH | by apply Hstay].
  - destruct (executeSendStep_footprint run now st) as (new & Hfoot & Hnew).
    destruct (executeSendStep zones sendEmail clock run now st) as [[[] | error] st1];
      cbn [fst snd] in *; intros [= <- <-]; exists new; split; done.
Qed.

(** The loop leaves once it has seen each step at or after the pointer. *)
Lemma walk_enough_fuel run now : ∀ fuel pointer st,
  length (filter (λ step, pointer ≤ st_order step)%Z (f_steps (run_flow run))) < fuel →
  is_Some (walk zones sendEmail clock fuel run now pointer st).
Proof.
  induction fuel as [| fuel IH]; intros pointer st Hfuel; [lia |].
  assert (Hnext : ∀ step, findStep (f_steps (run_flow run)) pointer = Some step →
    is_Some (walk zones sendEmail clock fuel run now
               (getNextOrder pointer (f_steps (run_flow run))) st)).
  { intros step [Hin Hord]%findStep_some. apply IH.
    pose proof (getNextOrder_gt pointer (f_steps (run_flow run))) as Hgt.
    eapply Nat.lt_le_trans; [| apply Nat.lt_succ_r, Hfuel].
    apply (filter_length_lt _ _ _ step); [intros; lia | done | lia | lia]. }
  cbn [walk]. destruct (findStep (f_steps (run_flow run)) pointer) as [step |] eqn:Hstep;
    [| done].
  specialize (Hnext step eq_refl).
  destruct (st_type step); try done.
  - destruct (Qle_bool _ 0); done.
  - destruct (extractSegmentId _ _) as [segmentId |]; [| done].
    destruct (_ || _); done.
  - destruct (executeSendStep _ _ _ _ _ _) as [[? | ?] ?]; done.
Qed.

Lemma processSingleRun_returns run now st :
  is_Some (processSingleRun zones sendEmail clock run now st).
Proof.
  apply walk_enough_fuel. pose proof (length_filter
    (λ step, r_nextStepOrder (run_row run) ≤ st_order step)%Z (f_steps (run_flow run))).
  lia.
Qed.

Lemma tallied_bump s result :
  tallied {| evaluated := evaluated s;
             completed := count (res_completed result) (completed s);
             rescheduled := count (res_rescheduled result) (rescheduled s);
             cancelled := count (res_cancelled result) (cancelled s);
             failed := failed s |} = tallied s + flags result.
Proof.
  unfold tallied, flags. cbn [completed rescheduled cancelled failed].
  destruct (res_completed result), (res_rescheduled result), (res_cancelled result);
    unfold count; lia.
Qed.

(** One pass of the [for] loop body over a run. *)
Lemma processRun_effect now run s st :
  ∃ s' st' new,
    processRun zones sendEmail clock now run (s, st) = Some (s', st') ∧
    footprint run st st' new ∧
    evaluated s' = evaluated s ∧ tallied s' = S (tallied s) ∧
    completed s ≤ completed s' ∧ length new ≤ completed s' - completed s.
Proof.
  unfold processRun.
  destruct (processSingleRun_returns run now st) as [[outcome st1] Hwalk].
  rewrite Hwalk. unfold processSingleRun in Hwalk.
  apply walk_footprint in Hwalk as (new & Hfoot & Hout).
  destruct outcome as [result | error].
  - destruct Hout as [Hflags Hnew]. eexists _, st1, new. split; [reflexivity |].
    split; [exact Hfoot |]. split; [done |].
    rewrite tallied_bump, Hflags. cbn [completed].
    destruct (res_completed result); unfold count in *; repeat split; lia.
  - subst new. eexists _, _, []. split; [reflexivity |].
    split; [by apply footprint_update |].
    unfold tallied. cbn. repeat split; lia.
Qed.

Lemma footprint_other run a b new rid :
  footprint run a b new → rid ≠ run_id run → flowRuns b !! rid = flowRuns a !! rid.
Proof. intros ([f ->] & _) Hne. by rewrite lookup_alter_ne. Qed.

(** The whole loop over the loaded runs. *)
Lemma processRuns_effect now runs : ∀ s st,
  ∃ s' st' new,
    foldl (λ acc run, acc ≫= processRun zones sendEmail clock now run) (Some (s, st)) runs
      = Some (s', st') ∧
    evaluated s' = evaluated s ∧ tallied s' = tallied s + length runs ∧
    completed s ≤ completed s' ∧ length new ≤ completed s' - completed s ∧
    messages st' = messages st ++ new ∧
    (∀ m, m ∈ new → ∃ run, run ∈ runs ∧ m_flowRunId m = Some (run_id run) ∧
                           m_contactId m = r_contactId (run_row run)) ∧
    (∀ rid, rid ∉ run_id <$> runs → flowRuns st' !! rid = flowRuns st !! rid) ∧
    contactsKept st st' ∧
    flows st' = flows st ∧ templates st' = templates st ∧
    segmentMemberships st' = segmentMemberships st ∧ suppressions st' = suppressions st ∧
    hygieneEvaluations st' = hygieneEvaluations st.
Proof.
  induction runs as [| run runs IH]; intros s st.
  - exists s, st, []. cbn [foldl length]. rewrite app_nil_r.
    repeat split; try done; try lia.
    + intros m Hm. by apply elem_of_nil in Hm.
    + apply contactsKept_refl.
  - cbn [foldl mbind option_bind].
    destruct (processRun_effect now run s st)
      as (s1 & st1 & new1 & -> & Hfoot & Hev1 & Htal1 & Hc1 & Hn1).
    destruct (IH s1 st1)
      as (s' & st' & new2 & -> & Hev & Htal & Hc & Hn & Hmsg & Hown & Hother & Hkept & Hrest).
    pose proof Hfoot as (_ & Hmsg1 & Hown1 & Hkept1 & Hf1 & Ht1 & Hg1 & Hs1 & He1).
    destruct Hrest as (Hf & Ht & Hg & Hs & He).
    exists s', st', (new1 ++ new2). split; [reflexivity |].
    split; [congruence |]. split; [cbn [length]; lia |]. split; [lia |].
    split; [rewrite length_app; lia |].
    split; [by rewrite Hmsg, Hmsg1, app_assoc |].
    split.
    { intros m [Hm | Hm]%elem_of_app.
      - exists run. destruct (Hown1 m Hm). split; [by left | done].
      - destruct (Hown m Hm) as (run' & Hin & Hids). exists run'. split; [by right | done]. }
    split.
    { intros rid Hrid. rewrite fmap_cons, not_elem_of_cons in Hrid. destruct Hrid as [Hne Hrid].
      rewrite (Hother rid Hrid). by apply (footprint_other run st st1 new1). }
    split; [by eapply contactsKept_trans |].
    repeat split; congruence.
Qed.

Lemma processRuns_dom now runs : ∀ s st s' st',
  foldl (λ acc run, acc ≫= processRun zones sendEmail clock now run) (Some (s, st)) runs
    = Some (s', st') →
  dom (flowRuns st') = dom (flowRuns st).
Proof.
  induction runs as [| run runs IH]; intros s st s' st'; cbn [foldl mbind option_bind].
  - by intros [= <- <-].
  - destruct (processRun_effect now run s st) as (s1 & st1 & new1 & -> & Hfoot & _).
    intros Hrest. rewrite (IH _ _ _ _ Hrest).
    destruct Hfoot as ([f ->] & _). apply dom_alter_L.
Qed.

Lemma dueRuns_elem now limit st run :
  run ∈ dueRuns now limit st →
  flowRuns st !! run_id run = Some (run_row run) ∧ isDue now (run_row run) = true.
Proof.
  unfold dueRuns. intros (entry & Hin & Hload)%list_elem_of_omap.
  apply elem_of_take in Hin as (i & Hin & _). apply list_elem_of_lookup_2 in Hin.
  rewrite merge_sort_Permutation in Hin.
  apply list_elem_of_filter in Hin as [Hdue Hin].
  destruct entry as [rid row]. apply elem_of_map_to_list in Hin.
  unfold loadRun in Hload. cbn [fst snd] in *.
  destruct (flows st !! r_flowId row) as [flow |]; [| done]. cbn in Hload.
  destruct (templates st !! f_templateId flow); [| done]. cbn in Hload.
  destruct (contacts st !! r_contactId row); [| done]. cbn in Hload.
  injection Hload as <-. cbn. split; [done | by apply Is_true_true].
Qed.








(** X15 (processDueFlowRuns): a run that is COMPLETED, CANCELLED or
    FAILED, or whose scheduled time is after the tick's time, is left
    exactly as it was. *)
Theorem tick_leaves_settled_runs options st s st' rid row :
  processDueFlowRuns zones sendEmail clock options st = Some (s, st') →
  flowRuns st !! rid = Some row →
  terminal (r_status row) ∨ (default clock (opt_now options) < r_scheduledAt row)%Z →
  flowRuns st' !! rid = Some row.
Proof.
  unfold processDueFlowRuns.
  set (now := default clock (opt_now options)).
  set (limit := default 20 (opt_limit options)).
  intros Htick Hrow Hsettled.
  destruct (processRuns_effect now (dueRuns now limit st)
              {| evaluated := length (dueRuns now limit st); completed := 0;
                 rescheduled := 0; cancelled := 0; failed := 0 |} st)
    as (s1 & st1 & new & Heq & _ & _ & _ & _ & _ & _ & Hother & _).
  rewrite Heq in Htick. injection Htick as <- <-.
  rewrite Hother; [done |].
  intros (run & -> & Hin)%list_elem_of_fmap.
  apply dueRuns_elem in Hin as [Hrow' Hdue]. rewrite Hrow in Hrow'.
  injection Hrow' as Hsame. rewrite <- Hsame in Hdue.
  unfold isDue in Hdue. apply andb_true_iff in Hdue as [Hstatus Hat].
  apply bool_decide_eq_true_1 in Hat.
  apply orb_true_iff in Hstatus as [Hs | Hs]; apply bool_decide_eq_true_1 in Hs;
    destruct Hsettled as [[Ht | [Ht | Ht]] | Hlater]; try congruence; lia.
Qed.

(** X16 (processDueFlowRuns, executeSendStep): a tick only appends to
    the message table, at most one message per run it counts as completed,
    and every new message belongs to a run that was due at the tick's time
    and to that run's contact. *)
Theorem tick_appends_messages options st s st' :
  processDueFlowRuns zones sendEmail clock options st = Some (s, st') →
  ∃ new,
    messages st' = messages st ++ new ∧ length new ≤ completed s ∧
    ∀ m, m ∈ new →
      ∃ rid row, flowRuns st !! rid = Some row ∧
                 isDue (default clock (opt_now options)) row = true ∧
                 m_flowRunId m = Some rid ∧ m_contactId m = r_contactId row.
Proof.
  unfold processDueFlowRuns.
  set (now := default clock (opt_now options)).
  set (limit := default 20 (opt_limit options)).
  intros Htick.
  destruct (processRuns_effect now (dueRuns now limit st)
              {| evaluated := length (dueRuns now limit st); completed := 0;
                 rescheduled := 0; cancelled := 0; failed := 0 |} st)
    as (s1 & st1 & new & Heq & _ & _ & _ & Hlen & Hmsg & Hown & _).
  rewrite Heq in Htick. injection Htick as <- <-.
  exists new. split; [done |]. split; [cbn in Hlen; lia |].
  intros m Hm. destruct (Hown m Hm) as (run & Hin & Hrun & Hcontact).
  apply dueRuns_elem in Hin as [Hrow Hdue]. eauto 10.
Qed.

(** X17 (processDueFlowRuns): a tick changes a contact at most in its
    last-send time, creates and deletes no run, and leaves suppressions,
    hygiene evaluations, flows, templates and segment memberships alone. *)
Theorem tick_keeps_contacts options st s st' :
  processDueFlowRuns zones sendEmail clock options st = Some (s, st') →
  contactsKept st st' ∧
  suppressions st' = suppressions st ∧ hygieneEvaluations st' = hygieneEvaluations st ∧
  flows st' = flows st ∧ templates st' = templates st ∧
  segmentMemberships st' = segmentMemberships st ∧
  dom (flowRuns st') = dom (flowRuns st).
Proof.
  unfold processDueFlowRuns.
  set (now := default clock (opt_now options)).
  set (limit := default 20 (opt_limit options)).
  intros Htick. pose proof (processRuns_dom _ _ _ _ _ _ Htick) as Hdom.
  destruct (processRuns_effect now (dueRuns now limit st)
              {| evaluated := length (dueRuns now limit st); completed := 0;
                 rescheduled := 0; cancelled := 0; failed := 0 |} st)
    as (s1 & st1 & new & Heq & _ & _ & _ & _ & _ & _ & _ & Hkept & Hf & Ht & Hg & Hs & He).
  rewrite Heq in Htick. injection Htick as <- <-. auto 10.
Qed.

End Engine.





Lemma tick_leaves_settled_runs_witness :
  ∃ s st',
    processDueFlowRuns fixedZones okTransport 100 (tickAt 10) engineStore = Some (s, st') ∧
    flowRuns st' !! "run-old" = Some (runOf "flow-2" "contact-1" COMPLETED 3 0) ∧
    flowRuns st' !! "run-later" = Some (runOf "flow-2" "contact-1" WAITING 2 900000).
Proof.
  destruct (processDueFlowRuns fixedZones okTransport 100 (tickAt 10) engineStore)
    as [[s st'] |] eqn:Htick; [| vm_compute in Htick; discriminate].
  exists s, st'. split; [reflexivity |]. split.
  - apply (tick_leaves_settled_runs fixedZones okTransport 100 (tickAt 10) engineStore s st'
             "run-old" _ Htick); [reflexivity | left; left; reflexivity].
  - apply (tick_leaves_settled_runs fixedZones okTransport 100 (tickAt 10) engineStore s st'
             "run-later" _ Htick); [reflexivity | right; reflexivity].
Defined.

Lemma tick_appends_messages_witness :
  ∃ s st' new,
    processDueFlowRuns fixedZones okTransport 100 (tickAt 10) engineStore = Some (s, st') ∧
    messages st' = messages engineStore ++ new ∧ length new ≤ completed s ∧
    ∀ m, m ∈ new →
      ∃ rid row, flowRuns engineStore !! rid = Some row ∧ isDue 10 row = true ∧
                 m_flowRunId m = Some rid ∧ m_contactId m = r_contactId row.
Proof.
  destruct (processDueFlowRuns fixedZones okTransport 100 (tickAt 10) engineStore)
    as [[s st'] |] eqn:Htick; [| vm_compute in Htick; discriminate].
  destruct (tick_appends_messages fixedZones okTransport 100 (tickAt 10) engineStore s st' Htick)
    as (new & Hnew).
  exists s, st', new. split; [reflexivity | exact Hnew].
Defined.

Lemma tick_keeps_contacts_witness :
  ∃ s st',
    processDueFlowRuns fixedZones okTransport 100 (tickAt 10) engineStore = Some (s, st') ∧
    contactsKept engineStore st' ∧ suppressions st' = [] ∧
    dom (flowRuns st') = dom (flowRuns engineStore).
Proof.
  destruct (processDueFlowRuns fixedZones okTransport 100 (tickAt 10) engineStore)
    as [[s st'] |] eqn:Htick; [| vm_compute in Htick; discriminate].
  destruct (tick_keeps_contacts fixedZones okTransport 100 (tickAt 10) engineStore s st' Htick)
    as (Hkept & Hsupp & _ & _ & _ & _ & Hdom).
  exists s, st'. split; [reflexivity |]. split; [exact Hkept |]. split; [exact Hsupp | exact Hdom].
Defined.

End FlowFacts.

(** * Properties of flow definitions and triggers *)

Module SetupFacts.
Import Flows FlowSetup Views Scenarios Samples.

(** X18 (createFlowDefinition): the steps of a new flow are numbered
    1, 2, ... without gaps, in the order TRIGGER, then DELAY when a delay
    above zero was given, then SEGMENT_FILTER when a non-empty segment was
    given, then SEND_TEMPLATE.  The engine reads back from the DELAY and
    SEGMENT_FILTER steps the minutes and the segment that were given, the
    steps are already in ascending order, and the first step that is not
    the trigger has order 2. *)
Theorem plannedSteps_shape input :
  let steps := plannedSteps input in
  let delayed :=
    match in_delayMinutes input with Some m => Qgtb m 0 | None => false end in
  let filtered :=
    match in_segmentId input with Some s => negb (bool_decide (s = "")) | None => false end in
  st_order <$> steps = Z.of_nat <$> seq 1 (length steps) ∧
  st_type <$> steps =
    [TRIGGER] ++ (if delayed then [DELAY] else []) ++
    (if filtered then [SEGMENT_FILTER] else []) ++ [SEND_TEMPLATE] ∧
  (∀ step, step ∈ steps → st_type step = DELAY →
     in_delayMinutes input = Some (extractDelayMinutes step None)) ∧
  (∀ step, step ∈ steps → st_type step = SEGMENT_FILTER →
     extractSegmentId step None = in_segmentId input) ∧
  merge_sort byOrder steps = steps ∧
  ∃ action, firstAction steps = Some action ∧ st_order action = 2%Z.
Proof.
  cbv zeta. unfold plannedSteps.
  destruct (in_delayMinutes input) as [minutes |] eqn:Hdelay;
    [destruct (Qgtb minutes 0) |];
    (destruct (in_segmentId input) as [segmentId |] eqn:Hsegment;
       [destruct (bool_decide (segmentId = "")) eqn:Hempty |]);
    cbn [negb];
    (split; [reflexivity |]); (split; [reflexivity |]);
    (split; [intros step Hin Htype; cbn in Hin;
             repeat (apply elem_of_cons in Hin as [-> | Hin]; [try discriminate Htype; try reflexivity |]);
             by apply elem_of_nil in Hin |]);
    (split; [intros step Hin Htype; cbn in Hin;
             repeat (apply elem_of_cons in Hin as [-> | Hin]; [try discriminate Htype |]);
             try (by apply elem_of_nil in Hin) |]);
    try (split; [vm_compute; reflexivity | eexists; split; reflexivity]).
  all: cbn; by rewrite Hempty.
Qed.

Section Trigger.

Variable newRunId : gmap string FlowRun → string.

Lemma onlyRunsDiffer_refl st : onlyRunsDiffer st st.
Proof. unfold onlyRunsDiffer. auto 10. Qed.

(** The loop over the matching flows, from any accumulator. *)
Lemma triggerFlow_fold contactId now flows_ : ∀ acc,
  let out := foldl (triggerFlow newRunId contactId now) acc flows_ in
  createdRuns out.1 + skippedFlows out.1 =
    createdRuns acc.1 + skippedFlows acc.1 + length flows_ ∧
  createdRuns acc.1 ≤ createdRuns out.1 ∧
  onlyRunsDiffer acc.2 out.2 ∧
  ((∀ runs, runs !! newRunId runs = None) →
   size (flowRuns out.2) = size (flowRuns acc.2) + (createdRuns out.1 - createdRuns acc.1) ∧
   (∀ rid row, flowRuns acc.2 !! rid = Some row → flowRuns out.2 !! rid = Some row) ∧
   (∀ rid row, flowRuns out.2 !! rid = Some row → flowRuns acc.2 !! rid = None →
      r_status row = PENDING ∧ r_scheduledAt row = now ∧ r_contactId row = contactId ∧
      r_completedAt row = None ∧
      ∃ steps action, (r_flowId row, steps) ∈ flows_ ∧ firstAction steps = Some action ∧
                      r_nextStepOrder row = st_order action)).
Proof.
  induction flows_ as [| flow rest IH]; intros acc; cbv zeta.
  - cbn [foldl length]. split; [lia |]. split; [lia |].
    split; [apply onlyRunsDiffer_refl |]. intros _.
    split; [lia |]. split; [done |]. intros rid row H1 H2. congruence.
  - cbn [foldl].
    destruct (IH (triggerFlow newRunId contactId now acc flow))
      as (Hsum & Hle & Hsame & Hfresh).
    set (out := foldl _ _ rest) in *. clearbody out.
    unfold triggerFlow in *.
    destruct (firstAction flow.2) as [action |] eqn:Haction;
      cbn [fst snd createdRuns skippedFlows] in *.
    + split; [cbn [length]; lia |]. split; [lia |].
      split; [unfold onlyRunsDiffer, createRun in *; cbn in Hsame; exact Hsame |].
      intros Hnew. destruct (Hfresh Hnew) as (Hsize & Hold & Hrows).
      unfold createRun in *. cbn [flowRuns with_flowRuns] in *.
      rewrite map_size_insert_None in Hsize by apply Hnew.
      split; [lia |]. split.
      * intros rid row Hrow. apply Hold.
        rewrite lookup_insert_ne; [done |]. intros <-. by rewrite Hnew in Hrow.
      * intros rid row Hrow Hnone.
        destruct (decide (rid = newRunId (flowRuns acc.2))) as [-> | Hne].
        -- specialize (Hold _ _ (lookup_insert_eq _ _ _)).
           rewrite Hold in Hrow. injection Hrow as <-. cbn.
           repeat split. exists flow.2, action.
           split; [destruct flow; by left | done].
        -- assert (Hpast : <[newRunId (flowRuns acc.2) :=
                     {| r_flowId := flow.1; r_contactId := contactId; r_status := PENDING;
                        r_nextStepOrder := st_order action; r_scheduledAt := now;
                        r_completedAt := None; r_cancelledReason := None |}]>
                     (flowRuns acc.2) !! rid = None) by (by rewrite lookup_insert_ne).
           destruct (Hrows rid row Hrow Hpast) as (? & ? & ? & ? & steps & act & Hin & ?).
           repeat split; try done. exists steps, act. split; [by right | done].
    + split; [cbn [length]; lia |]. split; [lia |]. split; [exact Hsame |].
      intros Hnew. destruct (Hfresh Hnew) as (Hsize & Hold & Hrows).
      split; [lia |]. split; [exact Hold |].
      intros rid row Hrow Hnone.
      destruct (Hrows rid row Hrow Hnone) as (? & ? & ? & ? & steps & act & Hin & ?).
      repeat split; try done. exists steps, act. split; [by right | done].
Qed.

Lemma matchingFlows_elem eventName st flowId steps :
  (flowId, steps) ∈ matchingFlows eventName st →
  ∃ flow, flows st !! flowId = Some flow ∧ f_status flow = FLOW_ACTIVE ∧
          f_triggerEventName flow = eventName ∧ steps = merge_sort byOrder (f_steps flow).
Proof.
  unfold matchingFlows. intros ([fid flow] & [= -> ->] & Hin)%list_elem_of_fmap.
  apply list_elem_of_filter in Hin as [[Hactive Hname] Hin].
  apply elem_of_map_to_list in Hin. eauto.
Qed.

(** X19 (triggerFlowsForEvent): an event changes nothing but the run
    table.  For an unknown contact, one without an address or one that is
    not ACTIVE, nothing is created or skipped and the store is unchanged;
    otherwise every ACTIVE flow triggered by the event's name is either
    given a run or skipped, so the two counters add up to their number. *)
Theorem triggerFlowsForEvent_counts clock input st :
  let out := triggerFlowsForEvent newRunId clock input st in
  let mailable :=
    ∃ contact, contacts st !! ev_contactId input = Some contact ∧
               c_email contact ≠ "" ∧ c_status contact = ACTIVE in
  onlyRunsDiffer st out.2 ∧
  (¬ mailable → out = ({| createdRuns := 0; skippedFlows := 0 |}, st)) ∧
  (mailable →
     createdRuns out.1 + skippedFlows out.1 = length (matchingFlows (ev_eventName input) st)).
Proof.
  cbv zeta. unfold triggerFlowsForEvent.
  destruct (contacts st !! ev_contactId input) as [contact |].
  2: { split; [apply onlyRunsDiffer_refl |]. split; [done | intros (? & [=] & _)]. }
  destruct (bool_decide (c_email contact = "")) eqn:Hemail; cbn [orb].
  { apply bool_decide_eq_true_1 in Hemail.
    split; [apply onlyRunsDiffer_refl |]. split; [done |].
    intros (? & [= <-] & Hne & _). done. }
  destruct (bool_decide (c_status contact ≠ ACTIVE)) eqn:Hstatus.
  { apply bool_decide_eq_true_1 in Hstatus.
    split; [apply onlyRunsDiffer_refl |]. split; [done |].
    intros (? & [= <-] & _ & Hactive). done. }
  apply bool_decide_eq_false_1 in Hemail, Hstatus.
  destruct (triggerFlow_fold (ev_contactId input) (default clock (ev_occurredAt input))
              (matchingFlows (ev_eventName input) st)
              ({| createdRuns := 0; skippedFlows := 0 |}, st)) as (Hsum & _ & Hsame & _).
  cbv zeta in Hsum, Hsame. cbn [fst snd createdRuns skippedFlows] in Hsum, Hsame.
  split; [exact Hsame |]. split; [| intros _; lia].
  intros Hno. exfalso. apply Hno. exists contact. split; [done |]. split; [done |].
  destruct (decide (c_status contact = ACTIVE)); [done | by destruct Hstatus].
Qed.

(** X20 (triggerFlowsForEvent): provided the store gives a new run an id
    no run has yet, the run table grows by exactly [createdRuns] rows and
    keeps the rows it had.  Every new run is PENDING for the event's
    contact, scheduled at the event's time and hence due at any tick from
    then on, belongs to an ACTIVE flow triggered by the event's name, and
    points at that flow's first step that is not the trigger. *)
Theorem triggerFlowsForEvent_runs clock input st :
  (∀ runs, runs !! newRunId runs = None) →
  let now := default clock (ev_occurredAt input) in
  let out := triggerFlowsForEvent newRunId clock input st in
  size (flowRuns out.2) = size (flowRuns st) + createdRuns out.1 ∧
  (∀ rid row, flowRuns st !! rid = Some row → flowRuns out.2 !! rid = Some row) ∧
  (∀ rid row, flowRuns out.2 !! rid = Some row → flowRuns st !! rid = None →
     r_status row = PENDING ∧ r_scheduledAt row = now ∧
     r_contactId row = ev_contactId input ∧
     (∀ later, (now ≤ later)%Z → isDue later row = true) ∧
     ∃ flow action,
       flows st !! r_flowId row = Some flow ∧ f_status flow = FLOW_ACTIVE ∧
       f_triggerEventName flow = ev_eventName input ∧
       firstAction (merge_sort byOrder (f_steps flow)) = Some action ∧
       st_type action ≠ TRIGGER ∧ r_nextStepOrder row = st_order action).
Proof.
  intros Hnew. cbv zeta. unfold triggerFlowsForEvent.
  assert (Hnothing : size (flowRuns st) = size (flowRuns st) + 0 ∧
    (∀ rid row, flowRuns st !! rid = Some row → flowRuns st !! rid = Some row) ∧
    (∀ rid row, flowRuns st !! rid = Some row → flowRuns st !! rid = None →
       r_status row = PENDING ∧ r_scheduledAt row = default clock (ev_occurredAt input) ∧
       r_contactId row = ev_contactId input ∧
       (∀ later, (default clock (ev_occurredAt input) ≤ later)%Z → isDue later row = true) ∧
       ∃ flow action,
         flows st !! r_flowId row = Some flow ∧ f_status flow = FLOW_ACTIVE ∧
         f_triggerEventName flow = ev_eventName input ∧
         firstAction (merge_sort byOrder (f_steps flow)) = Some action ∧
         st_type action ≠ TRIGGER ∧ r_nextStepOrder row = st_order action)).
  { split; [lia |]. split; [done |]. intros rid row H1 H2. congruence. }
  destruct (contacts st !! ev_contactId input) as [contact |]; [| exact Hnothing].
  destruct (_ || _); [exact Hnothing |]. clear Hnothing.
  destruct (triggerFlow_fold (ev_contactId input) (default clock (ev_occurredAt input))
              (matchingFlows (ev_eventName input) st)
              ({| createdRuns := 0; skippedFlows := 0 |}, st)) as (_ & _ & _ & Hruns).
  destruct (Hruns Hnew) as (Hsize & Hold & Hrows). clear Hruns.
  cbn [fst snd createdRuns] in Hsize, Hold, Hrows.
  split; [lia |]. split; [exact Hold |].
  intros rid row Hrow Hnone.
  destruct (Hrows rid row Hrow Hnone) as (Hs & Hat & Hc & _ & steps & action & Hin & Hact & Hp).
  apply matchingFlows_elem in Hin as (flow & Hflow & Hactive & Hname & ->).
  split; [done |]. split; [done |]. split; [done |]. split.
  - intros later Hlater. unfold isDue. rewrite Hs, Hat.
    rewrite (bool_decide_eq_true_2 (PENDING = PENDING)) by done.
    by rewrite (bool_decide_eq_true_2 _ Hlater).
  - exists flow, action. repeat split; try done.
    unfold firstAction in Hact. apply find_some in Hact as [_ Htype].
    by apply bool_decide_eq_true_1 in Htype.
Qed.

End Trigger.

Lemma unusedRunId_fresh runs : runs !! unusedRunId runs = None.
Proof. unfold unusedRunId. apply not_elem_of_dom. apply is_fresh. Qed.

Lemma triggerFlowsForEvent_counts_witness :
  createdRuns (triggerFlowsForEvent unusedRunId 0 (signup "contact-1") engineStore).1 +
  skippedFlows (triggerFlowsForEvent unusedRunId 0 (signup "contact-1") engineStore).1 = 2 ∧
  triggerFlowsForEvent unusedRunId 0 (signup "contact-2") engineStore =
    ({| createdRuns := 0; skippedFlows := 0 |}, engineStore).
Proof.
  split.
  - destruct (triggerFlowsForEvent_counts unusedRunId 0 (signup "contact-1") engineStore)
      as (_ & _ & Hcount).
    rewrite Hcount; [vm_compute; reflexivity |].
    exists (plainContact ACTIVE ["signup"]).
    split; [reflexivity |]. split; [discriminate | reflexivity].
  - apply (triggerFlowsForEvent_counts unusedRunId 0 (signup "contact-2") engineStore).
    intros (contact & Hc & _ & Hactive).
    vm_compute in Hc. injection Hc as <-. discriminate.
Defined.

Lemma triggerFlowsForEvent_runs_witness :
  size (flowRuns (triggerFlowsForEvent unusedRunId 0 (signup "contact-1") engineStore).2) =
  size (flowRuns engineStore) +
  createdRuns (triggerFlowsForEvent unusedRunId 0 (signup "contact-1") engineStore).1.
Proof.
  apply (triggerFlowsForEvent_runs unusedRunId 0 (signup "contact-1") engineStore
           unusedRunId_fresh).
Defined.

End SetupFacts.

(** * Further properties of the hygiene scorer and sweep *)

Module SweepMore.
Import Hygiene HygieneFacts SweepFacts Views Scenarios.

Lemma shouldSuppress_spec input now_ :
  shouldSuppress (computeHygieneScore input now_) =
    bool_decide (riskLevel (computeHygieneScore input now_) = HIGH)
    && negb (bool_decide ("synthetic" ∈ i_tags input)).
Proof.
  unfold computeHygieneScore. destruct (i_status input) eqn:Hst.
  - rewrite bool_decide_eq_true_2 by done.
    pose proof (checks_active (default 0%Q (i_propensity input))
                  (daysSince now_ (i_lastEventAt input))
                  (daysSince now_ (i_lastMessageSentAt input))) as (Hr & _ & Hs).
    cbv zeta in Hr, Hs. set (v := healthy _ _ _) in *. cbv zeta.
    assert (Hlow : v_riskLevel v ≠ HIGH) by (destruct Hr as [Hr | Hr]; by rewrite Hr).
    unfold safeguard. rewrite (bool_decide_eq_false_2 _ Hlow).
    cbn [andb riskLevel shouldSuppress]. by rewrite Hs, (bool_decide_eq_false_2 _ Hlow).
  - cbn. unfold safeguard. cbn. by destruct (bool_decide ("synthetic" ∈ i_tags input)).
  - cbn. unfold safeguard. cbn. by destruct (bool_decide ("synthetic" ∈ i_tags input)).
  - cbn. unfold safeguard. cbn. by destruct (bool_decide ("synthetic" ∈ i_tags input)).
Qed.

(** X21 (computeHygieneScore): the result asks for suppression exactly
    when the status is BOUNCED, COMPLAINED or SUPPRESSED and the contact is
    not tagged "synthetic".  For these statuses the score is 95, 98 and 90
    respectively, whatever the timestamps and the propensity are; the
    result carries the contact's id. *)
Theorem shouldSuppress_iff input now_ :
  let r := computeHygieneScore input now_ in
  (shouldSuppress r = true ↔ excluded (i_status input) ∧ "synthetic" ∉ i_tags input) ∧
  (i_status input = BOUNCED → score r = 95%Q) ∧
  (i_status input = COMPLAINED → score r = 98%Q) ∧
  (i_status input = SUPPRESSED → score r = 90%Q) ∧
  contactId r = i_id input.
Proof.
  cbv zeta. split.
  - rewrite shouldSuppress_spec, andb_true_iff, bool_decide_eq_true, negb_true_iff,
      bool_decide_eq_false.
    by rewrite computeHygieneScore_high_iff.
  - unfold computeHygieneScore, safeguard.
    repeat split; try intros ->; cbn;
      by destruct (bool_decide ("synthetic" ∈ i_tags input)).
Qed.

Lemma scoreContact_high_active c now_ :
  riskLevel (scoreContact c now_) = HIGH ↔ c_status (sc_row c) ≠ ACTIVE.
Proof.
  rewrite scoreContact_high. unfold excluded.
  destruct (c_status (sc_row c)); intuition (discriminate || auto).
Qed.

Lemma shouldApplySuppression_flag options c now_ :
  shouldSuppress (scoreContact c now_) && suppressEnabled options =
  shouldApplySuppression options c (scoreContact c now_).
Proof.
  unfold shouldApplySuppression, scoreContact at 1. rewrite shouldSuppress_spec.
  fold (scoreContact c now_). cbn [i_tags].
  destruct (bool_decide _), (suppressEnabled options), (bool_decide _); done.
Qed.

(** What the rows and risk counters of the loop amount to. *)
Section Tally.

Variable options : HygieneSweepOptions.
Variable now_ : Z.

Lemma sweepContact_evaluationRows acc c :
  ∃ e, a_evaluationRows (sweepContact options now_ acc c) = a_evaluationRows acc ++ [e] ∧
       evaluates options now_ c e.
Proof.
  unfold sweepContact. cbn [a_evaluationRows]. eexists. split; [reflexivity |].
  unfold evaluates. cbn [e_contactId e_riskLevel e_score e_reasons e_suppressed].
  repeat (split; [reflexivity |]). apply shouldApplySuppression_flag.
Qed.

Lemma sweepContact_risk acc c :
  a_highRisk (sweepContact options now_ acc c) =
    a_highRisk acc + length (filter (λ c, c_status (sc_row c) ≠ ACTIVE) [c]) ∧
  a_highRisk (sweepContact options now_ acc c) + a_mediumRisk (sweepContact options now_ acc c)
    + a_lowRisk (sweepContact options now_ acc c) =
    S (a_highRisk acc + a_mediumRisk acc + a_lowRisk acc).
Proof.
  pose proof (scoreContact_high_active c now_) as Hrisk.
  unfold sweepContact. cbn [a_highRisk a_mediumRisk a_lowRisk].
  set (result := scoreContact c now_) in *. clearbody result.
  rewrite filter_cons, filter_nil.
  case_bool_decide as Hh.
  - rewrite decide_True by (by apply Hrisk). cbn [length]. lia.
  - rewrite decide_False by (intros Hne; by apply Hh, Hrisk). cbn [length].
    case_bool_decide; lia.
Qed.

Lemma sweepContact_tally sel :
  let acc := foldl (sweepContact options now_) emptyAcc sel in
  Forall2 (evaluates options now_) sel (a_evaluationRows acc) ∧
  a_highRisk acc = length (filter (λ c, c_status (sc_row c) ≠ ACTIVE) sel) ∧
  a_highRisk acc + a_mediumRisk acc + a_lowRisk acc = length sel.
Proof.
  induction sel as [| c sel IH] using rev_ind; cbv zeta.
  - cbn. split; [constructor | done].
  - rewrite foldl_app. cbn [foldl]. cbv zeta in IH.
    set (acc := foldl (sweepContact options now_) emptyAcc sel) in *. clearbody acc.
    destruct IH as (Hrows & Hhigh & Hsum).
    destruct (sweepContact_evaluationRows acc c) as (e & -> & He).
    destruct (sweepContact_risk acc c) as [-> ->].
    rewrite filter_app, !length_app. cbn [length].
    split; [apply Forall2_app; [exact Hrows | by constructor] |]. lia.
Qed.

End Tally.

(** X22 (runHygieneSweep): a sweep appends one evaluation row per
    selected contact, in the order of selection, with the contact's id and
    the computed risk level, score and reasons; the row's [suppressed] flag
    says whether suppression was applied to the contact.  [evaluated] is
    the number of selected contacts, never above the limit; the three risk
    counters add up to it; [highRisk] counts the selected contacts that are
    not ACTIVE, and neither [suppressionsCreated] nor [contactsSuppressed]
    exceeds it. *)
Theorem sweep_evaluations clock options st :
  let now_ := default clock (now options) in
  let sel := findContacts (limit options) st in
  let out := runHygieneSweep clock options st in
  (∃ rows,
     hygieneEvaluations out.2 = hygieneEvaluations st ++ rows ∧
     Forall2 (evaluates options now_) sel rows) ∧
  evaluated out.1 = length sel ∧
  (∀ n, limit options = Some n → evaluated out.1 ≤ n) ∧
  highRisk out.1 + mediumRisk out.1 + lowRisk out.1 = evaluated out.1 ∧
  highRisk out.1 = length (filter (λ c, c_status (sc_row c) ≠ ACTIVE) sel) ∧
  suppressionsCreated out.1 ≤ highRisk out.1 ∧
  contactsSuppressed out.1 ≤ highRisk out.1.
Proof.
  cbv zeta.
  destruct (runHygieneSweep_effect clock options st) as (_ & _ & Hcreated & Hmoved).
  cbv zeta in Hcreated, Hmoved. rewrite Hcreated, Hmoved. clear Hcreated Hmoved.
  set (now_ := default clock (now options)).
  set (sel := findContacts (limit options) st).
  assert (Hlimit : ∀ n, limit options = Some n → length sel ≤ n).
  { intros n Hn. subst sel. unfold findContacts. rewrite Hn, length_take. lia. }
  assert (Hle : ∀ P : SweepContact → bool,
            (∀ c, P c = true → riskLevel (scoreContact c now_) = HIGH) →
            length (filter P sel) ≤ length (filter (λ c, c_status (sc_row c) ≠ ACTIVE) sel)).
  { intros P HP. clear Hlimit. clearbody sel. induction sel as [| c sel IH]; [done |].
    rewrite !filter_cons. destruct (P c) eqn:Hc.
    - rewrite decide_True by exact I.
      rewrite decide_True by (apply (scoreContact_high_active c now_), HP, Hc).
      cbn [length]. lia.
    - rewrite decide_False by exact id. destruct (decide _); cbn [length]; lia. }
  assert (Happly : ∀ c, shouldApplySuppression options c (scoreContact c now_) = true →
            riskLevel (scoreContact c now_) = HIGH).
  { intros c. unfold shouldApplySuppression.
    intros [[Hhigh _]%andb_true_iff _]%andb_true_iff. by apply bool_decide_eq_true_1 in Hhigh. }
  assert (Hcreates : length (filter (creates options now_) sel) ≤
                     length (filter (λ c, c_status (sc_row c) ≠ ACTIVE) sel)).
  { apply Hle. intros c. unfold creates. intros [Ha _]%andb_true_iff. by apply Happly. }
  assert (Hmoves : length (filter (transitions options now_) sel) ≤
                   length (filter (λ c, c_status (sc_row c) ≠ ACTIVE) sel)).
  { apply Hle. intros c. unfold transitions. intros [Ha _]%andb_true_iff. by apply Happly. }
  unfold runHygieneSweep. fold now_ sel.
  case_bool_decide as Hempty.
  - apply nil_length_inv in Hempty. rewrite Hempty in *. cbn.
    split; [exists []; split; [by rewrite app_nil_r | constructor] |].
    repeat split; try done; intros; lia.
  - destruct (sweepContact_tally options now_ sel) as (Hrows & Hhigh & Hsum).
    cbv zeta in Hrows, Hhigh, Hsum.
    set (acc := foldl (sweepContact options now_) emptyAcc sel) in *. clearbody acc.
    cbn [fst snd evaluated highRisk mediumRisk lowRisk commitSweep
         with_suppressions with_contacts with_hygieneEvaluations hygieneEvaluations].
    split; [exists (a_evaluationRows acc); split; [done | exact Hrows] |].
    split; [done |]. split; [exact Hlimit |]. split; [exact Hsum |].
    split; [exact Hhigh |]. rewrite Hhigh. done.
Qed.




(** X24 (runHygieneSweep): a sweep only appends to the suppression
    table, [suppressionsCreated] rows in all and none when
    [suppressHighRisk] is false.  Each new row has reason "hygiene-risk"
    and source "system", and is for a stored contact that is not ACTIVE,
    not tagged "synthetic" and had no "hygiene-risk" row before. *)
Theorem sweep_suppression_rows clock options st :
  let out := runHygieneSweep clock options st in
  ∃ new,
    suppressions out.2 = suppressions st ++ new ∧
    suppressionsCreated out.1 = length new ∧
    (suppressEnabled options = false → new = []) ∧
    ∀ row, row ∈ new →
      s_reason row = HYGIENE_SUPPRESSION_REASON ∧ s_source row = "system" ∧
      hygieneRows (s_contactId row) st = 0 ∧
      ∃ contact, contacts st !! s_contactId row = Some contact ∧
                 c_status contact ≠ ACTIVE ∧ "synthetic" ∉ c_tags contact.
Proof.
  cbv zeta.
  destruct (runHygieneSweep_effect clock options st) as (Hsup & _ & Hcreated & _).
  cbv zeta in Hsup, Hcreated. rewrite Hsup, Hcreated. clear Hsup Hcreated.
  set (now_ := default clock (now options)).
  set (sel := findContacts (limit options) st).
  eexists. split; [reflexivity |]. split; [by rewrite length_fmap |].
  assert (Hmade : ∀ c, c ∈ filter (creates options now_) sel →
            suppressEnabled options = true ∧ hygieneRows (sc_id c) st = 0 ∧
            contacts st !! sc_id c = Some (sc_row c) ∧
            c_status (sc_row c) ≠ ACTIVE ∧ "synthetic" ∉ c_tags (sc_row c)).
  { intros c [Hcreates Hin]%list_elem_of_filter.
    apply findContacts_elem in Hin as [Hrow Hsupp].
    apply Is_true_true in Hcreates. unfold creates, shouldApplySuppression in Hcreates.
    apply andb_true_iff in Hcreates as [[[Hhigh Hon]%andb_true_iff Hreal]%andb_true_iff Hno].
    apply bool_decide_eq_true_1, scoreContact_high_active in Hhigh.
    apply negb_true_iff in Hreal, Hno. apply bool_decide_eq_false_1 in Hreal.
    rewrite Hsupp in Hno. apply hasHygieneSuppression_rows in Hno. done. }
  split.
  - intros Hoff. destruct (filter (creates options now_) sel) as [| c made] eqn:Hfilter; [done |].
    destruct (Hmade c ltac:(by left)) as [Hon _]. congruence.
  - intros row (c & -> & Hc)%list_elem_of_fmap. cbn.
    destruct (Hmade c Hc) as (_ & Hrows & Hrow & Hstatus & Hreal).
    split; [done |]. split; [done |]. split; [exact Hrows |]. eauto.
Qed.

End SweepMore.

(** * Recipient selection of broadcasts *)

Module BroadcastFacts.
Import Broadcasts.

Lemma partitionStep_eligible acc contact :
  partitionStep acc contact =
    if decide (eligible contact)
    then {| sendable := sendable acc ++ [contact]; skipped := skipped acc |}
    else {| sendable := sendable acc; skipped := skipped acc ++ [contact] |}.
Proof.
  unfold partitionStep, noEmail, SEND_EXCLUDED_STATUSES.
  destruct (decide (eligible contact)) as [[(email & Hemail & Hne) [Hs Hc]] | Hno].
  - rewrite Hemail, (bool_decide_eq_false_2 _ Hne). cbn [orb].
    rewrite bool_decide_eq_false_2; [done |].
    rewrite !elem_of_cons, elem_of_nil. tauto.
  - destruct (cs_email contact) as [email |] eqn:Hemail; [| done].
    case_bool_decide as Hempty; [done |]. cbn [orb].
    case_bool_decide as Hin; [done |]. exfalso. apply Hno.
    rewrite !elem_of_cons, elem_of_nil in Hin.
    unfold eligible. rewrite Hemail. split; [eauto |]. tauto.
Qed.

(** X25 (partitionContactsByEligibility): the recipients are the contacts
    with a non-empty address whose status is neither SUPPRESSED nor
    COMPLAINED, the skipped ones are all the others, both in their original
    order, so every contact lands in exactly one of the two lists.  In
    particular an ACTIVE or BOUNCED contact with an address is a recipient. *)
Theorem partitionContactsByEligibility_filter contacts :
  let p := partitionContactsByEligibility contacts in
  sendable p = filter eligible contacts ∧
  skipped p = filter (λ contact, ¬ eligible contact) contacts ∧
  length (sendable p) + length (skipped p) = length contacts ∧
  ∀ contact email,
    contact ∈ contacts → cs_email contact = Some email → email ≠ "" →
    cs_status contact = ACTIVE ∨ cs_status contact = BOUNCED → contact ∈ sendable p.
Proof.
  cbv zeta. unfold partitionContactsByEligibility.
  assert (Hfold : ∀ acc,
    sendable (foldl partitionStep acc contacts) = sendable acc ++ filter eligible contacts ∧
    skipped (foldl partitionStep acc contacts) =
      skipped acc ++ filter (λ contact, ¬ eligible contact) contacts).
  { induction contacts as [| contact rest IH]; intros acc; cbn [foldl].
    - by rewrite !filter_nil, !app_nil_r.
    - destruct (IH (partitionStep acc contact)) as [-> ->].
      rewrite partitionStep_eligible, !filter_cons.
      destruct (decide (eligible contact)) as [Hyes | Hno]; cbn [sendable skipped].
      + rewrite decide_False by tauto. by rewrite <- app_assoc.
      + rewrite decide_True by done. by rewrite <- app_assoc. }
  destruct (Hfold {| sendable := []; skipped := [] |}) as [Hs Hk].
  cbn [sendable skipped app] in Hs, Hk. rewrite Hs, Hk.
  split; [done |]. split; [done |]. split.
  - clear. induction contacts as [| contact rest IH]; [done |].
    rewrite !filter_cons. destruct (decide (eligible contact)).
    + rewrite decide_False by tauto. cbn [length]. lia.
    + rewrite decide_True by done. cbn [length]. lia.
  - intros contact email Hin Hemail Hne Hstatus.
    apply list_elem_of_filter. split; [| done].
    unfold eligible. split; [eauto |]. destruct Hstatus as [-> | ->]; done.
Qed.

End BroadcastFacts.
